(** * AIDE RegGenie: the translation QC workflow

    A shallow embedding of the translation tool
    ([src/components/TranslationTool.tsx]) and of the two gateway helpers it
    relies on ([src/services/geminiService.ts]), with the properties the
    specification states about them; then of the JSON requests of the
    gateway, of the translation figures of the dashboard
    ([src/components/CompetencyDashboard.tsx]), of the tracking numbers and
    the multi-select of the regulatory database
    ([src/components/MonitoringReportGenerator.tsx]) and of the activity
    feed ([src/components/AgenticMonitoring.tsx]), with further properties
    read off the code.

    Conventions of the embedding.
    - A JavaScript string is the list of its UTF-16 code units.
    - A JavaScript number that the program only ever uses as a count (lengths,
      indices, sums of the integer MQM weights, clock readings) is a [nat];
      every such value is far below 2^53, where binary64 arithmetic on
      integers is exact.  Where the program computes with fractions
      (quality score, token estimate, price) the number is a binary64
      [float] and the operations are the IEEE ones, as in the source.
    - React state is one record; a handler reads the state of the render it
      was created in and queues updates, so every read below goes to the
      incoming state [s] and the updates are applied to it in program order.
    - The persisted collection (local storage key [aide_translation_metrics])
      is [option (list TranslationLog)]: [None] when the key is absent.  The
      stored text is assumed to be what the program itself wrote
      (well-formed JSON of logs). *)

From Stdlib Require Import ZArith NArith List Bool Lia.
From Stdlib Require Import Strings.String Strings.Ascii Numbers.DecimalString.
From Stdlib Require Import Floats.
From stdpp Require Import base option list.
Import ListNotations.

Local Open Scope nat_scope.
Local Open Scope list_scope.

(** ** JavaScript strings and arrays *)
Module JS.

Definition jsstring := list N.

(** A string literal of the source (ASCII only in this program). *)
Definition lit (s : string) : jsstring :=
  map N_of_ascii (list_ascii_of_string s).

(** [Number.prototype.toString] / [String(n)] / template interpolation of a
    non-negative integer: its decimal digits. *)
Definition toString (n : nat) : jsstring :=
  lit (NilEmpty.string_of_uint (Nat.to_uint n)).

Definition code_eqb (a b : N) : bool := N.eqb a b.

Fixpoint string_eqb (a b : jsstring) : bool :=
  match a, b with
  | [], [] => true
  | x :: a', y :: b' => code_eqb x y && string_eqb a' b'
  | _, _ => false
  end.

(** [s.startsWith(p)] *)
Fixpoint startsWith (s p : jsstring) : bool :=
  match p, s with
  | [], _ => true
  | _ :: _, [] => false
  | y :: p', x :: s' => code_eqb x y && startsWith s' p'
  end.

(** The filler of [padStart]/[padEnd]: [pad] repeated and cut to [n] code
    units; [cur] is what is left of the current copy. *)
Fixpoint pad_filler (pad cur : jsstring) (n : nat) : jsstring :=
  match n with
  | 0 => []
  | S n' =>
      match cur with
      | c :: r => c :: pad_filler pad r n'
      | [] =>
          match pad with
          | c :: r => c :: pad_filler pad r n'
          | [] => []
          end
      end
  end.

(** [s.padStart(target, pad)] *)
Definition padStart (s : jsstring) (target : nat) (pad : jsstring) : jsstring :=
  if target <=? length s then s
  else match pad with
       | [] => s
       | _ => pad_filler pad pad (target - length s) ++ s
       end.

(** ECMAScript [WhiteSpace] and [LineTerminator] code points: the class [\s]
    of a regular expression, which is also what [trim] removes. *)
Definition is_ws (c : N) : bool :=
  ((9 <=? c) && (c <=? 13) || (c =? 32) || (c =? 160) || (c =? 5760)
   || (8192 <=? c) && (c <=? 8202) || (c =? 8232) || (c =? 8233)
   || (c =? 8239) || (c =? 8287) || (c =? 12288) || (c =? 65279))%N.

(** [a.join(sep)] on an array of strings. *)
Fixpoint join (sep : jsstring) (a : list jsstring) : jsstring :=
  match a with
  | [] => []
  | [x] => x
  | x :: rest => x ++ sep ++ join sep rest
  end.

(** [s.split(/\s+/)]: the pieces between maximal runs of white space.  A
    leading run gives a leading empty piece, a trailing run a trailing empty
    piece, and the empty string gives one empty piece.  [in_sep] tells that
    the previous code unit was white space, [cur] is the piece being read. *)
Fixpoint split_go (in_sep : bool) (cur : jsstring) (s : jsstring) : list jsstring :=
  match s with
  | [] => [cur]
  | c :: s' =>
      if is_ws c then
        if in_sep then split_go true cur s' else cur :: split_go true [] s'
      else split_go false (cur ++ [c]) s'
  end.

Definition split_ws (s : jsstring) : list jsstring := split_go false [] s.

Fixpoint trimStart (s : jsstring) : jsstring :=
  match s with
  | c :: s' => if is_ws c then trimStart s' else s
  | [] => []
  end.

Definition trimEnd (s : jsstring) : jsstring := rev (trimStart (rev s)).

(** [s.trim()] *)
Definition trim (s : jsstring) : jsstring := trimEnd (trimStart s).

(** [a[i] = v] on an array of strings that is only joined afterwards: inside
    the array the element is replaced; past its end JavaScript extends the
    array, and the holes it leaves are joined as empty strings. *)
Definition array_set (a : list jsstring) (i : nat) (v : jsstring) : list jsstring :=
  if i <? length a then <[i := v]> a
  else a ++ repeat [] (i - length a) ++ [v].

End JS.
Export JS.

(** ** JavaScript numbers (binary64) *)
Module Num.

Local Open Scope float_scope.

(** The number with the value of a count; exact below 2^53. *)
Definition of_nat (n : nat) : float := of_uint63 (Uint63.of_Z (Z.of_nat n)).

Definition two52 : float := 4503599627370496.

(** The largest integer not above [x], for [0 <= x < 2^52]: adding and
    removing 2^52 rounds [x] to a nearest integer, which is then corrected
    downwards. *)
Definition floor_small (x : float) : float :=
  let t := (x + two52) - two52 in
  if PrimFloat.ltb x t then t - 1 else t.

(** [Math.round]: the nearest integer, a tie going to the one closer to
    +infinity; zeros, infinities, NaN and integral values are returned as
    they are, and values in [-0.5, -0) give -0. *)
Definition Math_round (x : float) : float :=
  if is_nan x || is_infinity x || PrimFloat.eqb x 0 || PrimFloat.leb two52 (abs x) then x
  else if PrimFloat.ltb 0 x then
    let f := floor_small x in
    if PrimFloat.ltb (x - f) 0.5 then f else f + 1
  else
    let a := - x in
    let f := floor_small a in
    if PrimFloat.leb (a - f) 0.5 then - f else - (f + 1).

(** [Math.max] of two numbers: NaN if either is, and +0 above -0. *)
Definition Math_max (a b : float) : float :=
  if is_nan a || is_nan b then nan
  else if PrimFloat.ltb a b then b
  else if PrimFloat.ltb b a then a
  else match classify a with
       | NZero => b
       | _ => a
       end.

End Num.

(** ** The data model ([types.ts] is not part of the sources read here) *)

(** Modelled from the spec: the enum [MQMSeverity] of [types.ts]; the
    specification gives its three members. *)
Inductive MQMSeverity := Minor | Major | Critical.

(** Modelled from the spec: the enum [MQMType] of [types.ts], the taxonomy
    category of a correction.  The component names the member
    [Terminology]; any other member is kept by its string value. *)
Inductive MQMType := Terminology | OtherType (value : jsstring).

(** Modelled from the spec: the enum [TranslationDocType] of [types.ts]
    (document type); the component names the member [EssentialDocuments]. *)
Inductive TranslationDocType := EssentialDocuments | OtherDocType (value : jsstring).

(** Modelled from the spec: the enum [FunctionalGroup] of [types.ts]; the
    component names the member [ClinicalOperations]. *)
Inductive FunctionalGroup := ClinicalOperations | OtherGroup (value : jsstring).

(** The four values of the status union type of the component. *)
Inductive QcStatus := Draft | QCPending | QCFinalized | Downloaded.

Module Rationale.
(** [CorrectionRationale], as [confirmIntervention] builds it. *)
Record t := {
  originalText : jsstring;
  updatedText : jsstring;
  rationale : jsstring;
  timestamp : nat;
  pageIndex : Z;
  wordIndex : nat;
  mqmSeverity : MQMSeverity;
  mqmType : MQMType
}.

End Rationale.

Module Log.
(** [TranslationLog], as [handleTranslate] builds it; [mqmErrorScore] and
    [qualityScore] are absent until the first intervention. *)
Record t := {
  id : jsstring;
  trackingId : jsstring;
  functionalGroup : FunctionalGroup;
  projectNumber : jsstring;
  docType : TranslationDocType;
  timestamp : nat;
  sourceLanguage : jsstring;
  targetLanguage : jsstring;
  wordCount : nat;
  charCount : nat;
  pageCount : nat;
  mode : jsstring;
  provider : jsstring;
  status : QcStatus;
  qcTimeSpentSeconds : nat;
  workflowTimeCodes : list (jsstring * nat);
  estimatedCost : float;
  rationales : list Rationale.t;
  mqmErrorScore : option nat;
  qualityScore : option float
}.

Definition set_status (v : QcStatus) (s : t) : t :=
  {| id := id s; trackingId := trackingId s; functionalGroup := functionalGroup s;
     projectNumber := projectNumber s; docType := docType s; timestamp := timestamp s;
     sourceLanguage := sourceLanguage s; targetLanguage := targetLanguage s;
     wordCount := wordCount s; charCount := charCount s; pageCount := pageCount s;
     mode := mode s; provider := provider s; status := v;
     qcTimeSpentSeconds := qcTimeSpentSeconds s; workflowTimeCodes := workflowTimeCodes s;
     estimatedCost := estimatedCost s; rationales := rationales s;
     mqmErrorScore := mqmErrorScore s; qualityScore := qualityScore s |}.

Definition set_rationales (v : list Rationale.t) (s : t) : t :=
  {| id := id s; trackingId := trackingId s; functionalGroup := functionalGroup s;
     projectNumber := projectNumber s; docType := docType s; timestamp := timestamp s;
     sourceLanguage := sourceLanguage s; targetLanguage := targetLanguage s;
     wordCount := wordCount s; charCount := charCount s; pageCount := pageCount s;
     mode := mode s; provider := provider s; status := status s;
     qcTimeSpentSeconds := qcTimeSpentSeconds s; workflowTimeCodes := workflowTimeCodes s;
     estimatedCost := estimatedCost s; rationales := v; mqmErrorScore := mqmErrorScore s;
     qualityScore := qualityScore s |}.

Definition set_mqmErrorScore (v : option nat) (s : t) : t :=
  {| id := id s; trackingId := trackingId s; functionalGroup := functionalGroup s;
     projectNumber := projectNumber s; docType := docType s; timestamp := timestamp s;
     sourceLanguage := sourceLanguage s; targetLanguage := targetLanguage s;
     wordCount := wordCount s; charCount := charCount s; pageCount := pageCount s;
     mode := mode s; provider := provider s; status := status s;
     qcTimeSpentSeconds := qcTimeSpentSeconds s; workflowTimeCodes := workflowTimeCodes s;
     estimatedCost := estimatedCost s; rationales := rationales s; mqmErrorScore := v;
     qualityScore := qualityScore s |}.

Definition set_qualityScore (v : option float) (s : t) : t :=
  {| id := id s; trackingId := trackingId s; functionalGroup := functionalGroup s;
     projectNumber := projectNumber s; docType := docType s; timestamp := timestamp s;
     sourceLanguage := sourceLanguage s; targetLanguage := targetLanguage s;
     wordCount := wordCount s; charCount := charCount s; pageCount := pageCount s;
     mode := mode s; provider := provider s; status := status s;
     qcTimeSpentSeconds := qcTimeSpentSeconds s; workflowTimeCodes := workflowTimeCodes s;
     estimatedCost := estimatedCost s; rationales := rationales s;
     mqmErrorScore := mqmErrorScore s; qualityScore := v |}.

End Log.

Module State.
(** The React state of [TranslationTool] (the view-only flags
    [isLargeScreen], [alternatives] and [isFetchingAlts] are left out). *)
Record t := {
  projectNumber : jsstring;
  currentTrackingId : jsstring;
  currentLogId : jsstring;
  sourceLanguage : jsstring;
  targetLanguage : jsstring;
  documentType : TranslationDocType;
  initiateTranslation : bool;
  sourcePages : list jsstring;
  editedPages : list jsstring;
  currentPage : Z;
  wordCount : nat;
  tokenCount : float;
  estimatedCost : float;
  isReviewMode : bool;
  qcStatus : QcStatus;
  qcSeconds : nat;
  rationales : list Rationale.t;
  isWordModalOpen : bool;
  selectedWordData : option (jsstring * nat);
  selectedAlt : jsstring;
  mqmSeverity : MQMSeverity;
  mqmType : MQMType;
  rationaleText : jsstring;
  isReading : bool;
  isPaused : bool;
  highlightedWordIndex : option nat;
  isLoading : bool;
  progress : jsstring
}.

Definition set_currentTrackingId (v : jsstring) (s : t) : t :=
  {| projectNumber := projectNumber s; currentTrackingId := v; currentLogId := currentLogId s;
     sourceLanguage := sourceLanguage s; targetLanguage := targetLanguage s;
     documentType := documentType s; initiateTranslation := initiateTranslation s;
     sourcePages := sourcePages s; editedPages := editedPages s; currentPage := currentPage s;
     wordCount := wordCount s; tokenCount := tokenCount s; estimatedCost := estimatedCost s;
     isReviewMode := isReviewMode s; qcStatus := qcStatus s; qcSeconds := qcSeconds s;
     rationales := rationales s; isWordModalOpen := isWordModalOpen s;
     selectedWordData := selectedWordData s; selectedAlt := selectedAlt s;
     mqmSeverity := mqmSeverity s; mqmType := mqmType s; rationaleText := rationaleText s;
     isReading := isReading s; isPaused := isPaused s;
     highlightedWordIndex := highlightedWordIndex s; isLoading := isLoading s;
     progress := progress s |}.

Definition set_currentLogId (v : jsstring) (s : t) : t :=
  {| projectNumber := projectNumber s; currentTrackingId := currentTrackingId s;
     currentLogId := v; sourceLanguage := sourceLanguage s; targetLanguage := targetLanguage s;
     documentType := documentType s; initiateTranslation := initiateTranslation s;
     sourcePages := sourcePages s; editedPages := editedPages s; currentPage := currentPage s;
     wordCount := wordCount s; tokenCount := tokenCount s; estimatedCost := estimatedCost s;
     isReviewMode := isReviewMode s; qcStatus := qcStatus s; qcSeconds := qcSeconds s;
     rationales := rationales s; isWordModalOpen := isWordModalOpen s;
     selectedWordData := selectedWordData s; selectedAlt := selectedAlt s;
     mqmSeverity := mqmSeverity s; mqmType := mqmType s; rationaleText := rationaleText s;
     isReading := isReading s; isPaused := isPaused s;
     highlightedWordIndex := highlightedWordIndex s; isLoading := isLoading s;
     progress := progress s |}.

Definition set_sourceLanguage (v : jsstring) (s : t) : t :=
  {| projectNumber := projectNumber s; currentTrackingId := currentTrackingId s;
     currentLogId := currentLogId s; sourceLanguage := v; targetLanguage := targetLanguage s;
     documentType := documentType s; initiateTranslation := initiateTranslation s;
     sourcePages := sourcePages s; editedPages := editedPages s; currentPage := currentPage s;
     wordCount := wordCount s; tokenCount := tokenCount s; estimatedCost := estimatedCost s;
     isReviewMode := isReviewMode s; qcStatus := qcStatus s; qcSeconds := qcSeconds s;
     rationales := rationales s; isWordModalOpen := isWordModalOpen s;
     selectedWordData := selectedWordData s; selectedAlt := selectedAlt s;
     mqmSeverity := mqmSeverity s; mqmType := mqmType s; rationaleText := rationaleText s;
     isReading := isReading s; isPaused := isPaused s;
     highlightedWordIndex := highlightedWordIndex s; isLoading := isLoading s;
     progress := progress s |}.

Definition set_initiateTranslation (v : bool) (s : t) : t :=
  {| projectNumber := projectNumber s; currentTrackingId := currentTrackingId s;
     currentLogId := currentLogId s; sourceLanguage := sourceLanguage s;
     targetLanguage := targetLanguage s; documentType := documentType s;
     initiateTranslation := v; sourcePages := sourcePages s; editedPages := editedPages s;
     currentPage := currentPage s; wordCount := wordCount s; tokenCount := tokenCount s;
     estimatedCost := estimatedCost s; isReviewMode := isReviewMode s; qcStatus := qcStatus s;
     qcSeconds := qcSeconds s; rationales := rationales s;
     isWordModalOpen := isWordModalOpen s; selectedWordData := selectedWordData s;
     selectedAlt := selectedAlt s; mqmSeverity := mqmSeverity s; mqmType := mqmType s;
     rationaleText := rationaleText s; isReading := isReading s; isPaused := isPaused s;
     highlightedWordIndex := highlightedWordIndex s; isLoading := isLoading s;
     progress := progress s |}.

Definition set_sourcePages (v : list jsstring) (s : t) : t :=
  {| projectNumber := projectNumber s; currentTrackingId := currentTrackingId s;
     currentLogId := currentLogId s; sourceLanguage := sourceLanguage s;
     targetLanguage := targetLanguage s; documentType := documentType s;
     initiateTranslation := initiateTranslation s; sourcePages := v;
     editedPages := editedPages s; currentPage := currentPage s; wordCount := wordCount s;
     tokenCount := tokenCount s; estimatedCost := estimatedCost s;
     isReviewMode := isReviewMode s; qcStatus := qcStatus s; qcSeconds := qcSeconds s;
     rationales := rationales s; isWordModalOpen := isWordModalOpen s;
     selectedWordData := selectedWordData s; selectedAlt := selectedAlt s;
     mqmSeverity := mqmSeverity s; mqmType := mqmType s; rationaleText := rationaleText s;
     isReading := isReading s; isPaused := isPaused s;
     highlightedWordIndex := highlightedWordIndex s; isLoading := isLoading s;
     progress := progress s |}.

Definition set_editedPages (v : list jsstring) (s : t) : t :=
  {| projectNumber := projectNumber s; currentTrackingId := currentTrackingId s;
     currentLogId := currentLogId s; sourceLanguage := sourceLanguage s;
     targetLanguage := targetLanguage s; documentType := documentType s;
     initiateTranslation := initiateTranslation s; sourcePages := sourcePages s;
     editedPages := v; currentPage := currentPage s; wordCount := wordCount s;
     tokenCount := tokenCount s; estimatedCost := estimatedCost s;
     isReviewMode := isReviewMode s; qcStatus := qcStatus s; qcSeconds := qcSeconds s;
     rationales := rationales s; isWordModalOpen := isWordModalOpen s;
     selectedWordData := selectedWordData s; selectedAlt := selectedAlt s;
     mqmSeverity := mqmSeverity s; mqmType := mqmType s; rationaleText := rationaleText s;
     isReading := isReading s; isPaused := isPaused s;
     highlightedWordIndex := highlightedWordIndex s; isLoading := isLoading s;
     progress := progress s |}.

Definition set_currentPage (v : Z) (s : t) : t :=
  {| projectNumber := projectNumber s; currentTrackingId := currentTrackingId s;
     currentLogId := currentLogId s; sourceLanguage := sourceLanguage s;
     targetLanguage := targetLanguage s; documentType := documentType s;
     initiateTranslation := initiateTranslation s; sourcePages := sourcePages s;
     editedPages := editedPages s; currentPage := v; wordCount := wordCount s;
     tokenCount := tokenCount s; estimatedCost := estimatedCost s;
     isReviewMode := isReviewMode s; qcStatus := qcStatus s; qcSeconds := qcSeconds s;
     rationales := rationales s; isWordModalOpen := isWordModalOpen s;
     selectedWordData := selectedWordData s; selectedAlt := selectedAlt s;
     mqmSeverity := mqmSeverity s; mqmType := mqmType s; rationaleText := rationaleText s;
     isReading := isReading s; isPaused := isPaused s;
     highlightedWordIndex := highlightedWordIndex s; isLoading := isLoading s;
     progress := progress s |}.

Definition set_wordCount (v : nat) (s : t) : t :=
  {| projectNumber := projectNumber s; currentTrackingId := currentTrackingId s;
     currentLogId := currentLogId s; sourceLanguage := sourceLanguage s;
     targetLanguage := targetLanguage s; documentType := documentType s;
     initiateTranslation := initiateTranslation s; sourcePages := sourcePages s;
     editedPages := editedPages s; currentPage := currentPage s; wordCount := v;
     tokenCount := tokenCount s; estimatedCost := estimatedCost s;
     isReviewMode := isReviewMode s; qcStatus := qcStatus s; qcSeconds := qcSeconds s;
     rationales := rationales s; isWordModalOpen := isWordModalOpen s;
     selectedWordData := selectedWordData s; selectedAlt := selectedAlt s;
     mqmSeverity := mqmSeverity s; mqmType := mqmType s; rationaleText := rationaleText s;
     isReading := isReading s; isPaused := isPaused s;
     highlightedWordIndex := highlightedWordIndex s; isLoading := isLoading s;
     progress := progress s |}.

Definition set_tokenCount (v : float) (s : t) : t :=
  {| projectNumber := projectNumber s; currentTrackingId := currentTrackingId s;
     currentLogId := currentLogId s; sourceLanguage := sourceLanguage s;
     targetLanguage := targetLanguage s; documentType := documentType s;
     initiateTranslation := initiateTranslation s; sourcePages := sourcePages s;
     editedPages := editedPages s; currentPage := currentPage s; wordCount := wordCount s;
     tokenCount := v; estimatedCost := estimatedCost s; isReviewMode := isReviewMode s;
     qcStatus := qcStatus s; qcSeconds := qcSeconds s; rationales := rationales s;
     isWordModalOpen := isWordModalOpen s; selectedWordData := selectedWordData s;
     selectedAlt := selectedAlt s; mqmSeverity := mqmSeverity s; mqmType := mqmType s;
     rationaleText := rationaleText s; isReading := isReading s; isPaused := isPaused s;
     highlightedWordIndex := highlightedWordIndex s; isLoading := isLoading s;
     progress := progress s |}.

Definition set_estimatedCost (v : float) (s : t) : t :=
  {| projectNumber := projectNumber s; currentTrackingId := currentTrackingId s;
     currentLogId := currentLogId s; sourceLanguage := sourceLanguage s;
     targetLanguage := targetLanguage s; documentType := documentType s;
     initiateTranslation := initiateTranslation s; sourcePages := sourcePages s;
     editedPages := editedPages s; currentPage := currentPage s; wordCount := wordCount s;
     tokenCount := tokenCount s; estimatedCost := v; isReviewMode := isReviewMode s;
     qcStatus := qcStatus s; qcSeconds := qcSeconds s; rationales := rationales s;
     isWordModalOpen := isWordModalOpen s; selectedWordData := selectedWordData s;
     selectedAlt := selectedAlt s; mqmSeverity := mqmSeverity s; mqmType := mqmType s;
     rationaleText := rationaleText s; isReading := isReading s; isPaused := isPaused s;
     highlightedWordIndex := highlightedWordIndex s; isLoading := isLoading s;
     progress := progress s |}.

Definition set_isReviewMode (v : bool) (s : t) : t :=
  {| projectNumber := projectNumber s; currentTrackingId := currentTrackingId s;
     currentLogId := currentLogId s; sourceLanguage := sourceLanguage s;
     targetLanguage := targetLanguage s; documentType := documentType s;
     initiateTranslation := initiateTranslation s; sourcePages := sourcePages s;
     editedPages := editedPages s; currentPage := currentPage s; wordCount := wordCount s;
     tokenCount := tokenCount s; estimatedCost := estimatedCost s; isReviewMode := v;
     qcStatus := qcStatus s; qcSeconds := qcSeconds s; rationales := rationales s;
     isWordModalOpen := isWordModalOpen s; selectedWordData := selectedWordData s;
     selectedAlt := selectedAlt s; mqmSeverity := mqmSeverity s; mqmType := mqmType s;
     rationaleText := rationaleText s; isReading := isReading s; isPaused := isPaused s;
     highlightedWordIndex := highlightedWordIndex s; isLoading := isLoading s;
     progress := progress s |}.

Definition set_qcStatus (v : QcStatus) (s : t) : t :=
  {| projectNumber := projectNumber s; currentTrackingId := currentTrackingId s;
     currentLogId := currentLogId s; sourceLanguage := sourceLanguage s;
     targetLanguage := targetLanguage s; documentType := documentType s;
     initiateTranslation := initiateTranslation s; sourcePages := sourcePages s;
     editedPages := editedPages s; currentPage := currentPage s; wordCount := wordCount s;
     tokenCount := tokenCount s; estimatedCost := estimatedCost s;
     isReviewMode := isReviewMode s; qcStatus := v; qcSeconds := qcSeconds s;
     rationales := rationales s; isWordModalOpen := isWordModalOpen s;
     selectedWordData := selectedWordData s; selectedAlt := selectedAlt s;
     mqmSeverity := mqmSeverity s; mqmType := mqmType s; rationaleText := rationaleText s;
     isReading := isReading s; isPaused := isPaused s;
     highlightedWordIndex := highlightedWordIndex s; isLoading := isLoading s;
     progress := progress s |}.

Definition set_rationales (v : list Rationale.t) (s : t) : t :=
  {| projectNumber := projectNumber s; currentTrackingId := currentTrackingId s;
     currentLogId := currentLogId s; sourceLanguage := sourceLanguage s;
     targetLanguage := targetLanguage s; documentType := documentType s;
     initiateTranslation := initiateTranslation s; sourcePages := sourcePages s;
     editedPages := editedPages s; currentPage := currentPage s; wordCount := wordCount s;
     tokenCount := tokenCount s; estimatedCost := estimatedCost s;
     isReviewMode := isReviewMode s; qcStatus := qcStatus s; qcSeconds := qcSeconds s;
     rationales := v; isWordModalOpen := isWordModalOpen s;
     selectedWordData := selectedWordData s; selectedAlt := selectedAlt s;
     mqmSeverity := mqmSeverity s; mqmType := mqmType s; rationaleText := rationaleText s;
     isReading := isReading s; isPaused := isPaused s;
     highlightedWordIndex := highlightedWordIndex s; isLoading := isLoading s;
     progress := progress s |}.

Definition set_isWordModalOpen (v : bool) (s : t) : t :=
  {| projectNumber := projectNumber s; currentTrackingId := currentTrackingId s;
     currentLogId := currentLogId s; sourceLanguage := sourceLanguage s;
     targetLanguage := targetLanguage s; documentType := documentType s;
     initiateTranslation := initiateTranslation s; sourcePages := sourcePages s;
     editedPages := editedPages s; currentPage := currentPage s; wordCount := wordCount s;
     tokenCount := tokenCount s; estimatedCost := estimatedCost s;
     isReviewMode := isReviewMode s; qcStatus := qcStatus s; qcSeconds := qcSeconds s;
     rationales := rationales s; isWordModalOpen := v; selectedWordData := selectedWordData s;
     selectedAlt := selectedAlt s; mqmSeverity := mqmSeverity s; mqmType := mqmType s;
     rationaleText := rationaleText s; isReading := isReading s; isPaused := isPaused s;
     highlightedWordIndex := highlightedWordIndex s; isLoading := isLoading s;
     progress := progress s |}.

Definition set_selectedWordData (v : option (jsstring * nat)) (s : t) : t :=
  {| projectNumber := projectNumber s; currentTrackingId := currentTrackingId s;
     currentLogId := currentLogId s; sourceLanguage := sourceLanguage s;
     targetLanguage := targetLanguage s; documentType := documentType s;
     initiateTranslation := initiateTranslation s; sourcePages := sourcePages s;
     editedPages := editedPages s; currentPage := currentPage s; wordCount := wordCount s;
     tokenCount := tokenCount s; estimatedCost := estimatedCost s;
     isReviewMode := isReviewMode s; qcStatus := qcStatus s; qcSeconds := qcSeconds s;
     rationales := rationales s; isWordModalOpen := isWordModalOpen s; selectedWordData := v;
     selectedAlt := selectedAlt s; mqmSeverity := mqmSeverity s; mqmType := mqmType s;
     rationaleText := rationaleText s; isReading := isReading s; isPaused := isPaused s;
     highlightedWordIndex := highlightedWordIndex s; isLoading := isLoading s;
     progress := progress s |}.

Definition set_selectedAlt (v : jsstring) (s : t) : t :=
  {| projectNumber := projectNumber s; currentTrackingId := currentTrackingId s;
     currentLogId := currentLogId s; sourceLanguage := sourceLanguage s;
     targetLanguage := targetLanguage s; documentType := documentType s;
     initiateTranslation := initiateTranslation s; sourcePages := sourcePages s;
     editedPages := editedPages s; currentPage := currentPage s; wordCount := wordCount s;
     tokenCount := tokenCount s; estimatedCost := estimatedCost s;
     isReviewMode := isReviewMode s; qcStatus := qcStatus s; qcSeconds := qcSeconds s;
     rationales := rationales s; isWordModalOpen := isWordModalOpen s;
     selectedWordData := selectedWordData s; selectedAlt := v; mqmSeverity := mqmSeverity s;
     mqmType := mqmType s; rationaleText := rationaleText s; isReading := isReading s;
     isPaused := isPaused s; highlightedWordIndex := highlightedWordIndex s;
     isLoading := isLoading s; progress := progress s |}.

Definition set_mqmSeverity (v : MQMSeverity) (s : t) : t :=
  {| projectNumber := projectNumber s; currentTrackingId := currentTrackingId s;
     currentLogId := currentLogId s; sourceLanguage := sourceLanguage s;
     targetLanguage := targetLanguage s; documentType := documentType s;
     initiateTranslation := initiateTranslation s; sourcePages := sourcePages s;
     editedPages := editedPages s; currentPage := currentPage s; wordCount := wordCount s;
     tokenCount := tokenCount s; estimatedCost := estimatedCost s;
     isReviewMode := isReviewMode s; qcStatus := qcStatus s; qcSeconds := qcSeconds s;
     rationales := rationales s; isWordModalOpen := isWordModalOpen s;
     selectedWordData := selectedWordData s; selectedAlt := selectedAlt s; mqmSeverity := v;
     mqmType := mqmType s; rationaleText := rationaleText s; isReading := isReading s;
     isPaused := isPaused s; highlightedWordIndex := highlightedWordIndex s;
     isLoading := isLoading s; progress := progress s |}.

Definition set_mqmType (v : MQMType) (s : t) : t :=
  {| projectNumber := projectNumber s; currentTrackingId := currentTrackingId s;
     currentLogId := currentLogId s; sourceLanguage := sourceLanguage s;
     targetLanguage := targetLanguage s; documentType := documentType s;
     initiateTranslation := initiateTranslation s; sourcePages := sourcePages s;
     editedPages := editedPages s; currentPage := currentPage s; wordCount := wordCount s;
     tokenCount := tokenCount s; estimatedCost := estimatedCost s;
     isReviewMode := isReviewMode s; qcStatus := qcStatus s; qcSeconds := qcSeconds s;
     rationales := rationales s; isWordModalOpen := isWordModalOpen s;
     selectedWordData := selectedWordData s; selectedAlt := selectedAlt s;
     mqmSeverity := mqmSeverity s; mqmType := v; rationaleText := rationaleText s;
     isReading := isReading s; isPaused := isPaused s;
     highlightedWordIndex := highlightedWordIndex s; isLoading := isLoading s;
     progress := progress s |}.

Definition set_rationaleText (v : jsstring) (s : t) : t :=
  {| projectNumber := projectNumber s; currentTrackingId := currentTrackingId s;
     currentLogId := currentLogId s; sourceLanguage := sourceLanguage s;
     targetLanguage := targetLanguage s; documentType := documentType s;
     initiateTranslation := initiateTranslation s; sourcePages := sourcePages s;
     editedPages := editedPages s; currentPage := currentPage s; wordCount := wordCount s;
     tokenCount := tokenCount s; estimatedCost := estimatedCost s;
     isReviewMode := isReviewMode s; qcStatus := qcStatus s; qcSeconds := qcSeconds s;
     rationales := rationales s; isWordModalOpen := isWordModalOpen s;
     selectedWordData := selectedWordData s; selectedAlt := selectedAlt s;
     mqmSeverity := mqmSeverity s; mqmType := mqmType s; rationaleText := v;
     isReading := isReading s; isPaused := isPaused s;
     highlightedWordIndex := highlightedWordIndex s; isLoading := isLoading s;
     progress := progress s |}.

Definition set_isReading (v : bool) (s : t) : t :=
  {| projectNumber := projectNumber s; currentTrackingId := currentTrackingId s;
     currentLogId := currentLogId s; sourceLanguage := sourceLanguage s;
     targetLanguage := targetLanguage s; documentType := documentType s;
     initiateTranslation := initiateTranslation s; sourcePages := sourcePages s;
     editedPages := editedPages s; currentPage := currentPage s; wordCount := wordCount s;
     tokenCount := tokenCount s; estimatedCost := estimatedCost s;
     isReviewMode := isReviewMode s; qcStatus := qcStatus s; qcSeconds := qcSeconds s;
     rationales := rationales s; isWordModalOpen := isWordModalOpen s;
     selectedWordData := selectedWordData s; selectedAlt := selectedAlt s;
     mqmSeverity := mqmSeverity s; mqmType := mqmType s; rationaleText := rationaleText s;
     isReading := v; isPaused := isPaused s; highlightedWordIndex := highlightedWordIndex s;
     isLoading := isLoading s; progress := progress s |}.

Definition set_isPaused (v : bool) (s : t) : t :=
  {| projectNumber := projectNumber s; currentTrackingId := currentTrackingId s;
     currentLogId := currentLogId s; sourceLanguage := sourceLanguage s;
     targetLanguage := targetLanguage s; documentType := documentType s;
     initiateTranslation := initiateTranslation s; sourcePages := sourcePages s;
     editedPages := editedPages s; currentPage := currentPage s; wordCount := wordCount s;
     tokenCount := tokenCount s; estimatedCost := estimatedCost s;
     isReviewMode := isReviewMode s; qcStatus := qcStatus s; qcSeconds := qcSeconds s;
     rationales := rationales s; isWordModalOpen := isWordModalOpen s;
     selectedWordData := selectedWordData s; selectedAlt := selectedAlt s;
     mqmSeverity := mqmSeverity s; mqmType := mqmType s; rationaleText := rationaleText s;
     isReading := isReading s; isPaused := v; highlightedWordIndex := highlightedWordIndex s;
     isLoading := isLoading s; progress := progress s |}.

Definition set_highlightedWordIndex (v : option nat) (s : t) : t :=
  {| projectNumber := projectNumber s; currentTrackingId := currentTrackingId s;
     currentLogId := currentLogId s; sourceLanguage := sourceLanguage s;
     targetLanguage := targetLanguage s; documentType := documentType s;
     initiateTranslation := initiateTranslation s; sourcePages := sourcePages s;
     editedPages := editedPages s; currentPage := currentPage s; wordCount := wordCount s;
     tokenCount := tokenCount s; estimatedCost := estimatedCost s;
     isReviewMode := isReviewMode s; qcStatus := qcStatus s; qcSeconds := qcSeconds s;
     rationales := rationales s; isWordModalOpen := isWordModalOpen s;
     selectedWordData := selectedWordData s; selectedAlt := selectedAlt s;
     mqmSeverity := mqmSeverity s; mqmType := mqmType s; rationaleText := rationaleText s;
     isReading := isReading s; isPaused := isPaused s; highlightedWordIndex := v;
     isLoading := isLoading s; progress := progress s |}.

Definition set_isLoading (v : bool) (s : t) : t :=
  {| projectNumber := projectNumber s; currentTrackingId := currentTrackingId s;
     currentLogId := currentLogId s; sourceLanguage := sourceLanguage s;
     targetLanguage := targetLanguage s; documentType := documentType s;
     initiateTranslation := initiateTranslation s; sourcePages := sourcePages s;
     editedPages := editedPages s; currentPage := currentPage s; wordCount := wordCount s;
     tokenCount := tokenCount s; estimatedCost := estimatedCost s;
     isReviewMode := isReviewMode s; qcStatus := qcStatus s; qcSeconds := qcSeconds s;
     rationales := rationales s; isWordModalOpen := isWordModalOpen s;
     selectedWordData := selectedWordData s; selectedAlt := selectedAlt s;
     mqmSeverity := mqmSeverity s; mqmType := mqmType s; rationaleText := rationaleText s;
     isReading := isReading s; isPaused := isPaused s;
     highlightedWordIndex := highlightedWordIndex s; isLoading := v; progress := progress s |}.

Definition set_progress (v : jsstring) (s : t) : t :=
  {| projectNumber := projectNumber s; currentTrackingId := currentTrackingId s;
     currentLogId := currentLogId s; sourceLanguage := sourceLanguage s;
     targetLanguage := targetLanguage s; documentType := documentType s;
     initiateTranslation := initiateTranslation s; sourcePages := sourcePages s;
     editedPages := editedPages s; currentPage := currentPage s; wordCount := wordCount s;
     tokenCount := tokenCount s; estimatedCost := estimatedCost s;
     isReviewMode := isReviewMode s; qcStatus := qcStatus s; qcSeconds := qcSeconds s;
     rationales := rationales s; isWordModalOpen := isWordModalOpen s;
     selectedWordData := selectedWordData s; selectedAlt := selectedAlt s;
     mqmSeverity := mqmSeverity s; mqmType := mqmType s; rationaleText := rationaleText s;
     isReading := isReading s; isPaused := isPaused s;
     highlightedWordIndex := highlightedWordIndex s; isLoading := isLoading s; progress := v |}.

Definition set_projectNumber (v : jsstring) (s : t) : t :=
  {| projectNumber := v; currentTrackingId := currentTrackingId s;
     currentLogId := currentLogId s; sourceLanguage := sourceLanguage s;
     targetLanguage := targetLanguage s; documentType := documentType s;
     initiateTranslation := initiateTranslation s; sourcePages := sourcePages s;
     editedPages := editedPages s; currentPage := currentPage s; wordCount := wordCount s;
     tokenCount := tokenCount s; estimatedCost := estimatedCost s;
     isReviewMode := isReviewMode s; qcStatus := qcStatus s; qcSeconds := qcSeconds s;
     rationales := rationales s; isWordModalOpen := isWordModalOpen s;
     selectedWordData := selectedWordData s; selectedAlt := selectedAlt s;
     mqmSeverity := mqmSeverity s; mqmType := mqmType s; rationaleText := rationaleText s;
     isReading := isReading s; isPaused := isPaused s;
     highlightedWordIndex := highlightedWordIndex s; isLoading := isLoading s;
     progress := progress s |}.

Definition set_targetLanguage (v : jsstring) (s : t) : t :=
  {| projectNumber := projectNumber s; currentTrackingId := currentTrackingId s;
     currentLogId := currentLogId s; sourceLanguage := sourceLanguage s; targetLanguage := v;
     documentType := documentType s; initiateTranslation := initiateTranslation s;
     sourcePages := sourcePages s; editedPages := editedPages s; currentPage := currentPage s;
     wordCount := wordCount s; tokenCount := tokenCount s; estimatedCost := estimatedCost s;
     isReviewMode := isReviewMode s; qcStatus := qcStatus s; qcSeconds := qcSeconds s;
     rationales := rationales s; isWordModalOpen := isWordModalOpen s;
     selectedWordData := selectedWordData s; selectedAlt := selectedAlt s;
     mqmSeverity := mqmSeverity s; mqmType := mqmType s; rationaleText := rationaleText s;
     isReading := isReading s; isPaused := isPaused s;
     highlightedWordIndex := highlightedWordIndex s; isLoading := isLoading s;
     progress := progress s |}.

Definition set_documentType (v : TranslationDocType) (s : t) : t :=
  {| projectNumber := projectNumber s; currentTrackingId := currentTrackingId s;
     currentLogId := currentLogId s; sourceLanguage := sourceLanguage s;
     targetLanguage := targetLanguage s; documentType := v;
     initiateTranslation := initiateTranslation s; sourcePages := sourcePages s;
     editedPages := editedPages s; currentPage := currentPage s; wordCount := wordCount s;
     tokenCount := tokenCount s; estimatedCost := estimatedCost s;
     isReviewMode := isReviewMode s; qcStatus := qcStatus s; qcSeconds := qcSeconds s;
     rationales := rationales s; isWordModalOpen := isWordModalOpen s;
     selectedWordData := selectedWordData s; selectedAlt := selectedAlt s;
     mqmSeverity := mqmSeverity s; mqmType := mqmType s; rationaleText := rationaleText s;
     isReading := isReading s; isPaused := isPaused s;
     highlightedWordIndex := highlightedWordIndex s; isLoading := isLoading s;
     progress := progress s |}.

Definition set_qcSeconds (v : nat) (s : t) : t :=
  {| projectNumber := projectNumber s; currentTrackingId := currentTrackingId s;
     currentLogId := currentLogId s; sourceLanguage := sourceLanguage s;
     targetLanguage := targetLanguage s; documentType := documentType s;
     initiateTranslation := initiateTranslation s; sourcePages := sourcePages s;
     editedPages := editedPages s; currentPage := currentPage s; wordCount := wordCount s;
     tokenCount := tokenCount s; estimatedCost := estimatedCost s;
     isReviewMode := isReviewMode s; qcStatus := qcStatus s; qcSeconds := v;
     rationales := rationales s; isWordModalOpen := isWordModalOpen s;
     selectedWordData := selectedWordData s; selectedAlt := selectedAlt s;
     mqmSeverity := mqmSeverity s; mqmType := mqmType s; rationaleText := rationaleText s;
     isReading := isReading s; isPaused := isPaused s;
     highlightedWordIndex := highlightedWordIndex s; isLoading := isLoading s;
     progress := progress s |}.

End State.

Abbreviation CorrectionRationale := Rationale.t.
Abbreviation TranslationLog := Log.t.
Abbreviation Session := State.t.

(** The value under the key [aide_translation_metrics]. *)
Definition Store := option (list TranslationLog).

(** [a[i]] for an index that may be negative: [undefined] is [None]. *)
Definition at_index {A} (a : list A) (i : Z) : option A :=
  if (i <? 0)%Z then None else a !! Z.to_nat i.

(** [a.findIndex(p)]; [None] stands for -1. *)
Fixpoint findIndex {A} (p : A -> bool) (a : list A) : option nat :=
  match a with
  | [] => None
  | x :: rest => if p x then Some 0 else option_map S (findIndex p rest)
  end.

(** ** Tracking identifiers *)
Module Tracking.

(** [generateTrackingId], with the two things it reads from its environment
    (the persisted collection and the current year) as arguments. *)
Definition generateTrackingId (stored : Store) (currentYear : nat) : jsstring :=
  let existingLogs := match stored with Some logs => logs | None => [] end in
  let yearLogs :=
    List.filter (fun l => startsWith (Log.trackingId l) (toString currentYear))
                existingLogs in
  toString currentYear ++ lit "-" ++ padStart (toString (length yearLogs + 1)) 3 (lit "0").

End Tracking.

(** ** Metrics *)
Module Metrics.

Local Open Scope float_scope.
#[local] Set Warnings "-inexact-float".

Definition TOKEN_FACTOR : float := 1.35.
Definition COST_PER_1M_TOKENS : float := 0.75.

(** [calculateMetrics]: the three values it computes ... *)
Definition metrics_of (pages : list jsstring) : nat * float * float :=
  let text := join (lit " ") pages in
  let words := length (List.filter (fun w => (0 <? length w)%nat) (split_ws text)) in
  let tokens := Num.Math_round (Num.of_nat words * TOKEN_FACTOR) in
  let cost := (tokens / 1000000) * COST_PER_1M_TOKENS in
  (words, tokens, cost).

(** ... and the three state updates it queues. *)
Definition calculateMetrics (pages : list jsstring) (acc : Session) : Session :=
  let '(words, tokens, cost) := metrics_of pages in
  State.set_estimatedCost cost (State.set_tokenCount tokens (State.set_wordCount words acc)).

End Metrics.

(** ** What a handler does to the world outside the React state *)
Inductive Effect :=
| Alert (msg : jsstring)
| Progress (msg : jsstring)
| GenerateContent (prompt : jsstring)
| SpeechCancel
| SpeechPause
| SpeechResume
| SpeechSpeak (text lang : jsstring)
| SaveWord (filename body : jsstring)
| PrintPdf (title body : jsstring).

(** What a handler sees of [window.speechSynthesis]. *)
Record Synth := { speaking : bool; paused : bool }.

(** ** The remote gateway *)
Module Gateway.

(** One answer of [ai.models.generateContent]: a failure (the promise is
    rejected) or a response whose [text] may be undefined. *)
Inductive Response := Rejected | Answer (text : option jsstring).

(** The remote service: its answer to a prompt may depend on the prompts it
    was sent before. *)
Definition Service := list jsstring -> jsstring -> Response.

(** An awaited computation: it reads and extends the trace of effects and
    either returns or throws. *)
Definition Async (A : Type) := list Effect -> option A * list Effect.

Definition ret {A} (a : A) : Async A := fun tr => (Some a, tr).
Definition bind {A B} (m : Async A) (k : A -> Async B) : Async B :=
  fun tr => match m tr with
            | (Some a, tr') => k a tr'
            | (None, tr') => (None, tr')
            end.
Definition emit (e : Effect) : Async unit := fun tr => (Some tt, tr ++ [e]).

Notation "x <- m ;; k" := (bind m (fun x => k))
  (at level 89, m at next level, right associativity).
Notation "m ;;; k" := (bind m (fun _ => k))
  (at level 89, right associativity).

(** The prompts sent so far. *)
Fixpoint prompts (tr : list Effect) : list jsstring :=
  match tr with
  | [] => []
  | GenerateContent p :: tr' => p :: prompts tr'
  | _ :: tr' => prompts tr'
  end.

(** [await ai.models.generateContent({contents: prompt})] *)
Definition generateContent (ai : Service) (prompt : jsstring) : Async (option jsstring) :=
  fun tr => match ai (prompts tr) prompt with
            | Rejected => (None, tr ++ [GenerateContent prompt])
            | Answer text => (Some text, tr ++ [GenerateContent prompt])
            end.

(** [x || ''] on an optional string. *)
Definition or_empty (x : option jsstring) : jsstring :=
  match x with Some t => t | None => [] end.

Definition translate_prompt (targetLanguage mode page : jsstring) : jsstring :=
  lit "Translate the following clinical text to " ++ targetLanguage ++ lit " with "
  ++ mode ++ lit " focus. Preserve terminology accuracy. " ++ [10; 10]%N ++ page.

Definition progress_message (i total : nat) : jsstring :=
  lit "Translating segment " ++ toString (i + 1) ++ lit " of " ++ toString total
  ++ lit "...".

(** The [for] loop of [translateDocument], from index [i] on: [rest] is
    [input] from [i], [results] what was pushed so far. *)
Fixpoint translate_from (ai : Service) (targetLanguage mode : jsstring)
    (onProgress : bool) (total : nat) (rest : list jsstring) (i : nat)
    (results : list jsstring) : Async (list jsstring) :=
  match rest with
  | [] => ret results
  | page :: rest' =>
      (if onProgress then emit (Progress (progress_message i total)) else ret tt) ;;;
      response <- generateContent ai (translate_prompt targetLanguage mode page) ;;
      translate_from ai targetLanguage mode onProgress total rest' (S i)
                     (results ++ [or_empty response])
  end.

(** [translateDocument(content, targetLanguage, mode, onProgress)]; the
    content is one string or an array of strings, and so is the result.
    [results[0]] of an empty array does not arise: a single string gives one
    segment. *)
Definition translateDocument (ai : Service) (content : jsstring + list jsstring)
    (targetLanguage mode : jsstring) (onProgress : bool)
    : Async (jsstring + list jsstring) :=
  let input := match content with inl s => [s] | inr a => a end in
  results <- translate_from ai targetLanguage mode onProgress (length input) input 0 [] ;;
  ret (match content with
       | inr _ => inr results
       | inl _ => inl (or_empty (head results))
       end).

End Gateway.

(** ** The component: handlers of [TranslationTool] *)
Module Tool.
Import State.
Local Open Scope float_scope.

(** The state of the first render ([useState] defaults). *)
Definition initial : Session :=
  {| projectNumber := lit "AZ-PH1-2025"; currentTrackingId := []; currentLogId := [];
     sourceLanguage := lit "Detecting..."; targetLanguage := lit "Spanish";
     documentType := EssentialDocuments; initiateTranslation := false;
     sourcePages := []; editedPages := []; currentPage := 0%Z;
     wordCount := 0%nat; tokenCount := 0; estimatedCost := 0;
     isReviewMode := false; qcStatus := Draft; qcSeconds := 0%nat; rationales := [];
     isWordModalOpen := false; selectedWordData := None; selectedAlt := [];
     mqmSeverity := Minor; mqmType := Terminology; rationaleText := [];
     isReading := false; isPaused := false; highlightedWordIndex := None;
     isLoading := false; progress := [] |}.

Definition status_eqb (a b : QcStatus) : bool :=
  match a, b with
  | Draft, Draft | QCPending, QCPending
  | QCFinalized, QCFinalized | Downloaded, Downloaded => true
  | _, _ => false
  end.

(** [updatePersistentStatus(newStatus)] *)
Definition updatePersistentStatus (currentLogId : jsstring) (newStatus : QcStatus)
    (stored : Store) : Store :=
  match stored with
  | Some metrics =>
      match findIndex (fun m => string_eqb (Log.id m) currentLogId) metrics with
      | Some idx => Some (alter (Log.set_status newStatus) idx metrics)
      | None => stored
      end
  | None => None
  end.

(** *** Voice reading *)

Definition localeMap (language : jsstring) : option jsstring :=
  let table :=
    [ (lit "Spanish", lit "es-ES"); (lit "French", lit "fr-FR");
      (lit "Tamil", lit "ta-IN"); (lit "German", lit "de-DE");
      (lit "Chinese", lit "zh-CN"); (lit "Japanese", lit "ja-JP");
      (lit "Korean", lit "ko-KR"); (lit "Arabic", lit "ar-SA") ] in
  option_map snd (List.find (fun e => string_eqb (fst e) language) table).

Definition handleStartReading (s acc : Session) : Session * list Effect :=
  match at_index (editedPages s) (currentPage s) with
  | None | Some [] => (acc, [])
  | Some text =>
      let lang := match localeMap (targetLanguage s) with
                  | Some l => l
                  | None => lit "en-US"
                  end in
      (set_isPaused false (set_isReading true acc), [SpeechCancel; SpeechSpeak text lang])
  end.

Definition handlePauseReading (synth : Synth) (acc : Session) : Session * list Effect :=
  if speaking synth && negb (paused synth)
  then (set_isPaused true acc, [SpeechPause])
  else (acc, []).

Definition handleResumeReading (synth : Synth) (s acc : Session) : Session * list Effect :=
  if paused synth then (set_isPaused false acc, [SpeechResume])
  else if negb (isReading s) then handleStartReading s acc
  else (acc, []).

Definition handleStopReading (acc : Session) : Session * list Effect :=
  (set_highlightedWordIndex None (set_isPaused false (set_isReading false acc)),
   [SpeechCancel]).

(** *** Upload *)

(** What the file input and the parsers give: no file, a file that cannot be
    parsed (the parse throws), or the text of its pages. *)
Inductive FileInput := NoFile | Unreadable | Parsed (pages : list jsstring).

Definition detect_prompt (text : jsstring) : jsstring :=
  lit "Identify the primary language of this text. Return only the language name (e.g. English, French). "
  ++ [10; 10]%N ++ take 500 text.

(** [handleFileUpload]; [currentYear] and [now] are the two clock readings it
    takes.  The language detection it starts is not awaited: its request is
    an effect here and its completion a later event. *)
Definition handleFileUpload (file : FileInput) (currentYear now : nat)
    (s : Session) (stored : Store) : Session * list Effect :=
  match file with
  | NoFile => (s, [])
  | Unreadable => (s, [Alert (lit "Failed to process document.")])
  | Parsed pages =>
      let acc := set_sourcePages pages s in
      let acc := Metrics.calculateMetrics pages acc in
      let acc := set_currentTrackingId (Tracking.generateTrackingId stored currentYear) acc in
      let acc := set_currentLogId (lit "trans-" ++ toString now) acc in
      let sample := match head pages with Some p => p | None => [] end in
      let acc := set_initiateTranslation false acc in
      let acc := set_editedPages [] acc in
      let acc := set_qcStatus Draft acc in
      (acc, [GenerateContent (detect_prompt sample)])
  end.

(** The end of [detectLanguage]: the trimmed answer, or English when the
    answer is empty or the request failed. *)
Definition languageDetected (r : Gateway.Response) (acc : Session) : Session :=
  match r with
  | Gateway.Answer (Some text) =>
      match trim text with
      | [] => set_sourceLanguage (lit "English") acc
      | t => set_sourceLanguage t acc
      end
  | _ => set_sourceLanguage (lit "English") acc
  end.

(** *** Translate *)

(** [handleTranslate], run to completion; [now1] and [now2] are its two
    readings of the clock.  The stored collection is read after the gateway
    has answered. *)
Definition handleTranslate (ai : Gateway.Service) (now1 now2 : nat)
    (s : Session) (stored : Store) : Session * Store * list Effect :=
  match sourcePages s with
  | [] => (s, stored, [])
  | _ =>
      let acc := set_progress (lit "Mapping Intelligence Pipeline...") (set_isLoading true s) in
      let finally acc := set_progress [] (set_isLoading false acc) in
      match Gateway.translateDocument ai (inr (sourcePages s)) (targetLanguage s)
                                      (lit "General") true [] with
      | (Some result, tr) =>
          let pages := match result with inr a => a | inl x => [x] end in
          let acc := set_qcStatus QCPending (set_editedPages pages acc) in
          let log :=
            {| Log.id := currentLogId s;
               Log.trackingId := currentTrackingId s;
               Log.functionalGroup := ClinicalOperations;
               Log.projectNumber := projectNumber s;
               Log.docType := documentType s;
               Log.timestamp := now1;
               Log.sourceLanguage := sourceLanguage s;
               Log.targetLanguage := targetLanguage s;
               Log.wordCount := wordCount s;
               Log.charCount := length (join [] (sourcePages s));
               Log.pageCount := length pages;
               Log.mode := lit "General";
               Log.provider := lit "Gemini-3-Flash";
               Log.status := QCPending;
               Log.qcTimeSpentSeconds := 0%nat;
               Log.workflowTimeCodes := [(lit "START", now2)];
               Log.estimatedCost := estimatedCost s;
               Log.rationales := [];
               Log.mqmErrorScore := None;
               Log.qualityScore := None |} in
          let metrics := match stored with Some m => m | None => [] end in
          (finally acc, Some (metrics ++ [log]), tr)
      | (None, tr) =>
          (finally (set_initiateTranslation false acc), stored,
           tr ++ [Alert (lit "Pipeline Failure")])
      end
  end.

(** The condition of the effect that starts the translation by itself. *)
Definition auto_translate_due (s : Session) : bool :=
  initiateTranslation s && (0 <? length (sourcePages s))%nat && negb (isLoading s)
  && (length (editedPages s) =? 0)%nat.

(** *** Translate, await by await

    [handleTranslate] is suspended at the [await] of every request of
    [translateDocument], and other handlers run meanwhile.  What it holds
    while it is suspended is the state of the render it was created in (its
    closure) and the loop variables of [translateDocument]; the input of the
    loop is the source pages of the closure. *)

(** The record [handleTranslate] adds to the collection; [s] is the state of
    its closure. *)
Definition translation_log (s : Session) (now1 now2 : nat) (pages : list jsstring)
    : TranslationLog :=
  {| Log.id := currentLogId s;
     Log.trackingId := currentTrackingId s;
     Log.functionalGroup := ClinicalOperations;
     Log.projectNumber := projectNumber s;
     Log.docType := documentType s;
     Log.timestamp := now1;
     Log.sourceLanguage := sourceLanguage s;
     Log.targetLanguage := targetLanguage s;
     Log.wordCount := wordCount s;
     Log.charCount := length (join [] (sourcePages s));
     Log.pageCount := length pages;
     Log.mode := lit "General";
     Log.provider := lit "Gemini-3-Flash";
     Log.status := QCPending;
     Log.qcTimeSpentSeconds := 0%nat;
     Log.workflowTimeCodes := [(lit "START", now2)];
     Log.estimatedCost := estimatedCost s;
     Log.rationales := [];
     Log.mqmErrorScore := None;
     Log.qualityScore := None |}.

Record Flight := {
  closure : Session;
  index : nat;
  results : list jsstring
}.

(** One turn of the loop up to its [await]: the progress message, which the
    callback [setProgress] writes to the state, and the request. *)
Definition announce (s0 : Session) (i : nat) (page : jsstring) (acc : Session)
    : Session * list Effect :=
  let msg := Gateway.progress_message i (length (sourcePages s0)) in
  (set_progress msg acc,
   [Progress msg;
    GenerateContent (Gateway.translate_prompt (targetLanguage s0) (lit "General") page)]).

(** [handleTranslate] up to its first [await]; [None] when it returns at
    once. *)
Definition takeoff (s : Session) : option (Flight * Session * list Effect) :=
  match sourcePages s with
  | [] => None
  | page :: _ =>
      let acc := set_progress (lit "Mapping Intelligence Pipeline...") (set_isLoading true s) in
      let '(acc, effects) := announce s 0%nat page acc in
      Some ({| closure := s; index := 0%nat; results := [] |}, acc, effects)
  end.

(** [handleTranslate] from the moment the request it awaits settles with
    [r], up to its next [await] or to its end.  The state [s] and the
    collection [stored] are the ones of that moment; [now1] and [now2] are the
    readings of the clock, taken when the last answer is in.  The last
    component is the flight when it is suspended again. *)
Definition landing (f : Flight) (r : Gateway.Response) (now1 now2 : nat)
    (s : Session) (stored : Store) : Session * Store * list Effect * option Flight :=
  let s0 := closure f in
  let finally acc := set_progress [] (set_isLoading false acc) in
  match r with
  | Gateway.Rejected =>
      (finally (set_initiateTranslation false s), stored,
       [Alert (lit "Pipeline Failure")], None)
  | Gateway.Answer text =>
      let results := results f ++ [Gateway.or_empty text] in
      match sourcePages s0 !! S (index f) with
      | Some page =>
          let '(acc, effects) := announce s0 (S (index f)) page s in
          (acc, stored, effects,
           Some {| closure := s0; index := S (index f); results := results |})
      | None =>
          let acc := set_qcStatus QCPending (set_editedPages results s) in
          let metrics := match stored with Some m => m | None => [] end in
          (finally acc, Some (metrics ++ [translation_log s0 now1 now2 results]), [], None)
      end
  end.

(** *** Interventions *)

Definition strip_punctuation (word : jsstring) : jsstring :=
  List.filter (fun c => negb (existsb (N.eqb c) (lit ".,!?;:"))) word.

Definition alternatives_prompt (word context targetLanguage : jsstring) : jsstring :=
  lit "In the context of this clinical text: " ++ [34%N] ++ context ++ [34%N]
  ++ lit ", what are 4 professional alternatives for the word " ++ [34%N] ++ word
  ++ [34%N] ++ lit " in " ++ targetLanguage
  ++ lit "? Focus on clinical and regulatory accuracy. Return a JSON array of strings.".

(** [handleWordClick(word, index)] up to its first [await]. *)
Definition handleWordClick (word : jsstring) (index : nat) (synth : Synth)
    (s : Session) : Session * list Effect :=
  let '(acc, e1) := handlePauseReading synth s in
  let acc := set_selectedWordData (Some (strip_punctuation word, index)) acc in
  let acc := set_isWordModalOpen true acc in
  let context := match at_index (editedPages s) (currentPage s) with
                 | Some p => p
                 | None => lit "undefined"
                 end in
  (acc, e1 ++ [GenerateContent (alternatives_prompt word context (targetLanguage s))]).

(** The words shown for the current page, each with its index. *)
Definition displayed_words (s : Session) : list jsstring :=
  match at_index (editedPages s) (currentPage s) with
  | Some page => split_ws (trim page)
  | None => []
  end.

(** Lines 309 to 327 of [confirmIntervention]: the read, change and write of
    the persisted collection. *)
Definition persist_intervention (currentLogId : jsstring)
    (rationale : CorrectionRationale) (stored : Store) : Store :=
  match stored with
  | Some metrics =>
      match findIndex (fun m => string_eqb (Log.id m) currentLogId) metrics with
      | Some idx =>
          match metrics !! idx with
          | Some log =>
              let rs := Log.rationales log ++ [rationale] in
              let weights :=
                fold_left (fun acc curr =>
                             match Rationale.mqmSeverity curr with
                             | Minor => acc + 1
                             | Major => acc + 5
                             | _ => acc + 10
                             end)%nat rs 0%nat in
              let log := Log.set_rationales rs log in
              let log := Log.set_mqmErrorScore (Some weights) log in
              let log :=
                Log.set_qualityScore
                  (Some (Num.Math_max 0
                           (Num.Math_round
                              (100 * (1 - Num.of_nat weights / Num.of_nat (Log.wordCount log)))))
                  ) log in
              Some (<[idx := log]> metrics)
          | None => stored
          end
      | None => stored
      end
  | None => None
  end.

(** [confirmIntervention]; [None] is the [TypeError] of reading a page that
    does not exist. *)
Definition confirmIntervention (now : nat) (synth : Synth) (s : Session)
    (stored : Store) : option (Session * Store * list Effect) :=
  match selectedWordData s, selectedAlt s, rationaleText s with
  | None, _, _ | _, [], _ | _, _, [] => Some (s, stored, [])
  | Some (word, index), _, _ =>
      match at_index (editedPages s) (currentPage s) with
      | None => None
      | Some page =>
          let words := split_ws page in
          let words := array_set words index (selectedAlt s) in
          let newPageText := join (lit " ") words in
          let newPages := <[Z.to_nat (currentPage s) := newPageText]> (editedPages s) in
          let acc := set_editedPages newPages s in
          let rationale :=
            {| Rationale.originalText := word;
               Rationale.updatedText := selectedAlt s;
               Rationale.rationale := rationaleText s;
               Rationale.timestamp := now;
               Rationale.pageIndex := currentPage s;
               Rationale.wordIndex := index;
               Rationale.mqmSeverity := mqmSeverity s;
               Rationale.mqmType := mqmType s |} in
          let acc := set_rationales (rationales s ++ [rationale]) acc in
          let stored' := persist_intervention (currentLogId s) rationale stored in
          let acc := set_isWordModalOpen false acc in
          let acc := set_selectedAlt [] acc in
          let acc := set_rationaleText [] acc in
          let '(acc, effects) := handleResumeReading synth s acc in
          Some (acc, stored', effects)
      end
  end.

(** *** Finalize and download *)

(** The Finalize button is rendered under this condition ... *)
Definition finalize_offered (s : Session) : bool :=
  isReviewMode s && negb (status_eqb (qcStatus s) QCFinalized)
  && negb (status_eqb (qcStatus s) Downloaded).

(** ... and this is its [onClick]. *)
Definition finalizeVerification (s : Session) (stored : Store)
    : Session * Store * list Effect :=
  let acc := set_qcStatus QCFinalized s in
  let stored' := updatePersistentStatus (currentLogId s) QCFinalized stored in
  let acc := set_isReviewMode false acc in
  let '(acc, effects) := handleStopReading acc in
  (acc, stored', effects).

(** The two download buttons are rendered under this condition. *)
Definition downloads_offered (s : Session) : bool :=
  status_eqb (qcStatus s) QCFinalized || status_eqb (qcStatus s) Downloaded.

(** [handleDownloadWord]; of the document it builds, the file name and the
    joined pages are kept. *)
Definition handleDownloadWord (s : Session) (stored : Store)
    : Session * Store * list Effect :=
  let content := join [10; 10]%N (editedPages s) in
  (set_qcStatus Downloaded s,
   updatePersistentStatus (currentLogId s) Downloaded stored,
   [SaveWord (currentTrackingId s ++ lit "_Final.doc") content]).

(** [handleDownloadPDF]; [opened] tells whether [window.open] gave a
    window. *)
Definition handleDownloadPDF (opened : bool) (s : Session) (stored : Store)
    : Session * Store * list Effect :=
  if negb opened then (s, stored, [])
  else
    (set_qcStatus Downloaded s,
     updatePersistentStatus (currentLogId s) Downloaded stored,
     [PrintPdf (currentTrackingId s ++ lit " - Final PDF") (join [10; 10]%N (editedPages s))]).

(** The review button is disabled while there is no translation. *)
Definition review_toggle_enabled (s : Session) : bool :=
  negb (length (editedPages s) =? 0)%nat.

End Tool.

(** ** The component as a transition system

    One user or browser event at a time; a handler runs up to its [await]
    and goes on when what it awaits has settled.  A control that is not
    rendered, or is disabled, does nothing.

    The translation is there twice.  [TranslationStart] is the effect that
    starts [handleTranslate], which runs up to its first [await];
    [TranslationAnswer f r] is the settling, with [r], of the request the
    suspended call [f] awaits: the call goes on up to its next [await] or to
    its end.  Any event can come in between.  [TranslationEffect ai] is the
    translation that nothing interrupts: the effect and, with no event in
    between, the answers of [ai] to all its requests (it is the run of
    [TranslationStart] and these answers: [uninterrupted_translation]). *)
Module Ui.
Import State Tool.

Inductive Event :=
| Upload (file : FileInput) (currentYear now : nat)
| LanguageDetected (r : Gateway.Response)
| EditProjectNumber (v : jsstring)
| ChooseDocumentType (v : TranslationDocType)
| ChooseTargetLanguage (v : jsstring)
| ChooseInitiate
| TranslationEffect (ai : Gateway.Service) (now1 now2 : nat)
| PrevPage
| NextPage
| ToggleReview
| VoiceToggle (synth : Synth)
| VoiceStop
| SpeechEnded
| Tick
| ClickWord (i : nat) (synth : Synth)
| ChooseAlternative (alt : jsstring)
| ChooseSeverity (v : MQMSeverity)
| ChooseType (v : MQMType)
| TypeRationale (text : jsstring)
| CloseModal (synth : Synth)
| Confirm (now : nat) (synth : Synth)
| Finalize
| DownloadWord
| DownloadPDF (opened : bool)
| TranslationStart
| TranslationAnswer (f : Flight) (r : Gateway.Response) (now1 now2 : nat).

Definition World := (Session * Store)%type.

Definition pure (r : Session * list Effect) (stored : Store) : World * list Effect :=
  (fst r, stored, snd r).

Definition step (e : Event) (w : World) : World * list Effect :=
  let '(s, stored) := w in
  let stay := (w, []) in
  match e with
  | Upload file currentYear now =>
      pure (handleFileUpload file currentYear now s stored) stored
  | LanguageDetected r => pure (languageDetected r s, []) stored
  | EditProjectNumber v => pure (set_projectNumber v s, []) stored
  | ChooseDocumentType v => pure (set_documentType v s, []) stored
  | ChooseTargetLanguage v => pure (set_targetLanguage v s, []) stored
  | ChooseInitiate => pure (set_initiateTranslation true s, []) stored
  | TranslationEffect ai now1 now2 =>
      if auto_translate_due s then handleTranslate ai now1 now2 s stored else stay
  | PrevPage => pure (set_currentPage (Z.max 0 (currentPage s - 1)) s, []) stored
  | NextPage =>
      pure (set_currentPage
              (Z.min (Z.of_nat (length (sourcePages s)) - 1) (currentPage s + 1)) s, [])
           stored
  | ToggleReview =>
      if review_toggle_enabled s
      then pure (set_isReviewMode (negb (isReviewMode s)) s, []) stored
      else stay
  | VoiceToggle synth =>
      if (length (editedPages s) =? 0)%nat then stay
      else if isReading s && negb (isPaused s)
           then pure (handlePauseReading synth s) stored
           else pure (handleResumeReading synth s s) stored
  | VoiceStop =>
      if (length (editedPages s) =? 0)%nat then stay
      else pure (handleStopReading s) stored
  | SpeechEnded =>
      pure (set_highlightedWordIndex None (set_isPaused false (set_isReading false s)), [])
           stored
  | Tick =>
      if isReviewMode s && status_eqb (qcStatus s) QCPending && negb (isPaused s)
         && negb (isWordModalOpen s)
      then pure (set_qcSeconds (qcSeconds s + 1) s, []) stored
      else stay
  | ClickWord i synth =>
      match displayed_words s !! i with
      | Some word =>
          if isLoading s then stay
          else if isReviewMode s then pure (handleWordClick word i synth s) stored
          else stay
      | None => stay
      end
  | ChooseAlternative alt =>
      if isWordModalOpen s then pure (set_selectedAlt alt s, []) stored else stay
  | ChooseSeverity v =>
      if isWordModalOpen s then pure (set_mqmSeverity v s, []) stored else stay
  | ChooseType v =>
      if isWordModalOpen s then pure (set_mqmType v s, []) stored else stay
  | TypeRationale text =>
      if isWordModalOpen s then pure (set_rationaleText text s, []) stored else stay
  | CloseModal synth =>
      if isWordModalOpen s
      then pure (handleResumeReading synth s (set_isWordModalOpen false s)) stored
      else stay
  | Confirm now synth =>
      if isWordModalOpen s
      then match confirmIntervention now synth s stored with
           | Some r => r
           | None => stay
           end
      else stay
  | Finalize =>
      if finalize_offered s then finalizeVerification s stored else stay
  | DownloadWord =>
      if downloads_offered s then handleDownloadWord s stored else stay
  | DownloadPDF opened =>
      if downloads_offered s then handleDownloadPDF opened s stored else stay
  | TranslationStart =>
      if auto_translate_due s
      then match takeoff s with
           | Some (_, acc, effects) => (acc, stored, effects)
           | None => stay
           end
      else stay
  | TranslationAnswer f r now1 now2 =>
      let '(acc, stored', effects, _) := landing f r now1 now2 s stored in
      (acc, stored', effects)
  end.

(** A run: the events in order, from a given world. *)
Definition run (events : list Event) (w : World) : World :=
  fold_left (fun w e => fst (step e w)) events w.

(** The call of [handleTranslate] that is suspended after the event [e], when
    [p] was suspended before it. *)
Definition pending_after (e : Event) (w : World) (p : option Flight) : option Flight :=
  let '(s, stored) := w in
  match e with
  | TranslationStart =>
      if auto_translate_due s
      then match takeoff s with
           | Some (f, _, _) => Some f
           | None => p
           end
      else p
  | TranslationAnswer f r now1 now2 => snd (landing f r now1 now2 s stored)
  | _ => p
  end.

(** The call that is suspended after the events, when [p] was suspended
    before them. *)
Fixpoint suspended (events : list Event) (w : World) (p : option Flight) : option Flight :=
  match events with
  | [] => p
  | e :: rest => suspended rest (fst (step e w)) (pending_after e w p)
  end.

(** The runs of the program: an answer goes to the call that awaits it.  [p]
    is the call suspended at the start, if any. *)
Fixpoint flights_tracked (events : list Event) (w : World) (p : option Flight) : Prop :=
  match events with
  | [] => True
  | e :: rest =>
      match e with
      | TranslationAnswer f _ _ _ => p = Some f
      | _ => True
      end
      /\ flights_tracked rest (fst (step e w)) (pending_after e w p)
  end.

(** The place of a status in the workflow. *)
Definition rank (q : QcStatus) : nat :=
  match q with
  | Draft => 0
  | QCPending => 1
  | QCFinalized => 2
  | Downloaded => 3
  end.

(** No document is uploaded while review mode is on. *)
Fixpoint uploads_outside_review (events : list Event) (w : World) : bool :=
  match events with
  | [] => true
  | e :: rest =>
      match e with
      | Upload (Parsed _) _ _ => negb (isReviewMode (fst w))
      | _ => true
      end && uploads_outside_review rest (fst (step e w))
  end.

End Ui.

(** ** Recovering JSON from a model answer ([geminiService.ts]) *)
Module Json.
Local Open Scope float_scope.
#[local] Set Warnings "-register-all".

Inductive value :=
| Null
| Bool (b : bool)
| Number (x : float)
| Str (s : jsstring)
| Array (items : list value)
| Object (members : list (jsstring * value)).

(** How an evaluation ends: with a value, or with an exception thrown. *)
Inductive completion (A : Type) :=
| Normal (a : A)
| Thrown.
Arguments Normal {A} a.
Arguments Thrown {A}.

(** [try { return c; } catch (e) {}  rest] *)
Definition try_return {A} (c : completion A) (rest : completion A) : completion A :=
  match c with
  | Normal v => Normal v
  | Thrown => rest
  end.

(** [s.indexOf(c)] and [s.lastIndexOf(c)] for one code unit; [None] is -1. *)
Definition indexOf (s : jsstring) (c : N) : option nat := findIndex (N.eqb c) s.

Definition lastIndexOf (s : jsstring) (c : N) : option nat :=
  match findIndex (N.eqb c) (rev s) with
  | Some j => Some (length s - 1 - j)%nat
  | None => None
  end.

(** [s.substring(a, b)] for [a <= b] *)
Definition substring (s : jsstring) (a b : nat) : jsstring := take (b - a) (drop a s).

(** [s.replace(/^p/g, '')] and [s.replace(/p$/g, '')] for a literal [p] *)
Definition remove_prefix (p s : jsstring) : jsstring :=
  if startsWith s p then drop (length p) s else s.

Definition remove_suffix (p s : jsstring) : jsstring :=
  rev (remove_prefix (rev p) (rev s)).

Definition fence : jsstring := lit "```".
Definition fence_json : jsstring := lit "```json".

(** The text after the three replacements. *)
Definition clean (text : jsstring) : jsstring :=
  remove_suffix fence (remove_prefix fence (remove_prefix fence_json (trim text))).

(** The text from the first [open] to the last [close], when both are there
    and in that order. *)
Definition candidate (cleanText : jsstring) (open close : N) : option jsstring :=
  match indexOf cleanText open, lastIndexOf cleanText close with
  | Some first, Some last =>
      if (first <? last)%nat then Some (substring cleanText first (last + 1)) else None
  | _, _ => None
  end.

Section ExtractJson.

(** [JSON.parse], which belongs to the platform: it gives a value or throws
    a [SyntaxError]. *)
Variable JSON_parse : jsstring -> completion value.

(** [extractJson(text)]; the text may be undefined. *)
Definition extractJson (text : option jsstring) : completion value :=
  match text with
  | None | Some [] => Normal Null
  | Some text =>
      let cleanText := clean text in
      let from_object :=
        let rest := try_return (JSON_parse cleanText) (Normal Null) in
        match candidate cleanText 123 125 with
        | Some objectCandidate => try_return (JSON_parse objectCandidate) rest
        | None => rest
        end in
      match candidate cleanText 91 93 with
      | Some arrayCandidate => try_return (JSON_parse arrayCandidate) from_object
      | None => from_object
      end
  end.

End ExtractJson.

(** *** A reference parser

    [JSON.parse] restricted to texts without escapes in strings and without
    fractions or exponents in numbers; every other text is rejected.  It
    serves as a concrete instance of the platform function. *)

Fixpoint skip_ws (s : jsstring) : jsstring :=
  match s with
  | c :: r => if ((c =? 32) || (c =? 9) || (c =? 10) || (c =? 13))%N then skip_ws r else s
  | [] => []
  end.

Definition is_digit (c : N) : bool := ((48 <=? c) && (c <=? 57))%N.

(** The digits at the front of [s], as a count, and what follows them. *)
Fixpoint read_digits (acc : nat) (s : jsstring) : nat * jsstring :=
  match s with
  | c :: r => if is_digit c then read_digits (10 * acc + N.to_nat (c - 48)) r else (acc, s)
  | [] => (acc, [])
  end.

(** An integer literal: [0], or a non-zero digit followed by digits. *)
Definition read_int (s : jsstring) : option (nat * jsstring) :=
  match s with
  | c :: r =>
      if (c =? 48)%N then
        match r with
        | d :: _ => if is_digit d then None else Some (0%nat, r)
        | [] => Some (0%nat, r)
        end
      else if is_digit c then Some (read_digits 0 s)
      else None
  | [] => None
  end.

(** The characters of a string literal up to its closing quote. *)
Fixpoint read_string (acc : jsstring) (s : jsstring) : option (jsstring * jsstring) :=
  match s with
  | c :: r =>
      if (c =? 34)%N then Some (acc, r)
      else if ((c =? 92) || (c <? 32))%N then None
      else read_string (acc ++ [c]) r
  | [] => None
  end.

Fixpoint parse_value (fuel : nat) (s : jsstring) : option (value * jsstring) :=
  match fuel with
  | 0%nat => None
  | S fuel =>
      match skip_ws s with
      | 110 :: 117 :: 108 :: 108 :: r => Some (Null, r)
      | 116 :: 114 :: 117 :: 101 :: r => Some (Bool true, r)
      | 102 :: 97 :: 108 :: 115 :: 101 :: r => Some (Bool false, r)
      | 34 :: r =>
          match read_string [] r with
          | Some (str, r') => Some (Str str, r')
          | None => None
          end
      | 91 :: r =>
          match skip_ws r with
          | 93 :: r' => Some (Array [], r')
          | _ =>
              match parse_items fuel r [] with
              | Some (items, r') => Some (Array items, r')
              | None => None
              end
          end
      | 123 :: r =>
          match skip_ws r with
          | 125 :: r' => Some (Object [], r')
          | _ =>
              match parse_members fuel r [] with
              | Some (members, r') => Some (Object members, r')
              | None => None
              end
          end
      | 45 :: r =>
          match read_int r with
          | Some (n, r') => Some (Number (- Num.of_nat n), r')
          | None => None
          end
      | r =>
          match read_int r with
          | Some (n, r') => Some (Number (Num.of_nat n), r')
          | None => None
          end
      end%N
  end
with parse_items (fuel : nat) (s : jsstring) (acc : list value)
    : option (list value * jsstring) :=
  match fuel with
  | 0%nat => None
  | S fuel =>
      match parse_value fuel s with
      | Some (v, r) =>
          match skip_ws r with
          | 44 :: r' => parse_items fuel r' (acc ++ [v])
          | 93 :: r' => Some (acc ++ [v], r')
          | _ => None
          end%N
      | None => None
      end
  end
with parse_members (fuel : nat) (s : jsstring) (acc : list (jsstring * value))
    : option (list (jsstring * value) * jsstring) :=
  match fuel with
  | 0%nat => None
  | S fuel =>
      match skip_ws s with
      | 34 :: r =>
          match read_string [] r with
          | Some (key, r1) =>
              match skip_ws r1 with
              | 58 :: r2 =>
                  match parse_value fuel r2 with
                  | Some (v, r3) =>
                      match skip_ws r3 with
                      | 44 :: r4 => parse_members fuel r4 (acc ++ [(key, v)])
                      | 125 :: r4 => Some (acc ++ [(key, v)], r4)
                      | _ => None
                      end
                  | None => None
                  end
              | _ => None
              end
          | None => None
          end
      | _ => None
      end%N
  end.

Definition reference_parse (s : jsstring) : completion value :=
  match parse_value (S (length s)) s with
  | Some (v, r) =>
      match skip_ws r with
      | [] => Normal v
      | _ => Thrown
      end
  | None => Thrown
  end.

End Json.

(** ** The requests of [geminiService.ts] that return JSON *)
Module GeminiService.
Import Gateway Json Tool.

(** The truth value JavaScript gives a parsed value: [null], [false], zero,
    NaN and the empty string are falsy, every array and object is truthy. *)
Definition truthy (v : value) : bool :=
  match v with
  | Null => false
  | Bool b => b
  | Number x => negb (PrimFloat.eqb x 0%float || PrimFloat.is_nan x)
  | Str s => match s with [] => false | _ => true end
  | Array _ | Object _ => true
  end.

(** [v || d] *)
Definition or_else (v d : value) : value := if truthy v then v else d.

Section Requests.

Variable JSON_parse : jsstring -> completion value.

(** [extractJson(response.text)] inside an [async] function: an exception
    would reject the promise. *)
Definition parsed (text : option jsstring) : Async value :=
  fun tr => match extractJson JSON_parse text with
            | Normal v => (Some v, tr)
            | Thrown => (None, tr)
            end.

(** [return extractJson(response.text) || d] after one awaited request. *)
Definition request_or (ai : Service) (prompt : jsstring) (d : value) : Async value :=
  response <- generateContent ai prompt ;;
  v <- parsed response ;;
  ret (or_else v d).

(** [return extractJson(response.text)] after one awaited request. *)
Definition request_raw (ai : Service) (prompt : jsstring) : Async value :=
  response <- generateContent ai prompt ;;
  parsed response.

Definition getAlternateSuggestions (ai : Service) (word context targetLanguage : jsstring)
    : Async value :=
  request_or ai (alternatives_prompt word context targetLanguage) (Array []).

Definition getRegulatoryNews (ai : Service) : Async value :=
  request_or ai (lit "Find critical regulatory updates from FDA, EMA, MHRA in the last 7 days.")
             (Array []).

Definition getArchivedRegulatoryNews (ai : Service) : Async value :=
  request_or ai
    (lit "Find historical regulatory updates from FDA, EMA, MHRA in the last 6 months.")
    (Array []).

(** [analyzeRegulation(item)]; [title] and [content] are the two fields of
    the item it reads. *)
Definition analyzeRegulation (ai : Service) (title content : jsstring) : Async value :=
  request_raw ai (lit "Analyze: " ++ title ++ [10%N] ++ content).

Definition syncIntelligence (ai : Service) (existingTitles : list jsstring) : Async value :=
  request_or ai
    (lit "Identify new pharmaceutical or clinical research regulations from primary agencies (FDA, EMA, PMDA) that are not in this existing collection: "
     ++ join (lit ", ") existingTitles
     ++ lit ". Return as a JSON array of RegulationEntry objects.")
    (Array []).

Definition categorizeNewEntry (ai : Service) (text : jsstring) : Async value :=
  request_or ai
    (lit "Given the following regulatory text, extract the title, agency, region, country, date, category, summary, impact level, and status. Return as JSON."
     ++ [10; 10]%N ++ lit "Text: " ++ text)
    (Object []).

Definition getTMFChecklist (ai : Service) (country : jsstring) : Async value :=
  request_or ai (lit "TMF checklist for " ++ country) (Array []).

Definition synthesizeMonitoringReport (ai : Service) (visitType notes : jsstring)
    : Async value :=
  request_raw ai (lit "Synthesize " ++ visitType ++ lit " report from notes: " ++ notes).

Definition generateGapAnalysis (ai : Service) (sop reg : jsstring) : Async value :=
  request_raw ai (lit "Gap analysis between SOP and Reg: " ++ sop ++ lit " vs " ++ reg).

End Requests.

End GeminiService.

(** ** The translation figures of the dashboard ([CompetencyDashboard.tsx]) *)
Module Dashboard.
Import Tool.

Record Stats := {
  totalWords : nat;
  finalized : nat;
  avgYield : float;
  totalErrors : nat
}.

(** The logs the component loads when it mounts. *)
Definition loaded (stored : Store) : list TranslationLog :=
  match stored with
  | Some logs => logs
  | None => []
  end.

(** [l.qualityScore || 0] *)
Definition score_or_zero (l : TranslationLog) : float :=
  match Log.qualityScore l with
  | Some x => if PrimFloat.eqb x 0%float || PrimFloat.is_nan x then 0%float else x
  | None => 0%float
  end.

Definition is_finalized (l : TranslationLog) : bool :=
  status_eqb (Log.status l) QCFinalized || status_eqb (Log.status l) Downloaded.

(** The memo [stats]. *)
Definition stats (logs : list TranslationLog) : Stats :=
  {| totalWords := fold_left (fun acc l => acc + Log.wordCount l) logs 0;
     finalized := length (List.filter is_finalized logs);
     avgYield :=
       if 0 <? length logs
       then PrimFloat.div (fold_left (fun acc l => PrimFloat.add acc (score_or_zero l)) logs 0%float)
                          (Num.of_nat (length logs))
       else 0%float;
     totalErrors := fold_left (fun acc l => acc + length (Log.rationales l)) logs 0 |}.

End Dashboard.

(** ** The regulatory database ([MonitoringReportGenerator.tsx]) *)
Module RegDb.

Section Entries.

(** A [RegulationEntry], of which only the optional tracking identifier is
    read here. *)
Variable Entry : Type.
Variable trackingId : Entry -> option jsstring.

(** [generateRegTrackingId(existingData)], with the current year as an
    argument. *)
Definition generateRegTrackingId (existingData : list Entry) (currentYear : nat)
    : jsstring :=
  let yearData :=
    List.filter (fun d => match trackingId d with
                          | Some t => startsWith t (lit "REG-" ++ toString currentYear)
                          | None => false
                          end) existingData in
  let nextNum := length yearData + 1 in
  lit "REG-" ++ toString currentYear ++ lit "-" ++ padStart (toString nextNum) 3 (lit "0").

End Entries.

(** [handleToggle(option)] of the multi-select: the selection it passes to
    [onChange]. *)
Definition handleToggle (selected : list jsstring) (option : jsstring) : list jsstring :=
  if existsb (fun item => string_eqb item option) selected
  then List.filter (fun item => negb (string_eqb item option)) selected
  else selected ++ [option].

End RegDb.

(** ** The activity feed ([AgenticMonitoring.tsx]) *)
Module Agent.

(** The state update of the interval callback:
    [prev => [newLog, ...prev].slice(0, 50)]. *)
Definition push (newLog : jsstring) (prev : list jsstring) : list jsstring :=
  take 50 (newLog :: prev).

(** The feed after the lines [entries] arrived in this order. *)
Definition feed (entries : list jsstring) (start : list jsstring) : list jsstring :=
  fold_left (fun prev newLog => push newLog prev) entries start.

End Agent.

(** ** The voice highlight ([handleStartReading], the boundary callback) *)
Module Voice.
Import State.

(** The word index the [onboundary] callback computes for a boundary at
    [charIndex] of the text being read. *)
Definition boundary_word_index (text : jsstring) (charIndex : nat) : nat :=
  let precedingText := take charIndex text in
  match trim precedingText with
  | [] => 0
  | t => length (split_ws t)
  end.

(** [utterance.onboundary]; [is_word_event] is [event.name === 'word']. *)
Definition onboundary (text : jsstring) (is_word_event : bool) (charIndex : nat)
    (acc : Session) : Session :=
  if is_word_event
  then set_highlightedWordIndex (Some (boundary_word_index text charIndex)) acc
  else acc.

End Voice.

(** ** Concrete data for worked cases *)
Module Sample.

(** A stored log as [handleTranslate] writes it. *)
Definition log (id trackingId : jsstring) (words : nat) : TranslationLog :=
  {| Log.id := id;
     Log.trackingId := trackingId;
     Log.functionalGroup := ClinicalOperations;
     Log.projectNumber := lit "AZ-PH1-2025";
     Log.docType := EssentialDocuments;
     Log.timestamp := 3000;
     Log.sourceLanguage := lit "English";
     Log.targetLanguage := lit "Spanish";
     Log.wordCount := words;
     Log.charCount := 0;
     Log.pageCount := 1;
     Log.mode := lit "General";
     Log.provider := lit "Gemini-3-Flash";
     Log.status := QCPending;
     Log.qcTimeSpentSeconds := 0;
     Log.workflowTimeCodes := [(lit "START", 3000)];
     Log.estimatedCost := 0%float;
     Log.rationales := [];
     Log.mqmErrorScore := None;
     Log.qualityScore := None |}.

(** Three stored logs, two of them of 2025. *)
Definition three_logs : Store :=
  Some [ log (lit "trans-1") (lit "2025-001") 1000;
         log (lit "trans-2") (lit "2024-007") 200;
         log (lit "trans-3") (lit "2025-002") 40 ].

(** A session under review: its log is the first of the collection, holds
    one Minor intervention, and a Major one is about to be confirmed on the
    second word of the page. *)
Definition minor_rationale : CorrectionRationale :=
  {| Rationale.originalText := lit "dosis";
     Rationale.updatedText := lit "posologia";
     Rationale.rationale := lit "label wording";
     Rationale.timestamp := 4000;
     Rationale.pageIndex := 0%Z;
     Rationale.wordIndex := 3;
     Rationale.mqmSeverity := Minor;
     Rationale.mqmType := Terminology |}.

Definition reviewed_logs : list TranslationLog :=
  [ Log.set_rationales [minor_rationale] (log (lit "trans-1") (lit "2025-001") 1000);
    log (lit "trans-2") (lit "2024-007") 200 ].



Definition review_session : Session :=
  State.set_rationaleText (lit "regulatory term")
    (State.set_selectedAlt (lit "protocolo")
       (State.set_selectedWordData (Some (lit "plan", 1))
          (State.set_mqmSeverity Major
             (State.set_isWordModalOpen true
                (State.set_isReviewMode true
                   (State.set_qcStatus QCPending
                      (State.set_editedPages [lit "el plan  clinico "]
                         (State.set_currentLogId (lit "trans-1") Tool.initial)))))))).

Definition silent : Synth := {| speaking := false; paused := false |}.

(** A service that answers every prompt with the prompt itself. *)
Definition echo : Gateway.Service := fun _ prompt => Gateway.Answer (Some prompt).

(** A service that rejects its second request. *)
Definition fails_second : Gateway.Service :=
  fun sent prompt =>
    match sent with
    | [_] => Gateway.Rejected
    | _ => Gateway.Answer (Some prompt)
    end.

(** A service that translates the two pages of the session below, whatever
    was sent before, and answers without text to any other request. *)
Definition glossary : Gateway.Service :=
  fun _ prompt =>
    if string_eqb prompt
         (Gateway.translate_prompt (State.targetLanguage Tool.initial) (lit "General")
            (lit "first page"))
    then Gateway.Answer (Some (lit "primera pagina"))
    else if string_eqb prompt
              (Gateway.translate_prompt (State.targetLanguage Tool.initial) (lit "General")
                 (lit "second page"))
    then Gateway.Answer (Some (lit "segunda pagina"))
    else Gateway.Answer None.

Definition two_pages : Session :=
  State.set_initiateTranslation true
    (State.set_currentLogId (lit "trans-9")
       (State.set_sourcePages [lit "first page"; lit "second page"] Tool.initial)).

End Sample.

(** A first session up to the review, and the upload of a second document. *)
Module SampleRun.

Definition first_session : list Ui.Event :=
  [ Ui.Upload (Tool.Parsed [lit "hello world"]) 2025 1000;
    Ui.ChooseInitiate;
    Ui.TranslationEffect Sample.echo 2000 2001;
    Ui.ToggleReview ].

Definition second_upload : Ui.Event :=
  Ui.Upload (Tool.Parsed [lit "second document"]) 2025 3000.

(** The session whose translation is started, and the suspended call. *)
Definition started : Session :=
  fst (Ui.run [ Ui.Upload (Tool.Parsed [lit "hello world"]) 2025 1000; Ui.ChooseInitiate ]
              (Tool.initial, None)).

Definition call : Tool.Flight :=
  {| Tool.closure := started; Tool.index := 0; Tool.results := [] |}.

(** A second document is uploaded while the translation of the first
    awaits the gateway; then the answer comes and the review is entered. *)
Definition interrupted : list Ui.Event :=
  [ Ui.Upload (Tool.Parsed [lit "hello world"]) 2025 1000;
    Ui.ChooseInitiate;
    Ui.TranslationStart;
    second_upload;
    Ui.TranslationAnswer call (Gateway.Answer (Some (lit "hola mundo"))) 2000 2001;
    Ui.ToggleReview ].

(** The first session with two interventions made in the review, a Minor
    and a Major one, and then finalized. *)
Definition corrected : list Ui.Event :=
  first_session
  ++ [ Ui.ClickWord 1 Sample.silent; Ui.ChooseAlternative (lit "el");
       Ui.TypeRationale (lit "article"); Ui.Confirm 4000 Sample.silent;
       Ui.ClickWord 2 Sample.silent; Ui.ChooseAlternative (lit "texto");
       Ui.ChooseSeverity Major; Ui.TypeRationale (lit "term");
       Ui.Confirm 4500 Sample.silent; Ui.Finalize ].

End SampleRun.

(** * Properties *)

Import State Tool.

(** ** Tracking identifiers *)
Section TrackingFacts.

(** The stored logs of a given year: those whose tracking identifier starts
    with the decimal digits of the year. *)
Definition logs_of_year (stored : Store) (year : nat) : list TranslationLog :=
  List.filter (fun l => startsWith (Log.trackingId l) (toString year))
              (default [] stored).

Lemma pad_filler_single (c : N) (n : nat) :
  pad_filler [c] [c] n = repeat c n /\ pad_filler [c] [] n = repeat c n.
Proof.
  induction n as [|n [IH1 IH2]]; [now split|].
  cbn [pad_filler repeat]. rewrite IH2. now split.
Qed.

(** Padding with one character puts copies of it in front, up to the target
    length, and never cuts. *)
Lemma padStart_single (s : jsstring) (target : nat) (c : N) :
  padStart s target [c] = repeat c (target - length s) ++ s.
Proof.
  unfold padStart. destruct (Nat.leb_spec target (length s)) as [Hle|Hlt].
  - replace (target - length s) with 0 by lia. reflexivity.
  - now rewrite (proj1 (pad_filler_single c _)).
Qed.

Lemma padStart_length (s : jsstring) (target : nat) (c : N) :
  length (padStart s target [c]) = Nat.max target (length s).
Proof.
  rewrite padStart_single, length_app, repeat_length. lia.
Qed.

End TrackingFacts.

(** C3.  For every persisted collection and every current year,
    [generateTrackingId] returns the year, a dash, and the sequence number
    (the number of stored logs whose tracking identifier starts with the
    year, plus one) in decimal, with zeros in front up to three digits.  So
    with no stored log of 2025 the identifier is 2025-001, and with two it is
    2025-003. *)
Theorem generateTrackingId_format (stored : Store) (year : nat) :
  let seq := toString (length (logs_of_year stored year) + 1) in
  Tracking.generateTrackingId stored year
    = toString year ++ lit "-" ++ repeat 48%N (3 - length seq) ++ seq
  /\ length (repeat 48%N (3 - length seq) ++ seq) = Nat.max 3 (length seq)
  /\ (year = 2025 -> length (logs_of_year stored year) = 0 ->
      Tracking.generateTrackingId stored year = lit "2025-001")
  /\ (year = 2025 -> length (logs_of_year stored year) = 2 ->
      Tracking.generateTrackingId stored year = lit "2025-003").
Proof.
  intros seq.
  assert (Hfmt : Tracking.generateTrackingId stored year
                 = toString year ++ lit "-" ++ repeat 48%N (3 - length seq) ++ seq).
  { unfold Tracking.generateTrackingId, seq, logs_of_year.
    destruct stored as [logs|]; cbn [default];
      change (lit "0") with [48%N]; now rewrite padStart_single. }
  split; [exact Hfmt|]. split.
  - rewrite length_app, repeat_length. lia.
  - split; intros -> Hn; rewrite Hfmt; unfold seq; rewrite Hn; reflexivity.
Qed.

(** ** Metrics *)
Section MetricsFacts.

(** The words of a text, counted without splitting it: a word starts at
    every code unit that is not white space and that comes first or after
    white space. *)
Fixpoint word_starts (after_ws : bool) (text : jsstring) : nat :=
  match text with
  | [] => 0
  | c :: rest =>
      if is_ws c then word_starts true rest
      else (if after_ws then 1 else 0) + word_starts false rest
  end.

Definition nonempty (w : jsstring) : bool := 0 <? length w.

Lemma nonempty_app_r (cur : jsstring) (c : N) : nonempty (cur ++ [c]) = true.
Proof. unfold nonempty. apply Nat.ltb_lt. rewrite length_app. cbn. lia. Qed.

(** While the splitter is inside a separator its current piece is empty. *)
Lemma split_go_counts (s : jsstring) :
  forall (in_sep : bool) (cur : jsstring),
    (in_sep = true -> cur = []) ->
    length (List.filter nonempty (split_go in_sep cur s))
    = word_starts (negb (nonempty cur)) s + (if nonempty cur then 1 else 0).
Proof.
  induction s as [|c s IH]; intros in_sep cur Hsep; cbn [split_go word_starts].
  - cbn [List.filter]. destruct (nonempty cur); reflexivity.
  - destruct (is_ws c).
    + destruct in_sep.
      * rewrite (Hsep eq_refl). rewrite IH by reflexivity. reflexivity.
      * cbn [List.filter]. destruct (nonempty cur) eqn:Hc; cbn [length negb];
          rewrite IH by reflexivity; cbn; lia.
    + rewrite IH by discriminate. rewrite nonempty_app_r. cbn [negb].
      destruct (nonempty cur); cbn; lia.
Qed.

Lemma split_ws_counts (text : jsstring) :
  length (List.filter nonempty (split_ws text)) = word_starts true text.
Proof.
  unfold split_ws. rewrite split_go_counts by discriminate. cbn. lia.
Qed.

(** [f] holds at the [n] integers from [start] on. *)
Fixpoint all_from (f : Z -> bool) (n : nat) (start : Z) : bool :=
  match n with
  | 0 => true
  | S n' => f start && all_from f n' (start + 1)%Z
  end.

Lemma all_from_spec (f : Z -> bool) (n : nat) :
  forall start, all_from f n start = true ->
  forall z, (start <= z < start + Z.of_nat n)%Z -> f z = true.
Proof.
  induction n as [|n IH]; intros start H z Hz; [lia|].
  cbn [all_from] in H. apply andb_true_iff in H as [H0 H1].
  destruct (Z.eq_dec z start) as [->|Hne]; [exact H0|].
  apply (IH (start + 1)%Z H1). lia.
Qed.

(** The token estimate is the exact one: on counts up to 100,000 the
    binary64 product, rounded by [Math.round], is the integer nearest to
    1.35 times the count (the upper one at a tie). *)
Definition token_estimate_exact_at (w : Z) : bool :=
  PrimFloat.Leibniz.eqb
    (Num.Math_round (PrimFloat.mul (of_uint63 (Uint63.of_Z w)) Metrics.TOKEN_FACTOR))
    (of_uint63 (Uint63.of_Z ((27 * w + 10) / 20))).

Lemma token_estimate_exact (w : nat) :
  (Z.of_nat w <= 100000)%Z ->
  Num.Math_round (PrimFloat.mul (Num.of_nat w) Metrics.TOKEN_FACTOR)
  = Num.of_nat ((27 * w + 10) / 20).
Proof.
  intros Hw.
  assert (Hall : all_from token_estimate_exact_at (Z.to_nat 100001) 0 = true)
    by (vm_compute; reflexivity).
  pose proof (all_from_spec _ _ _ Hall (Z.of_nat w)) as H.
  rewrite Z2Nat.id in H by lia. specialize (H ltac:(lia)).
  unfold token_estimate_exact_at in H. apply Leibniz.eqb_spec in H.
  unfold Num.of_nat. rewrite H. do 2 f_equal.
  rewrite Nat2Z.inj_div, Nat2Z.inj_add, Nat2Z.inj_mul. reflexivity.
Qed.

End MetricsFacts.

#[local] Set Warnings "-inexact-float".

(** C4.  For every sequence of page texts, [calculateMetrics] sets the word
    count to the number of words of the pages joined by a blank (the
    non-empty pieces between runs of white space), the token count to
    [Math.round] of the word count times 1.35, and the estimated cost to the
    token count divided by 1,000,000 and multiplied by 0.75; the arithmetic
    is the binary64 arithmetic of the source, and up to 100,000 words the
    token count is exactly the integer nearest to 1.35 times the word count.
    It changes nothing else in the state, and the result depends on the
    pages only. *)
Theorem calculateMetrics_spec (pages : list jsstring) (acc : Session) :
  let s' := Metrics.calculateMetrics pages acc in
  wordCount s' = word_starts true (join (lit " ") pages)
  /\ tokenCount s'
     = Num.Math_round (PrimFloat.mul (Num.of_nat (wordCount s')) 1.35%float)
  /\ estimatedCost s'
     = PrimFloat.mul (PrimFloat.div (tokenCount s') 1000000%float) 0.75%float
  /\ ((Z.of_nat (wordCount s') <= 100000)%Z ->
      tokenCount s' = Num.of_nat ((27 * wordCount s' + 10) / 20))
  /\ s' = set_estimatedCost (estimatedCost s')
            (set_tokenCount (tokenCount s') (set_wordCount (wordCount s') acc))
  /\ forall acc', wordCount (Metrics.calculateMetrics pages acc') = wordCount s'
                  /\ tokenCount (Metrics.calculateMetrics pages acc') = tokenCount s'
                  /\ estimatedCost (Metrics.calculateMetrics pages acc') = estimatedCost s'.
Proof.
  cbn zeta. unfold Metrics.calculateMetrics, Metrics.metrics_of.
  cbn [wordCount tokenCount estimatedCost set_estimatedCost set_tokenCount set_wordCount].
  rewrite <- split_ws_counts.
  split; [reflexivity|]. split; [reflexivity|]. split; [reflexivity|].
  split; [apply token_estimate_exact|]. split; [reflexivity|].
  intros acc'. repeat split; reflexivity.
Qed.

(** ** Splitting and joining *)
Section SplitFacts.

(** A text without white space, and a word: a non-empty one. *)
Definition wsfree (t : jsstring) : Prop := Forall (fun c => is_ws c = false) t.
Definition blank (t : jsstring) : Prop := Forall (fun c => is_ws c = true) t.
Definition is_word (t : jsstring) : Prop := t <> [] /\ wsfree t.

Definition starts_with_ws (s : jsstring) : bool :=
  match s with
  | c :: _ => is_ws c
  | [] => false
  end.

Definition ends_with_ws (s : jsstring) : bool := starts_with_ws (rev s).

Lemma split_go_wsfree (t : jsstring) :
  forall cur s, wsfree t -> split_go false cur (t ++ s) = split_go false (cur ++ t) s.
Proof.
  induction t as [|c t IH]; intros cur s Ht.
  - now rewrite app_nil_r.
  - inversion Ht as [|? ? Hc Ht']; subst. cbn [app split_go]. rewrite Hc.
    rewrite IH by assumption. now rewrite <- app_assoc.
Qed.

Lemma split_go_word (t : jsstring) (b : bool) (cur s : jsstring) :
  is_word t -> split_go b cur (t ++ s) = split_go false (cur ++ t) s.
Proof.
  intros [Hne Ht]. destruct t as [|c t]; [congruence|].
  inversion Ht as [|? ? Hc Ht']; subst. cbn [app split_go]. rewrite Hc.
  rewrite split_go_wsfree by assumption. now rewrite <- app_assoc.
Qed.

Lemma split_go_blank (w : jsstring) :
  blank w -> split_go true [] w = [[]].
Proof.
  induction 1 as [|c w Hc _ IH]; [reflexivity|]. cbn [split_go]. now rewrite Hc.
Qed.

Lemma join_cons (sep x : jsstring) (rest : list jsstring) :
  rest <> [] -> join sep (x :: rest) = x ++ sep ++ join sep rest.
Proof. destruct rest; [congruence|reflexivity]. Qed.

Lemma join_snoc_empty (sep : jsstring) (l : list jsstring) :
  l <> [] -> join sep (l ++ [[]]) = join sep l ++ sep.
Proof.
  induction l as [|x l IH]; [congruence|]. intros _.
  destruct l as [|y l].
  - cbn. now rewrite app_nil_r.
  - change ((x :: y :: l) ++ [[]]) with (x :: ((y :: l) ++ [[]])).
    rewrite join_cons by (destruct l; discriminate).
    rewrite IH by discriminate. rewrite (join_cons sep x (y :: l)) by discriminate.
    now rewrite <- !app_assoc.
Qed.

(** Splitting what was joined by single blanks gives the pieces back, when
    all of them are words except possibly the last, which may be empty. *)
Lemma split_join (ts : list jsstring) :
  forall (tl : jsstring) (b : bool),
    Forall is_word ts -> wsfree tl ->
    split_go b [] (join (lit " ") (ts ++ [tl])) = ts ++ [tl].
Proof.
  induction ts as [|t ts IH]; intros tl b Hts Htl.
  - cbn [app join]. destruct tl as [|c tl]; [reflexivity|].
    rewrite <- (app_nil_r (c :: tl)) at 1.
    rewrite split_go_word by (split; [discriminate|assumption]).
    reflexivity.
  - inversion Hts as [|? ? Ht Hts']; subst.
    change ((t :: ts) ++ [tl]) with (t :: (ts ++ [tl])).
    rewrite join_cons by (destruct ts; discriminate).
    rewrite split_go_word by assumption.
    change (lit " ") with [32%N]. cbn [app split_go].
    change (is_ws 32) with true. cbv iota.
    now rewrite IH.
Qed.

Lemma split_join_words (ts : list jsstring) :
  ts <> [] -> Forall is_word ts -> split_ws (join (lit " ") ts) = ts.
Proof.
  intros Hne Hts. destruct (exists_last Hne) as (ts0 & tl & ->).
  apply Forall_app in Hts as [H0 Hl]. inversion Hl as [|? ? [_ Htl] _]; subst.
  now apply split_join.
Qed.

(** Every piece of a split is a word when the text ends in a word and the
    first piece cannot be empty. *)
Lemma split_go_words (s : jsstring) :
  forall (b : bool) (cur : jsstring),
    wsfree cur -> (b = true -> cur = []) ->
    s <> [] -> ends_with_ws s = false ->
    (b = false -> cur = [] -> starts_with_ws s = false) ->
    Forall is_word (split_go b cur s).
Proof.
  induction s as [|c s IH]; intros b cur Hcur Hb Hne Hend Hfirst; [congruence|].
  assert (Hends : s <> [] -> ends_with_ws s = false).
  { intros Hs. unfold ends_with_ws in *. cbn [rev] in Hend.
    destruct (rev s) as [|d r] eqn:Hr; [|exact Hend].
    apply (f_equal (@rev _)) in Hr. rewrite rev_involutive in Hr. contradiction. }
  cbn [split_go]. destruct (is_ws c) eqn:Hc.
  - assert (Hs : s <> []).
    { intros ->. unfold ends_with_ws in Hend. cbn in Hend. congruence. }
    destruct b.
    + apply IH; auto. discriminate.
    + constructor.
      * split; [|assumption]. intros ->. specialize (Hfirst eq_refl eq_refl).
        cbn in Hfirst. congruence.
      * apply IH; auto. constructor. discriminate.
  - assert (Hcur' : wsfree (cur ++ [c])).
    { apply Forall_app. split; [assumption|]. now constructor. }
    destruct s as [|d s].
    + cbn. constructor; [|constructor]. split; [|assumption].
      intros H. now apply app_eq_nil in H as [_ ?].
    + apply IH; auto; try discriminate.
      intros _ H. now apply app_eq_nil in H as [_ ?].
Qed.

(** White space after a text that ends in a word adds one empty piece. *)
Lemma split_go_trailing (t : jsstring) :
  forall (b : bool) (cur w : jsstring),
    t <> [] -> ends_with_ws t = false -> blank w -> w <> [] ->
    split_go b cur (t ++ w) = split_go b cur t ++ [[]].
Proof.
  induction t as [|c t IH]; intros b cur w Hne Hend Hw Hwne; [congruence|].
  destruct t as [|d t].
  - unfold ends_with_ws in Hend. cbn in Hend. cbn [app split_go]. rewrite Hend.
    destruct w as [|e w]; [congruence|]. inversion Hw as [|? ? He Hw']; subst.
    cbn [split_go]. rewrite He. now rewrite split_go_blank.
  - assert (Hend' : ends_with_ws (d :: t) = false).
    { unfold ends_with_ws in *. cbn [rev] in *.
      destruct (rev t ++ [d]) as [|x r] eqn:Hr; [|exact Hend].
      now apply app_eq_nil in Hr as [_ ?]. }
    change ((c :: d :: t) ++ w) with (c :: ((d :: t) ++ w)).
    cbn [split_go]. destruct (is_ws c); [destruct b|];
      rewrite IH by (auto; discriminate); reflexivity.
Qed.

Lemma trimStart_id (s : jsstring) : starts_with_ws s = false -> trimStart s = s.
Proof. destruct s as [|c s]; [reflexivity|]. cbn. now intros ->. Qed.

Lemma trimStart_split (s : jsstring) :
  exists w, s = w ++ trimStart s /\ blank w /\ starts_with_ws (trimStart s) = false.
Proof.
  induction s as [|c s (w & Hs & Hw & Hh)].
  - exists []. repeat split. constructor.
  - cbn [trimStart]. destruct (is_ws c) eqn:Hc.
    + exists (c :: w). split; [cbn; congruence|]. split; [now constructor|assumption].
    + exists []. split; [reflexivity|]. split; [constructor|exact Hc].
Qed.

Lemma trimEnd_split (s : jsstring) :
  exists w, s = trimEnd s ++ w /\ blank w /\ ends_with_ws (trimEnd s) = false.
Proof.
  destruct (trimStart_split (rev s)) as (w & Hs & Hw & Hh).
  exists (rev w). unfold trimEnd, ends_with_ws. rewrite rev_involutive.
  split; [|split; [|assumption]].
  - rewrite <- rev_app_distr, <- Hs. now rewrite rev_involutive.
  - unfold blank. apply Forall_rev. exact Hw.
Qed.

Lemma trimEnd_id (s : jsstring) : ends_with_ws s = false -> trimEnd s = s.
Proof.
  intros H. unfold trimEnd. rewrite trimStart_id by exact H. apply rev_involutive.
Qed.

Lemma trimStart_blank (w s : jsstring) : blank w -> trimStart (w ++ s) = trimStart s.
Proof. induction 1 as [|c w Hc _ IH]; [reflexivity|]. cbn. now rewrite Hc. Qed.

Lemma trimEnd_blank (s w : jsstring) : blank w -> trimEnd (s ++ w) = trimEnd s.
Proof.
  intros Hw. unfold trimEnd. rewrite rev_app_distr.
  rewrite trimStart_blank; [reflexivity|]. unfold blank. now apply Forall_rev.
Qed.

End SplitFacts.

Section FrameFacts.

Lemma ends_with_ws_app (a b : jsstring) :
  b <> [] -> ends_with_ws (a ++ b) = ends_with_ws b.
Proof.
  intros Hb. unfold ends_with_ws. rewrite rev_app_distr.
  destruct (rev b) as [|c r] eqn:Hr; [|reflexivity].
  apply (f_equal (@rev _)) in Hr. rewrite rev_involutive in Hr. contradiction.
Qed.

Lemma word_starts_clean (t : jsstring) : is_word t -> starts_with_ws t = false.
Proof. intros [Hne Ht]. destruct t; [congruence|]. now inversion Ht. Qed.

Lemma word_ends_clean (t : jsstring) : is_word t -> ends_with_ws t = false.
Proof.
  intros [Hne Ht]. unfold ends_with_ws.
  assert (Hr : wsfree (rev t)) by now apply Forall_rev.
  destruct (rev t); [reflexivity|]. now inversion Hr.
Qed.

Lemma join_words_nonempty (ts : list jsstring) :
  ts <> [] -> Forall is_word ts -> join (lit " ") ts <> [].
Proof.
  intros Hne Hts. destruct ts as [|t ts]; [congruence|].
  inversion Hts as [|? ? [Ht _] _]; subst.
  destruct ts; cbn; [assumption|]. destruct t; [congruence|discriminate].
Qed.

Lemma join_words_start (ts : list jsstring) :
  ts <> [] -> Forall is_word ts -> starts_with_ws (join (lit " ") ts) = false.
Proof.
  intros Hne Hts. destruct ts as [|t ts]; [congruence|].
  inversion Hts as [|? ? Ht _]; subst. pose proof (word_starts_clean _ Ht) as H.
  destruct ts; [exact H|]. cbn [join]. destruct t; [destruct Ht; congruence|exact H].
Qed.

Lemma join_words_end (ts : list jsstring) :
  ts <> [] -> Forall is_word ts -> ends_with_ws (join (lit " ") ts) = false.
Proof.
  induction ts as [|t ts IH]; [congruence|]. intros _ Hts.
  inversion Hts as [|? ? Ht Hts']; subst.
  destruct ts as [|u ts]; [now apply word_ends_clean|].
  rewrite join_cons by discriminate. rewrite app_assoc.
  rewrite ends_with_ws_app; [apply IH; [discriminate|assumption]|].
  now apply join_words_nonempty.
Qed.

(** The pieces of a page that does not start with white space: the
    displayed words, and one more empty piece when the page ends with white
    space. *)
Lemma split_page (page : jsstring) :
  starts_with_ws page = false ->
  exists tail,
    split_ws page = split_ws (trim page) ++ tail
    /\ (tail = [] \/ tail = [[]])
    /\ (page <> [] -> Forall is_word (split_ws (trim page)))
    /\ (page = [] -> split_ws (trim page) = [[]] /\ tail = []).
Proof.
  intros Hstart. destruct page as [|c p].
  { exists []. cbn. repeat split; auto. congruence. }
  remember (c :: p) as page eqn:Hp.
  unfold trim. rewrite trimStart_id by assumption.
  destruct (trimEnd_split page) as (w & Hpage & Hw & Hend).
  set (t := trimEnd page) in *.
  assert (Ht : t <> []).
  { intros Ht. rewrite Ht in Hpage. cbn in Hpage. subst w.
    rewrite Hp in Hw, Hstart. cbn in Hstart. inversion Hw; congruence. }
  assert (Hts : starts_with_ws t = false).
  { destruct t as [|d t']; [congruence|]. rewrite Hpage in Hstart. exact Hstart. }
  assert (Hwords : Forall is_word (split_ws t)).
  { apply split_go_words; auto; try constructor; discriminate. }
  destruct w as [|e w].
  - exists []. rewrite app_nil_r in Hpage. rewrite <- Hpage.
    rewrite app_nil_r. repeat split; auto. all: intros; subst; congruence.
  - exists [[]]. split.
    + rewrite Hpage at 1. unfold split_ws. now apply split_go_trailing.
    + repeat split; auto. all: intros; subst; congruence.
Qed.

(** The displayed words after the word at [index] of the page was replaced
    and the pieces were joined again. *)
Lemma replace_word (page alt : jsstring) (index : nat) :
  starts_with_ws page = false -> is_word alt ->
  index < length (split_ws (trim page)) ->
  array_set (split_ws page) index alt = <[index := alt]> (split_ws page)
  /\ split_ws (trim (join (lit " ") (array_set (split_ws page) index alt)))
     = <[index := alt]> (split_ws (trim page))
  /\ split_ws (join (lit " ") (array_set (split_ws page) index alt))
     = <[index := alt]> (split_ws page).
Proof.
  intros Hstart Halt Hidx.
  destruct (split_page page Hstart) as (tail & Hsplit & Htail & Hwords & Hempty).
  assert (Hset : array_set (split_ws page) index alt = <[index := alt]> (split_ws page)).
  { unfold array_set. rewrite Hsplit, length_app.
    destruct (Nat.ltb_spec index (length (split_ws (trim page)) + length tail));
      [reflexivity|lia]. }
  split; [exact Hset|]. rewrite Hset, Hsplit.
  rewrite insert_app_l by assumption.
  set (tokens := split_ws (trim page)) in *.
  cut (Forall is_word (<[index := alt]> tokens)).
  { intros Hwords'.
    assert (Hne : <[index := alt]> tokens <> []).
    { intros H. apply (f_equal length) in H. rewrite length_insert in H. cbn in H. lia. }
    destruct Htail as [-> | ->].
    - rewrite !app_nil_r. split; [|now apply split_join_words]. unfold trim.
      rewrite trimStart_id by now apply join_words_start.
      rewrite trimEnd_id by now apply join_words_end.
      now apply split_join_words.
    - split; [|apply split_join; [assumption|constructor]].
      rewrite join_snoc_empty by assumption. unfold trim.
      rewrite trimStart_id.
      + rewrite trimEnd_blank by (now repeat constructor).
        rewrite trimEnd_id by now apply join_words_end.
        now apply split_join_words.
      + pose proof (join_words_start _ Hne Hwords') as H.
        pose proof (join_words_nonempty _ Hne Hwords') as H'.
        destruct (join (lit " ") (<[index := alt]> tokens)); [congruence|exact H]. }
  destruct page as [|c p].
  - destruct (Hempty eq_refl) as [Ht _]. unfold tokens in *. rewrite Ht in *.
    destruct index; [|cbn in Hidx; lia]. cbn. constructor; [assumption|constructor].
  - apply Forall_insert; [apply Hwords; discriminate|assumption].
Qed.

End FrameFacts.

(** ** Interventions *)
Section InterventionFacts.

Lemma findIndex_Some {A} (p : A -> bool) (l : list A) :
  forall i, findIndex p l = Some i ->
  exists x, l !! i = Some x /\ p x = true.
Proof.
  induction l as [|y l IH]; intros i H; [discriminate|].
  cbn [findIndex] in H. destruct (p y) eqn:Hy.
  - injection H as <-. now exists y.
  - destruct (findIndex p l) as [j|]; [|discriminate].
    injection H as <-. exact (IH j eq_refl).
Qed.

Lemma at_index_insert_same {A} (l : list A) (k : Z) (x v : A) :
  at_index l k = Some x -> at_index (<[Z.to_nat k := v]> l) k = Some v.
Proof.
  unfold at_index. destruct (k <? 0)%Z; [discriminate|]. intros H.
  apply list_lookup_insert_eq. now apply lookup_lt_Some in H.
Qed.

Lemma at_index_insert_other {A} (l : list A) (k j : Z) (v : A) :
  (0 <= k)%Z -> j <> k -> at_index (<[Z.to_nat k := v]> l) j = at_index l j.
Proof.
  unfold at_index. intros Hk Hne. destruct (Z.ltb_spec j 0); [reflexivity|].
  apply list_lookup_insert_ne. lia.
Qed.

Lemma at_index_nonneg {A} (l : list A) (k : Z) (x : A) :
  at_index l k = Some x -> (0 <= k)%Z.
Proof. unfold at_index. destruct (Z.ltb_spec k 0); [discriminate|lia]. Qed.

(** Resuming the voice touches the reading flags only. *)
Lemma handleResumeReading_pages (synth : Synth) (s acc : Session) :
  editedPages (fst (handleResumeReading synth s acc)) = editedPages acc
  /\ rationales (fst (handleResumeReading synth s acc)) = rationales acc
  /\ qcStatus (fst (handleResumeReading synth s acc)) = qcStatus acc.
Proof.
  unfold handleResumeReading, handleStartReading.
  destruct (paused synth); [now cbn|].
  destruct (negb (isReading s)); [|now cbn].
  destruct (at_index (editedPages s) (currentPage s)) as [[|c t]|]; now cbn.
Qed.

(** The weight of a severity, and the error score of a list of
    interventions: the sum of their weights. *)
Definition severity_weight (m : MQMSeverity) : nat :=
  match m with
  | Minor => 1
  | Major => 5
  | Critical => 10
  end.

Definition error_score (rs : list CorrectionRationale) : nat :=
  sum_list_with (fun r => severity_weight (Rationale.mqmSeverity r)) rs.

(** The quality score of an error score on a word count, in binary64. *)
Definition quality (score words : nat) : float :=
  Num.Math_max 0
    (Num.Math_round
       (PrimFloat.mul 100
          (PrimFloat.sub 1 (PrimFloat.div (Num.of_nat score) (Num.of_nat words))))).





Lemma reduce_weights (rs : list CorrectionRationale) :
  forall acc,
    fold_left (fun acc curr =>
                 match Rationale.mqmSeverity curr with
                 | Minor => acc + 1
                 | Major => acc + 5
                 | Critical => acc + 10
                 end) rs acc
    = acc + error_score rs.
Proof.
  induction rs as [|r rs IH]; intros acc; cbn [fold_left]; [unfold error_score; cbn; lia|].
  rewrite IH. unfold error_score. cbn [sum_list_with]. fold (error_score rs).
  destruct (Rationale.mqmSeverity r); cbn [severity_weight]; lia.
Qed.

(** What [confirmIntervention] writes when the replacement and the
    rationale are there and the page exists. *)
Lemma confirmIntervention_run (now : nat) (synth : Synth) (s : Session)
    (stored : Store) (word : jsstring) (index : nat) (page : jsstring) :
  selectedWordData s = Some (word, index) ->
  selectedAlt s <> [] -> rationaleText s <> [] ->
  at_index (editedPages s) (currentPage s) = Some page ->
  exists s' effects rationale,
    confirmIntervention now synth s stored
    = Some (s', persist_intervention (currentLogId s) rationale stored, effects)
    /\ editedPages s'
       = <[Z.to_nat (currentPage s) :=
             join (lit " ") (array_set (split_ws page) index (selectedAlt s))]>
           (editedPages s)
    /\ rationales s' = rationales s ++ [rationale]
    /\ qcStatus s' = qcStatus s
    /\ Rationale.mqmSeverity rationale = mqmSeverity s
    /\ Rationale.updatedText rationale = selectedAlt s
    /\ Rationale.wordIndex rationale = index.
Proof.
  intros Hsel Halt Hrat Hpage. unfold confirmIntervention.
  rewrite Hsel, Hpage.
  destruct (selectedAlt s) as [|a alt] eqn:Ealt; [congruence|].
  destruct (rationaleText s) as [|b rat] eqn:Erat; [congruence|].
  match goal with
  | |- context [handleResumeReading synth s ?acc] =>
      pose proof (handleResumeReading_pages synth s acc) as (Hp & Hr & Hq);
      destruct (handleResumeReading synth s acc) as [acc' effects]
  end.
  cbn [fst] in Hp, Hr, Hq.
  eexists acc', effects, _. split; [reflexivity|].
  rewrite Hp, Hr, Hq. cbn. repeat split; reflexivity.
Qed.

End InterventionFacts.



(** C7.  When the replacement or the rationale text is empty,
    [confirmIntervention] returns without an error and changes nothing: the
    state (page texts and in-memory rationales included) and the persisted
    collection are the ones it was given, and no effect is issued.  The same
    holds for a click on the confirm button. *)
Theorem confirmIntervention_needs_texts (now : nat) (synth : Synth) (s : Session)
    (stored : Store) :
  selectedAlt s = [] \/ rationaleText s = [] ->
  confirmIntervention now synth s stored = Some (s, stored, [])
  /\ Ui.step (Ui.Confirm now synth) (s, stored) = (s, stored, []).
Proof.
  intros H.
  assert (Hc : confirmIntervention now synth s stored = Some (s, stored, [])).
  { unfold confirmIntervention.
    destruct (selectedWordData s) as [[w i]|]; [|reflexivity].
    destruct (selectedAlt s) as [|a alt]; [reflexivity|].
    destruct (rationaleText s) as [|b rat]; [reflexivity|].
    destruct H; discriminate. }
  split; [exact Hc|]. cbn [Ui.step]. rewrite Hc. now destruct (isWordModalOpen s).
Qed.

(** C10.  Take a page that does not start with white space, a replacement
    that is a word (not empty, no white space) and a word index below the
    number of displayed words of the page.  Then a confirmed intervention
    puts, at the current page, the pieces of the old text joined by single
    blanks with the piece at the index replaced.  The pieces of the new text
    are those of the old one with that piece replaced, and so are its
    displayed words (the pieces of the trimmed text): same number of words,
    the replacement at the index, every other word as it was.  The other
    pages are untouched. *)
Theorem confirmIntervention_replaces_one_word (now : nat) (synth : Synth)
    (s : Session) (stored : Store) (word : jsstring) (index : nat)
    (page : jsstring) :
  selectedWordData s = Some (word, index) ->
  rationaleText s <> [] ->
  at_index (editedPages s) (currentPage s) = Some page ->
  starts_with_ws page = false ->
  is_word (selectedAlt s) ->
  index < length (split_ws (trim page)) ->
  exists s' stored' effects page',
    confirmIntervention now synth s stored = Some (s', stored', effects)
    /\ at_index (editedPages s') (currentPage s) = Some page'
    /\ page' = join (lit " ") (<[index := selectedAlt s]> (split_ws page))
    /\ split_ws page' = <[index := selectedAlt s]> (split_ws page)
    /\ split_ws (trim page') = <[index := selectedAlt s]> (split_ws (trim page))
    /\ length (split_ws (trim page')) = length (split_ws (trim page))
    /\ split_ws (trim page') !! index = Some (selectedAlt s)
    /\ (forall j, j <> index ->
        split_ws (trim page') !! j = split_ws (trim page) !! j)
    /\ (forall k, k <> currentPage s ->
        at_index (editedPages s') k = at_index (editedPages s) k).
Proof.
  intros Hsel Hrat Hpage Hstart Halt Hidx.
  destruct (confirmIntervention_run now synth s stored word index page
              Hsel (proj1 Halt) Hrat Hpage)
    as (s' & effects & r & Hrun & Hpages & _).
  destruct (replace_word page (selectedAlt s) index Hstart Halt Hidx)
    as (Hset & Htokens & Hpieces).
  eexists s', _, effects, _. split; [exact Hrun|].
  rewrite Hpages. split; [now apply (at_index_insert_same _ _ page)|].
  split; [now rewrite Hset|]. split; [exact Hpieces|]. rewrite Htokens.
  split; [reflexivity|]. split; [apply length_insert|].
  split; [now apply list_lookup_insert_eq|].
  split.
  - intros j Hj. apply list_lookup_insert_ne. congruence.
  - intros k Hk. apply at_index_insert_other; [|assumption].
    now apply at_index_nonneg in Hpage.
Qed.

(** ** The persisted scores along a run *)
Section StoreInvariant.

(** A stored log is consistent: it has no intervention and no scores yet, or
    its scores are the ones of its rationales. *)
Definition scores_consistent (log : TranslationLog) : Prop :=
  (Log.rationales log = [] /\ Log.mqmErrorScore log = None /\ Log.qualityScore log = None)
  \/ (Log.mqmErrorScore log = Some (error_score (Log.rationales log))
      /\ Log.qualityScore log
         = Some (quality (error_score (Log.rationales log)) (Log.wordCount log))).

Definition store_consistent (stored : Store) : Prop :=
  match stored with
  | Some metrics => Forall scores_consistent metrics
  | None => True
  end.

Lemma updatePersistentStatus_consistent (id : jsstring) (status : QcStatus) (stored : Store) :
  store_consistent stored -> store_consistent (updatePersistentStatus id status stored).
Proof.
  unfold updatePersistentStatus. destruct stored as [metrics|]; [|trivial].
  destruct (findIndex _ metrics) as [idx|]; [|trivial]. cbn [store_consistent].
  intros H. apply Forall_alter; [exact H|]. intros log _ Hlog. exact Hlog.
Qed.

Lemma persist_intervention_consistent (id : jsstring) (r : CorrectionRationale)
    (stored : Store) :
  store_consistent stored -> store_consistent (persist_intervention id r stored).
Proof.
  unfold persist_intervention. destruct stored as [metrics|]; [|trivial].
  destruct (findIndex _ metrics) as [idx|]; [|trivial].
  destruct (metrics !! idx) as [log|] eqn:Hlog; [|trivial]. cbn [store_consistent].
  intros H. apply Forall_insert; [exact H|]. right.
  rewrite reduce_weights. split; reflexivity.
Qed.

Lemma handleTranslate_consistent (ai : Gateway.Service) (now1 now2 : nat) (s : Session)
    (stored : Store) :
  store_consistent stored ->
  store_consistent (snd (fst (handleTranslate ai now1 now2 s stored))).
Proof.
  intros H. unfold handleTranslate. destruct (sourcePages s); [exact H|].
  destruct (Gateway.translateDocument _ _ _ _ _ _) as [[result|] tr]; [|exact H].
  cbn [fst snd store_consistent]. apply Forall_app. split.
  - destruct stored; [exact H|constructor].
  - constructor; [|constructor]. left. now repeat split.
Qed.

Lemma takeoff_store (s : Session) (stored : Store) :
  snd (fst (Ui.step Ui.TranslationStart (s, stored))) = stored.
Proof.
  cbn [Ui.step]. destruct (auto_translate_due s); [|reflexivity].
  unfold takeoff. now destruct (sourcePages s).
Qed.

Lemma landing_consistent (f : Flight) (r : Gateway.Response) (now1 now2 : nat)
    (s : Session) (stored : Store) :
  store_consistent stored ->
  store_consistent (snd (fst (fst (landing f r now1 now2 s stored)))).
Proof.
  intros H. unfold landing. destruct r as [|text]; [exact H|].
  destruct (sourcePages (closure f) !! S (index f)); [exact H|].
  cbn [fst snd store_consistent]. apply Forall_app. split.
  - destruct stored; [exact H|constructor].
  - constructor; [|constructor]. left. now repeat split.
Qed.

(** No event leaves a log with scores that are not those of its rationales. *)
Lemma step_store_consistent (e : Ui.Event) (w : Ui.World) :
  store_consistent (snd w) -> store_consistent (snd (fst (Ui.step e w))).
Proof.
  destruct w as [s stored]. cbn [snd]. intros H.
  destruct e; cbn [Ui.step Ui.pure fst snd]; try exact H.
  - destruct (auto_translate_due s); [now apply handleTranslate_consistent|exact H].
  - now destruct (review_toggle_enabled s).
  - destruct (length (editedPages s) =? 0); [exact H|].
    now destruct (isReading s && negb (isPaused s)).
  - now destruct (length (editedPages s) =? 0).
  - now destruct (isReviewMode s && status_eqb (qcStatus s) QCPending
                  && negb (isPaused s) && negb (isWordModalOpen s)).
  - destruct (displayed_words s !! i); [|exact H].
    destruct (isLoading s); [exact H|]. now destruct (isReviewMode s).
  - now destruct (isWordModalOpen s).
  - now destruct (isWordModalOpen s).
  - now destruct (isWordModalOpen s).
  - now destruct (isWordModalOpen s).
  - now destruct (isWordModalOpen s).
  - destruct (isWordModalOpen s); [|exact H].
    destruct (confirmIntervention now synth s stored) as [[[s' st'] eff]|] eqn:Hrun;
      [|exact H].
    cbn [fst snd]. unfold confirmIntervention in Hrun.
    destruct (selectedWordData s) as [[word index]|]; [|now injection Hrun as _ <- _].
    destruct (selectedAlt s); [now injection Hrun as _ <- _|].
    destruct (rationaleText s); [now injection Hrun as _ <- _|].
    destruct (at_index (editedPages s) (currentPage s)); [|discriminate].
    destruct (handleResumeReading _ _ _) in Hrun. injection Hrun as _ <- _.
    now apply persist_intervention_consistent.
  - destruct (finalize_offered s); [|exact H].
    unfold finalizeVerification. cbn. now apply updatePersistentStatus_consistent.
  - destruct (downloads_offered s); [|exact H].
    cbn. now apply updatePersistentStatus_consistent.
  - destruct (downloads_offered s); [|exact H].
    unfold handleDownloadPDF. destruct opened; cbn; [|exact H].
    now apply updatePersistentStatus_consistent.
  - pose proof (takeoff_store s stored) as E. cbn [Ui.step] in E. now rewrite E.
  - pose proof (landing_consistent f r now1 now2 s stored H) as H'.
    destruct (landing f r now1 now2 s stored) as [[[acc st'] eff] p']. exact H'.
Qed.

Lemma run_store_consistent (events : list Ui.Event) :
  forall w, store_consistent (snd w) -> store_consistent (snd (Ui.run events w)).
Proof.
  induction events as [|e events IH]; intros w H; [exact H|].
  unfold Ui.run. cbn [fold_left]. apply IH. now apply step_store_consistent.
Qed.

(** The arithmetic is binary64 also at a tie: 17 error points on 40 words
    make the exact value of the formula 57.5, the product computed is just
    below it, and the score is 57. *)
Remark quality_at_a_tie :
  PrimFloat.ltb
    (PrimFloat.mul 100 (PrimFloat.sub 1 (PrimFloat.div (Num.of_nat 17) (Num.of_nat 40))))
    57.5
  = true
  /\ quality 17 40 = 57%float.
Proof. split; reflexivity. Qed.

End StoreInvariant.

(** ** Translation through the gateway *)
Section GatewayFacts.

Import Gateway.

Variable ai : Service.
Variables targetLanguage mode : jsstring.

Let prompt_of := translate_prompt targetLanguage mode.

(** The text [translateDocument] keeps of an answer. *)
Definition answer_text (r : Response) : jsstring :=
  match r with
  | Answer text => or_empty text
  | Rejected => []
  end.

(** The service's answer to the request for page [i] of [pages]: it has been
    sent the prompts of the pages before [i], in order, and nothing else. *)
Definition answer_at (pages : list jsstring) (i : nat) (page : jsstring) : Response :=
  ai (map prompt_of (take i pages)) (prompt_of page).

(** What the loop does for the pages from index [i] on: a progress message,
    then a request, page after page. *)
Fixpoint page_events (total : nat) (pages : list jsstring) (i : nat) : list Effect :=
  match pages with
  | [] => []
  | page :: rest =>
      Progress (progress_message i total) :: GenerateContent (prompt_of page)
      :: page_events total rest (S i)
  end.

(** The translations of [pages], requested one after the other from a
    service that was sent [sent] before; [None] when a request is
    rejected. *)
Fixpoint answers (sent : list jsstring) (pages : list jsstring) : option (list jsstring) :=
  match pages with
  | [] => Some []
  | page :: rest =>
      match ai sent (prompt_of page) with
      | Rejected => None
      | Answer text =>
          option_map (cons (or_empty text)) (answers (sent ++ [prompt_of page]) rest)
      end
  end.

Lemma prompts_app (a b : list Effect) : prompts (a ++ b) = prompts a ++ prompts b.
Proof.
  induction a as [|e a IH]; [reflexivity|]. destruct e; cbn; rewrite ?IH; reflexivity.
Qed.

Lemma prompts_page_events (total : nat) (pages : list jsstring) :
  forall i, prompts (page_events total pages i) = map prompt_of pages.
Proof.
  induction pages as [|p pages IH]; intros i; [reflexivity|]. cbn. now rewrite IH.
Qed.

Lemma translate_from_answers (total : nat) (rest : list jsstring) :
  forall (i : nat) (results : list jsstring) (tr : list Effect) (out : list jsstring),
    answers (prompts tr) rest = Some out ->
    translate_from ai targetLanguage mode true total rest i results tr
    = (Some (results ++ out), tr ++ page_events total rest i).
Proof.
  induction rest as [|page rest IH]; intros i results tr out Hout.
  - cbn in Hout. injection Hout as <-. cbn. now rewrite !app_nil_r.
  - cbn [answers] in Hout. cbn [translate_from page_events].
    unfold bind at 1. unfold emit. unfold bind at 1. unfold generateContent.
    rewrite prompts_app. cbn [prompts]. rewrite app_nil_r.
    fold prompt_of. destruct (ai (prompts tr) (prompt_of page)) as [|text]; [discriminate|].
    destruct (answers (prompts tr ++ [prompt_of page]) rest) as [out'|] eqn:Hrest;
      [|discriminate].
    cbn in Hout. injection Hout as <-.
    rewrite (IH (S i) _ _ out').
    + now rewrite <- !app_assoc.
    + rewrite !prompts_app. cbn. now rewrite app_nil_r.
Qed.

Lemma translate_from_rejected (total : nat) (rest : list jsstring) :
  forall (i : nat) (results : list jsstring) (tr : list Effect),
    answers (prompts tr) rest = None ->
    exists n,
      0 < n <= length rest
      /\ translate_from ai targetLanguage mode true total rest i results tr
         = (None, tr ++ page_events total (take n rest) i)
      /\ exists page, rest !! (n - 1) = Some page
         /\ ai (prompts tr ++ map prompt_of (take (n - 1) rest)) (prompt_of page) = Rejected.
Proof.
  induction rest as [|page rest IH]; intros i results tr Hout; [discriminate|].
  cbn [answers] in Hout. cbn [translate_from].
  unfold bind at 1. unfold emit. unfold bind at 1. unfold generateContent.
  rewrite prompts_app. cbn [prompts]. rewrite app_nil_r. fold prompt_of.
  destruct (ai (prompts tr) (prompt_of page)) as [|text] eqn:Hai.
  - exists 1. split; [cbn; lia|]. split.
    + cbn. now rewrite <- !app_assoc.
    + exists page. split; [reflexivity|]. cbn. now rewrite app_nil_r.
  - destruct (answers (prompts tr ++ [prompt_of page]) rest) eqn:Hrest; [discriminate|].
    destruct (IH (S i) (results ++ [or_empty text])
                 ((tr ++ [Progress (progress_message i total)])
                  ++ [GenerateContent (prompt_of page)]))
      as (n & Hn & Hrun & page' & Hpage' & Hrej).
    { rewrite !prompts_app. cbn. now rewrite app_nil_r. }
    exists (S n). split; [cbn; lia|]. split.
    + rewrite Hrun. cbn [take page_events]. now rewrite <- !app_assoc.
    + exists page'. replace (S n - 1) with (S (n - 1)) by lia. split; [exact Hpage'|].
      rewrite !prompts_app in Hrej. cbn in Hrej. rewrite app_nil_r in Hrej.
      cbn [take map]. now rewrite <- app_assoc in Hrej.
Qed.

Lemma answers_accepted (pages : list jsstring) :
  forall sent,
    (forall j page, pages !! j = Some page ->
       ai (sent ++ map prompt_of (take j pages)) (prompt_of page) <> Rejected) ->
    exists out,
      answers sent pages = Some out
      /\ length out = length pages
      /\ forall j page, pages !! j = Some page ->
           out !! j
           = Some (answer_text (ai (sent ++ map prompt_of (take j pages)) (prompt_of page))).
Proof.
  induction pages as [|p pages IH]; intros sent Hacc.
  - exists []. repeat split. intros j page H. discriminate.
  - cbn [answers]. pose proof (Hacc 0 p eq_refl) as H0. rewrite take_0 in H0. cbn [map] in H0.
    rewrite app_nil_r in H0.
    destruct (ai sent (prompt_of p)) as [|text] eqn:Hai; [congruence|].
    destruct (IH (sent ++ [prompt_of p])) as (out & Hout & Hlen & Hat).
    { intros j page Hj. specialize (Hacc (S j) page Hj). cbn [take map] in Hacc.
      now rewrite <- app_assoc. }
    exists (or_empty text :: out). rewrite Hout. split; [reflexivity|].
    split; [cbn; now rewrite Hlen|].
    intros [|j] page Hj.
    + injection Hj as <-. rewrite take_0. cbn [map]. rewrite app_nil_r, Hai. reflexivity.
    + cbn in Hj. change ((or_empty text :: out) !! S j) with (out !! j).
      rewrite (Hat j page Hj). cbn [take map]. now rewrite <- app_assoc.
Qed.

Lemma answers_rejected (pages : list jsstring) :
  forall sent k page,
    pages !! k = Some page ->
    ai (sent ++ map prompt_of (take k pages)) (prompt_of page) = Rejected ->
    answers sent pages = None.
Proof.
  induction pages as [|p pages IH]; intros sent k page Hk Hrej; [discriminate|].
  cbn [answers]. destruct (ai sent (prompt_of p)) as [|text] eqn:Hai; [reflexivity|].
  destruct k as [|k].
  - injection Hk as <-. rewrite take_0 in Hrej. cbn [map] in Hrej.
    rewrite app_nil_r in Hrej. congruence.
  - cbn in Hk. rewrite (IH (sent ++ [prompt_of p]) k page Hk); [reflexivity|].
    cbn [take map] in Hrej. now rewrite <- app_assoc.
Qed.

End GatewayFacts.

(** C5.  For a non-empty page sequence whose requests are all answered,
    [handleTranslate] issues exactly one request per page, one after the
    other in page order (each preceded by its progress message), and the
    edited pages are the answers in the same order: position [i] holds the
    text the service answered to the request for page [i], made after the
    requests for the pages before it (the empty text when the answer
    carries none).  The status becomes QC Pending and
    exactly one log is appended to the persisted collection, with the
    session's log identifier, status QC Pending, no rationales, and the
    single time code START at the time read. *)
Theorem handleTranslate_success (ai : Gateway.Service) (now1 now2 : nat)
    (s : Session) (stored : Store) :
  sourcePages s <> [] ->
  (forall i page, sourcePages s !! i = Some page ->
     answer_at ai (targetLanguage s) (lit "General") (sourcePages s) i page
     <> Gateway.Rejected) ->
  exists s' log effects,
    handleTranslate ai now1 now2 s stored
    = (s', Some (default [] stored ++ [log]), effects)
    /\ effects
       = page_events (targetLanguage s) (lit "General") (length (sourcePages s))
                     (sourcePages s) 0
    /\ Gateway.prompts effects
       = map (Gateway.translate_prompt (targetLanguage s) (lit "General")) (sourcePages s)
    /\ length (editedPages s') = length (sourcePages s)
    /\ (forall i page answer, sourcePages s !! i = Some page ->
        ai (map (Gateway.translate_prompt (targetLanguage s) (lit "General"))
                (take i (sourcePages s)))
           (Gateway.translate_prompt (targetLanguage s) (lit "General") page)
        = Gateway.Answer answer ->
        editedPages s' !! i = Some (match answer with Some text => text | None => [] end))
    /\ qcStatus s' = QCPending
    /\ Log.workflowTimeCodes log = [(lit "START", now2)]
    /\ Log.id log = currentLogId s
    /\ Log.status log = QCPending
    /\ Log.rationales log = [].
Proof.
  intros Hne Hacc.
  destruct (answers_accepted ai (targetLanguage s) (lit "General") (sourcePages s) [])
    as (out & Hout & Hlen & Hat); [exact Hacc|].
  unfold handleTranslate, Gateway.translateDocument.
  destruct (sourcePages s) as [|p ps] eqn:Hpages; [congruence|]. rewrite <- Hpages in *.
  unfold Gateway.bind at 1.
  rewrite (translate_from_answers ai _ _ _ _ 0 [] [] out) by exact Hout.
  cbn [app Gateway.ret].
  eexists _, _, _. split; [reflexivity|].
  cbn [editedPages qcStatus set_progress set_isLoading set_qcStatus set_editedPages
       Log.workflowTimeCodes Log.id Log.status Log.rationales].
  split; [reflexivity|]. split; [apply prompts_page_events|].
  split; [exact Hlen|].
  split.
  { intros i page answer Hi Hanswer. specialize (Hat i page Hi).
    cbn [app] in Hat. rewrite Hanswer in Hat. rewrite Hat. now destruct answer. }
  repeat split; reflexivity.
Qed.

(** C6.  When the service rejects the request for some page,
    [handleTranslate] ends with the alert "Pipeline Failure" and no
    transition: the status is the one before (Draft stays Draft), the edited
    pages and the rationales are untouched and the persisted collection is
    the one it was given.  Nothing is retried: the requests sent are those
    of the first [n] pages, each once and in order, and afterwards the
    effect that starts a translation is not due (the initiate flag is
    off). *)
Theorem handleTranslate_failure (ai : Gateway.Service) (now1 now2 : nat)
    (s : Session) (stored : Store) (k : nat) (page : jsstring) :
  sourcePages s !! k = Some page ->
  answer_at ai (targetLanguage s) (lit "General") (sourcePages s) k page
  = Gateway.Rejected ->
  exists s' requests n,
    handleTranslate ai now1 now2 s stored
    = (s', stored, requests ++ [Alert (lit "Pipeline Failure")])
    /\ qcStatus s' = qcStatus s
    /\ editedPages s' = editedPages s
    /\ rationales s' = rationales s
    /\ initiateTranslation s' = false
    /\ isLoading s' = false
    /\ auto_translate_due s' = false
    /\ 0 < n <= length (sourcePages s)
    /\ requests
       = page_events (targetLanguage s) (lit "General") (length (sourcePages s))
                     (take n (sourcePages s)) 0
    /\ Gateway.prompts requests
       = map (Gateway.translate_prompt (targetLanguage s) (lit "General"))
             (take n (sourcePages s)).
Proof.
  intros Hk Hrej.
  pose proof (answers_rejected ai (targetLanguage s) (lit "General") (sourcePages s)
                [] k page Hk Hrej) as Hnone.
  destruct (translate_from_rejected ai (targetLanguage s) (lit "General")
              (length (sourcePages s)) (sourcePages s) 0 [] [] Hnone)
    as (n & Hn & Hrun & _).
  unfold handleTranslate, Gateway.translateDocument.
  destruct (sourcePages s) as [|p ps] eqn:Hpages; [discriminate|]. rewrite <- Hpages in *.
  unfold Gateway.bind at 1. rewrite Hrun. cbn [app].
  eexists _, _, n. split; [reflexivity|].
  cbn [qcStatus editedPages rationales initiateTranslation isLoading
       set_progress set_isLoading set_initiateTranslation].
  do 5 (split; [reflexivity|]).
  split; [unfold auto_translate_due; cbn; reflexivity|].
  split; [exact Hn|]. split; [reflexivity|]. apply prompts_page_events.
Qed.

(** ** Recovering JSON *)
Section JsonFacts.

Import Json.



(** The texts [extractJson] tries to parse, in the order it tries them. *)
Definition attempts (cleanText : jsstring) : list jsstring :=
  match candidate cleanText 91 93 with Some arrayCandidate => [arrayCandidate] | None => [] end
  ++ match candidate cleanText 123 125 with Some objectCandidate => [objectCandidate] | None => [] end
  ++ [cleanText].

(** The value of the first of the texts that parses, [null] when none does. *)
Fixpoint first_parsed (parse : jsstring -> completion value) (texts : list jsstring)
    : value :=
  match texts with
  | [] => Null
  | t :: rest =>
      match parse t with
      | Normal v => v
      | Thrown => first_parsed parse rest
      end
  end.


Lemma extractJson_first_parsed (parse : jsstring -> completion value) (text : jsstring) :
  text <> [] ->
  extractJson parse (Some text) = Normal (first_parsed parse (attempts (clean text))).
Proof.
  intros Hne. unfold extractJson, attempts.
  destruct text as [|c text']; [congruence|].
  set (cleanText := clean (c :: text')).
  destruct (candidate cleanText 91 93) as [a|];
    destruct (candidate cleanText 123 125) as [o|];
    cbn [app first_parsed];
    repeat match goal with
           | |- context [parse ?t] => destruct (parse t); cbn [try_return first_parsed]
           end; reflexivity.
Qed.

(** The answer in a fenced block used as the worked case. *)
Definition fenced_array : jsstring :=
  lit "```json" ++ [10%N] ++ lit "[1,2,3]" ++ [10%N] ++ lit "```".

Definition one_two_three : value :=
  Array [Number 1%float; Number 2%float; Number 3%float].

End JsonFacts.


(** Unfold the handlers of an event and split on everything they test. *)
Ltac open_handlers :=
  unfold Ui.pure, confirmIntervention, handleWordClick, finalizeVerification,
    handleFileUpload, languageDetected, handleTranslate, handleDownloadWord,
    handleDownloadPDF, handleResumeReading, handlePauseReading, handleStartReading,
    handleStopReading, takeoff, landing, announce, Metrics.calculateMetrics,
    Metrics.metrics_of in *.

Ltac plain x :=
  lazymatch x with
  | context [match _ with _ => _ end] => fail
  | _ => idtac
  end.

Ltac split_tests :=
  repeat match goal with
         | |- context [match ?x with _ => _ end] => plain x; destruct x eqn:?
         end.


(** ** The workflow *)
Section WorkflowFacts.

(** What the workflow looks at in a state: whether a translation exists,
    the status, and the review flag. *)
Definition same_view (s s' : Session) : Prop :=
  (editedPages s' = [] <-> editedPages s = [])
  /\ qcStatus s' = qcStatus s
  /\ isReviewMode s' = isReviewMode s.

(** The moves of the workflow. *)
Inductive move (s s' : Session) : Prop :=
| move_none : same_view s s' -> move s s'
| move_upload :
    editedPages s' = [] -> qcStatus s' = Draft -> isReviewMode s' = isReviewMode s ->
    move s s'
| move_translate :
    editedPages s = [] -> editedPages s' <> [] -> qcStatus s' = QCPending ->
    isReviewMode s' = isReviewMode s -> move s s'
| move_review :
    editedPages s <> [] -> editedPages s' = editedPages s -> qcStatus s' = qcStatus s ->
    move s s'
| move_finalize :
    finalize_offered s = true -> editedPages s' = editedPages s ->
    qcStatus s' = QCFinalized -> isReviewMode s' = false -> move s s'
| move_download :
    downloads_offered s = true -> editedPages s' = editedPages s ->
    qcStatus s' = Downloaded -> isReviewMode s' = isReviewMode s -> move s s'.

Lemma same_view_refl (s : Session) : same_view s s.
Proof. now repeat split. Qed.

Lemma same_view_fields (s s' : Session) :
  editedPages s' = editedPages s -> qcStatus s' = qcStatus s ->
  isReviewMode s' = isReviewMode s -> same_view s s'.
Proof. intros H1 H2 H3. unfold same_view. now rewrite H1, H2, H3. Qed.

Lemma handleStartReading_view (s acc : Session) :
  let acc' := fst (handleStartReading s acc) in
  editedPages acc' = editedPages acc /\ qcStatus acc' = qcStatus acc
  /\ isReviewMode acc' = isReviewMode acc.
Proof.
  unfold handleStartReading.
  destruct (at_index (editedPages s) (currentPage s)) as [[|c t]|]; now cbn.
Qed.

Lemma handleResumeReading_view (synth : Synth) (s acc : Session) :
  let acc' := fst (handleResumeReading synth s acc) in
  editedPages acc' = editedPages acc /\ qcStatus acc' = qcStatus acc
  /\ isReviewMode acc' = isReviewMode acc.
Proof.
  unfold handleResumeReading. destruct (paused synth); [now cbn|].
  destruct (negb (isReading s)); [apply handleStartReading_view|now cbn].
Qed.

Lemma handlePauseReading_view (synth : Synth) (acc : Session) :
  let acc' := fst (handlePauseReading synth acc) in
  editedPages acc' = editedPages acc /\ qcStatus acc' = qcStatus acc
  /\ isReviewMode acc' = isReviewMode acc.
Proof.
  unfold handlePauseReading. destruct (speaking synth && negb (paused synth)); now cbn.
Qed.

Lemma handleWordClick_view (word : jsstring) (i : nat) (synth : Synth) (s : Session) :
  same_view s (fst (handleWordClick word i synth s)).
Proof.
  unfold handleWordClick.
  pose proof (handlePauseReading_view synth s) as (H1 & H2 & H3).
  destruct (handlePauseReading synth s) as [acc e1]. cbn [fst] in *.
  apply same_view_fields; cbn; assumption.
Qed.

Lemma languageDetected_view (r : Gateway.Response) (s : Session) :
  same_view s (languageDetected r s).
Proof.
  unfold languageDetected. destruct r as [|[text|]]; [| |]; try now apply same_view_fields.
  destruct (trim text); now apply same_view_fields.
Qed.

Lemma calculateMetrics_view (pages : list jsstring) (s : Session) :
  editedPages (Metrics.calculateMetrics pages s) = editedPages s
  /\ qcStatus (Metrics.calculateMetrics pages s) = qcStatus s
  /\ isReviewMode (Metrics.calculateMetrics pages s) = isReviewMode s.
Proof. now unfold Metrics.calculateMetrics, Metrics.metrics_of. Qed.

Lemma confirmIntervention_view (now : nat) (synth : Synth) (s : Session) (stored : Store) :
  match confirmIntervention now synth s stored with
  | Some (s', _, _) => same_view s s'
  | None => True
  end.
Proof.
  unfold confirmIntervention.
  destruct (selectedWordData s) as [[word index]|]; [|apply same_view_refl].
  destruct (selectedAlt s) as [|a alt]; [apply same_view_refl|].
  destruct (rationaleText s) as [|b rat]; [apply same_view_refl|].
  destruct (at_index (editedPages s) (currentPage s)) as [page|] eqn:Hpage; [|exact I].
  match goal with
  | |- context [handleResumeReading synth s ?acc] =>
      pose proof (handleResumeReading_view synth s acc) as (H1 & H2 & H3);
      destruct (handleResumeReading synth s acc) as [acc' effects]
  end.
  cbn [fst] in *. unfold same_view. rewrite H1, H2, H3. cbn.
  repeat split; try reflexivity.
  - intros H. apply (f_equal length) in H. rewrite length_insert in H.
    now apply length_zero_iff_nil.
  - intros H. rewrite H in Hpage. unfold at_index in Hpage.
    destruct (currentPage s <? 0)%Z; discriminate.
Qed.

Lemma translate_from_length (ai : Gateway.Service) (lang mode : jsstring) (total : nat)
    (rest : list jsstring) :
  forall i results tr out tr',
    Gateway.translate_from ai lang mode true total rest i results tr = (Some out, tr') ->
    length out = length results + length rest.
Proof.
  induction rest as [|page rest IH]; intros i results tr out tr' H.
  - cbn in H. injection H as <- _. cbn. lia.
  - cbn [Gateway.translate_from] in H.
    unfold Gateway.bind at 1 in H. unfold Gateway.emit in H.
    unfold Gateway.bind at 1 in H. unfold Gateway.generateContent in H.
    destruct (ai _ _) as [|text]; [discriminate|].
    apply IH in H. rewrite length_app in H. cbn in *. lia.
Qed.

Lemma handleTranslate_move (ai : Gateway.Service) (now1 now2 : nat) (s : Session)
    (stored : Store) :
  let s' := fst (fst (handleTranslate ai now1 now2 s stored)) in
  same_view s s'
  \/ (editedPages s' <> [] /\ qcStatus s' = QCPending
      /\ isReviewMode s' = isReviewMode s).
Proof.
  cbn zeta.
  destruct (handleTranslate ai now1 now2 s stored) as [[s' st'] eff] eqn:Hrun.
  cbn [fst]. unfold handleTranslate, Gateway.translateDocument in Hrun.
  destruct (sourcePages s) as [|p ps] eqn:Hpages.
  { injection Hrun as <- _ _. left. apply same_view_refl. }
  unfold Gateway.bind at 1 in Hrun.
  destruct (Gateway.translate_from _ _ _ _ _ _ _ _ _) as [[out|] tr] eqn:Hloop.
  - apply translate_from_length in Hloop. cbn [Gateway.ret] in Hrun.
    injection Hrun as <- _ _. right. split; [|split; reflexivity].
    cbn. intros ->. cbn in Hloop. lia.
  - injection Hrun as <- _ _. left. now apply same_view_fields.
Qed.

(** Every event is one move of the workflow, and only the upload of a
    readable file is an upload move. *)
(** The settling of a request of a suspended translation. *)
Definition is_answer (e : Ui.Event) : bool :=
  match e with
  | Ui.TranslationAnswer _ _ _ _ => true
  | _ => false
  end.

Lemma step_move (e : Ui.Event) (s : Session) (stored : Store) :
  is_answer e = false ->
  let s' := fst (fst (Ui.step e (s, stored))) in
  move s s'
  /\ ((exists pages year now, e = Ui.Upload (Parsed pages) year now)
      \/ (editedPages s' = [] -> qcStatus s' = Draft -> same_view s s')).
Proof.
  intros Hna. cbn zeta. destruct e; try discriminate Hna; clear Hna;
    cbn [Ui.step Ui.pure fst snd].
  all: try (split; [apply move_none, same_view_fields; reflexivity
                   | right; intros _ _; apply same_view_fields; reflexivity]).
  - (* upload *)
    destruct file as [| |pages]; cbn [handleFileUpload fst].
    + split; [apply move_none, same_view_refl|right; intros; apply same_view_refl].
    + split; [apply move_none, same_view_refl|right; intros; apply same_view_refl].
    + split; [|left; eauto]. apply move_upload; reflexivity.
  - (* language detected *)
    split; [apply move_none|right; intros _ _]; apply languageDetected_view.
  - (* the translation effect *)
    unfold auto_translate_due.
    destruct (initiateTranslation s && (0 <? length (sourcePages s))
              && negb (isLoading s) && (length (editedPages s) =? 0)) eqn:Hdue.
    + apply andb_true_iff in Hdue as [_ Hnil]. apply Nat.eqb_eq in Hnil.
      apply length_zero_iff_nil in Hnil.
      destruct (handleTranslate_move ai now1 now2 s stored) as [Hv|(Hp & Hq & Hr)].
      * split; [now apply move_none|]. right. intros _ _. exact Hv.
      * split; [now apply move_translate|]. right. intros Hn. contradiction.
    + split; [apply move_none, same_view_refl|right; intros; apply same_view_refl].
  - (* review toggle *)
    unfold review_toggle_enabled.
    destruct (length (editedPages s) =? 0) eqn:Hlen; cbn [negb fst].
    + split; [apply move_none, same_view_refl|right; intros; apply same_view_refl].
    + apply Nat.eqb_neq in Hlen.
      assert (editedPages s <> []) by (intros H; rewrite H in Hlen; now cbn in Hlen).
      split; [apply move_review; auto|]. right. cbn. intros; contradiction.
  - (* voice toggle *)
    destruct (length (editedPages s) =? 0);
      [split; [apply move_none, same_view_refl|right; intros; apply same_view_refl]|].
    destruct (isReading s && negb (isPaused s)); cbn [Ui.pure fst].
    + pose proof (handlePauseReading_view synth s) as (H1 & H2 & H3).
      split; [apply move_none|right; intros _ _]; now apply same_view_fields.
    + pose proof (handleResumeReading_view synth s s) as (H1 & H2 & H3).
      split; [apply move_none|right; intros _ _]; now apply same_view_fields.
  - (* voice stop *)
    destruct (length (editedPages s) =? 0); cbn [fst];
      split; try (apply move_none); try (right; intros _ _);
      first [apply same_view_refl | now apply same_view_fields].
  - (* tick *)
    destruct (isReviewMode s && status_eqb (qcStatus s) QCPending && negb (isPaused s)
              && negb (isWordModalOpen s)); cbn [fst];
      split; try (apply move_none); try (right; intros _ _);
      first [apply same_view_refl | now apply same_view_fields].
  - (* word click *)
    destruct (displayed_words s !! i) as [word|];
      [|split; [apply move_none, same_view_refl|right; intros; apply same_view_refl]].
    destruct (isLoading s);
      [split; [apply move_none, same_view_refl|right; intros; apply same_view_refl]|].
    destruct (isReviewMode s); cbn [Ui.pure fst];
      split; try (apply move_none); try (right; intros _ _);
      first [apply same_view_refl | apply handleWordClick_view].
  - destruct (isWordModalOpen s); cbn [fst];
      split; try (apply move_none); try (right; intros _ _);
      first [apply same_view_refl | now apply same_view_fields].
  - destruct (isWordModalOpen s); cbn [fst];
      split; try (apply move_none); try (right; intros _ _);
      first [apply same_view_refl | now apply same_view_fields].
  - destruct (isWordModalOpen s); cbn [fst];
      split; try (apply move_none); try (right; intros _ _);
      first [apply same_view_refl | now apply same_view_fields].
  - destruct (isWordModalOpen s); cbn [fst];
      split; try (apply move_none); try (right; intros _ _);
      first [apply same_view_refl | now apply same_view_fields].
  - (* close the dialog *)
    destruct (isWordModalOpen s); cbn [Ui.pure fst];
      [|split; [apply move_none, same_view_refl|right; intros; apply same_view_refl]].
    pose proof (handleResumeReading_view synth s (set_isWordModalOpen false s))
      as (H1 & H2 & H3).
    split; [apply move_none|right; intros _ _]; now apply same_view_fields.
  - (* confirm *)
    destruct (isWordModalOpen s);
      [|split; [apply move_none, same_view_refl|right; intros; apply same_view_refl]].
    pose proof (confirmIntervention_view now synth s stored) as Hv.
    destruct (confirmIntervention now synth s stored) as [[[s' st'] eff]|]; cbn [fst];
      split; try (apply move_none); try (right; intros _ _);
      first [exact Hv | apply same_view_refl].
  - (* finalize *)
    destruct (finalize_offered s) eqn:Hoff;
      [|split; [apply move_none, same_view_refl|right; intros; apply same_view_refl]].
    unfold finalizeVerification, handleStopReading. cbn [fst].
    split; [now apply move_finalize|]. right. cbn. congruence.
  - (* download, Word *)
    destruct (downloads_offered s) eqn:Hoff;
      [|split; [apply move_none, same_view_refl|right; intros; apply same_view_refl]].
    unfold handleDownloadWord. cbn [fst].
    split; [now apply move_download|]. right. cbn. congruence.
  - (* download, PDF *)
    destruct (downloads_offered s) eqn:Hoff;
      [|split; [apply move_none, same_view_refl|right; intros; apply same_view_refl]].
    unfold handleDownloadPDF. destruct opened; cbn [negb fst].
    + split; [now apply move_download|]. right. cbn. congruence.
    + split; [apply move_none, same_view_refl|right; intros; apply same_view_refl].
  - (* the start of a translation *)
    destruct (auto_translate_due s);
      [|split; [apply move_none, same_view_refl|right; intros; apply same_view_refl]].
    unfold takeoff. destruct (sourcePages s); cbn [fst];
      split; try (apply move_none); try (right; intros _ _);
      first [apply same_view_refl | now apply same_view_fields].
Qed.

End WorkflowFacts.

Section WorkflowInvariant.

(** A translation exists exactly when the status has left Draft, and review
    mode is on only when a translation exists. *)
Definition coherent (s : Session) : Prop :=
  (editedPages s = [] <-> qcStatus s = Draft)
  /\ (isReviewMode s = true -> editedPages s <> []).

Lemma coherent_initial : coherent Tool.initial.
Proof. split; [now split|discriminate]. Qed.

Lemma same_view_coherent (s s' : Session) : same_view s s' -> coherent s -> coherent s'.
Proof.
  intros (Hp & Hq & Hr) [H1 H2]. unfold coherent. rewrite Hq, Hr. split.
  - split; intros H; [apply H1, Hp, H|apply Hp, H1, H].
  - intros H Hn. apply (H2 H), Hp, Hn.
Qed.

Lemma finalize_offered_iff (s : Session) :
  finalize_offered s = true
  <-> isReviewMode s = true /\ (qcStatus s = Draft \/ qcStatus s = QCPending).
Proof.
  unfold finalize_offered. destruct (isReviewMode s), (qcStatus s); cbn; intuition congruence.
Qed.

Lemma downloads_offered_iff (s : Session) :
  downloads_offered s = true <-> qcStatus s = QCFinalized \/ qcStatus s = Downloaded.
Proof.
  unfold downloads_offered. destruct (qcStatus s); cbn; intuition congruence.
Qed.

Lemma coherent_finalize (s : Session) :
  coherent s -> finalize_offered s = true -> qcStatus s = QCPending /\ editedPages s <> [].
Proof.
  intros [H1 H2] Hoff. apply finalize_offered_iff in Hoff as [Hr Hq].
  specialize (H2 Hr). split; [|exact H2].
  destruct Hq as [Hq|Hq]; [|exact Hq]. apply H1 in Hq. contradiction.
Qed.

Lemma step_coherent (e : Ui.Event) (s : Session) (stored : Store) :
  is_answer e = false ->
  coherent s ->
  (forall pages year now, e = Ui.Upload (Parsed pages) year now -> isReviewMode s = false) ->
  coherent (fst (fst (Ui.step e (s, stored)))).
Proof.
  intros Hna Hc Hup. destruct (step_move e s stored Hna) as [Hm Hkind].
  set (s' := fst (fst (Ui.step e (s, stored)))) in *.
  destruct Hm as [Hv|Hp Hq Hr|Hp Hp' Hq Hr|Hp Hp' Hq|Hoff Hp Hq Hr|Hoff Hp Hq Hr].
  - now apply (same_view_coherent s).
  - destruct Hkind as [(pages & year & now & ->)|Hsame].
    + split; [now split|]. rewrite Hr, (Hup pages year now eq_refl). discriminate.
    + apply (same_view_coherent s); [now apply Hsame|exact Hc].
  - destruct Hc as [H1 H2]. split.
    + rewrite Hq. split; [contradiction|discriminate].
    + rewrite Hr. intros H. now specialize (H2 H).
  - destruct Hc as [H1 H2]. split; [now rewrite Hp', Hq|]. now rewrite Hp'.
  - destruct (coherent_finalize s Hc Hoff) as [_ Hne]. split.
    + rewrite Hp, Hq. split; [contradiction|discriminate].
    + rewrite Hr. discriminate.
  - destruct Hc as [H1 H2]. apply downloads_offered_iff in Hoff.
    assert (Hne : editedPages s <> []).
    { intros H. apply H1 in H. destruct Hoff; congruence. }
    split.
    + rewrite Hp, Hq. split; [contradiction|discriminate].
    + now rewrite Hr, Hp.
Qed.

Lemma step_rank (e : Ui.Event) (s : Session) (stored : Store) :
  is_answer e = false ->
  coherent s ->
  let s' := fst (fst (Ui.step e (s, stored))) in
  (exists pages year now, e = Ui.Upload (Parsed pages) year now /\ qcStatus s' = Draft)
  \/ Ui.rank (qcStatus s) <= Ui.rank (qcStatus s') <= Ui.rank (qcStatus s) + 1.
Proof.
  intros Hna Hc. cbn zeta. destruct (step_move e s stored Hna) as [Hm Hkind].
  set (s' := fst (fst (Ui.step e (s, stored)))) in *.
  destruct Hm as [Hv|Hp Hq Hr|Hp Hp' Hq Hr|Hp Hp' Hq|Hoff Hp Hq Hr|Hoff Hp Hq Hr].
  - right. destruct Hv as (_ & -> & _). lia.
  - destruct Hkind as [(pages & year & now & ->)|Hsame].
    + left. now exists pages, year, now.
    + right. destruct (Hsame Hp Hq) as (_ & -> & _). lia.
  - right. rewrite Hq. destruct Hc as [H1 _]. apply H1 in Hp. rewrite Hp. cbn. lia.
  - right. rewrite Hq. lia.
  - right. destruct (coherent_finalize s Hc Hoff) as [-> _]. rewrite Hq. cbn. lia.
  - right. rewrite Hq. apply downloads_offered_iff in Hoff as [-> | ->]; cbn; lia.
Qed.

(** While a call of [handleTranslate] is suspended, the loading flag is on
    and there is no translation yet. *)
Definition in_flight (s : Session) (p : option Flight) : Prop :=
  forall f, p = Some f -> isLoading s = true /\ editedPages s = [].

Lemma at_index_nil {A} (k : Z) : at_index (@nil A) k = None.
Proof. unfold at_index. now destruct (k <? 0)%Z. Qed.

(** No event but an answer ends the loading or brings a translation while
    the loading flag is on. *)
Lemma step_loading (e : Ui.Event) (s : Session) (stored : Store) :
  is_answer e = false ->
  isLoading s = true -> editedPages s = [] ->
  let s' := fst (fst (Ui.step e (s, stored))) in
  isLoading s' = true /\ editedPages s' = [].
Proof.
  intros Hna Hl Hp. cbn zeta.
  destruct e; try discriminate Hna; clear Hna; cbn [Ui.step].
  7: { unfold auto_translate_due. rewrite Hl, andb_false_r. now cbn. }
  24: { unfold auto_translate_due. rewrite Hl, andb_false_r. now cbn. }
  all: open_handlers; rewrite ?Hp, ?at_index_nil; cbn [length Nat.eqb].
  all: split_tests; cbn; auto; try discriminate.
Qed.

(** The answer that ends a suspended translation, or takes it to its next
    request. *)
Lemma landing_in_flight (f : Flight) (r : Gateway.Response) (now1 now2 : nat)
    (s : Session) (stored : Store) :
  coherent s -> isLoading s = true -> editedPages s = [] ->
  let '(s', _, _, p') := landing f r now1 now2 s stored in
  coherent s' /\ in_flight s' p'
  /\ Ui.rank (qcStatus s) <= Ui.rank (qcStatus s') <= Ui.rank (qcStatus s) + 1.
Proof.
  intros Hc Hl Hp. unfold landing, announce.
  destruct r as [|text].
  - split; [|split; [discriminate|cbn; lia]].
    apply (same_view_coherent s); [now apply same_view_fields|exact Hc].
  - destruct (sourcePages (closure f) !! S (index f)) as [page|].
    + split; [|split; [|cbn; lia]].
      * apply (same_view_coherent s); [now apply same_view_fields|exact Hc].
      * intros f' _. now split.
    + destruct Hc as [H1 H2]. split; [|split; [discriminate|]].
      * split; cbn.
        -- split; [intros H; now apply app_eq_nil in H as [_ H]|discriminate].
        -- intros Hr _. now apply (H2 Hr).
      * cbn. apply H1 in Hp. rewrite Hp. cbn. lia.
Qed.

(** One event of a run of the program. *)
Lemma step_in_flight (e : Ui.Event) (s : Session) (stored : Store) (p : option Flight) :
  coherent s -> in_flight s p ->
  (forall pages year now, e = Ui.Upload (Parsed pages) year now -> isReviewMode s = false) ->
  (forall f r now1 now2, e = Ui.TranslationAnswer f r now1 now2 -> p = Some f) ->
  let s' := fst (fst (Ui.step e (s, stored))) in
  coherent s' /\ in_flight s' (Ui.pending_after e (s, stored) p)
  /\ ((exists pages year now, e = Ui.Upload (Parsed pages) year now /\ qcStatus s' = Draft)
      \/ Ui.rank (qcStatus s) <= Ui.rank (qcStatus s') <= Ui.rank (qcStatus s) + 1).
Proof.
  intros Hc Hf Hup Hans. cbn zeta. destruct (is_answer e) eqn:Hna.
  - destruct e; try discriminate Hna.
    destruct (Hf f (Hans f r now1 now2 eq_refl)) as [Hl Hp].
    pose proof (landing_in_flight f r now1 now2 s stored Hc Hl Hp) as H.
    cbn [Ui.step Ui.pending_after].
    destruct (landing f r now1 now2 s stored) as [[[s' st'] eff] p'].
    cbn [fst snd]. destruct H as (H1 & H2 & H3). auto.
  - split; [now apply step_coherent|]. split; [|now apply step_rank].
    assert (Hkeep : in_flight (fst (fst (Ui.step e (s, stored)))) p).
    { intros f Hpf. destruct (Hf f Hpf) as [Hl Hp]. now apply step_loading. }
    destruct e; try exact Hkeep; try discriminate Hna.
    cbn [Ui.pending_after Ui.step] in *.
    destruct (auto_translate_due s) eqn:Hdue; [|exact Hkeep].
    unfold takeoff in *. destruct (sourcePages s) as [|page pages]; [exact Hkeep|].
    cbn [fst] in *. intros f' _. cbn. split; [reflexivity|].
    unfold auto_translate_due in Hdue. apply andb_true_iff in Hdue as [_ Hn].
    apply Nat.eqb_eq in Hn. now apply length_zero_iff_nil.
Qed.

Lemma run_in_flight (events : list Ui.Event) :
  forall w p,
    coherent (fst w) -> in_flight (fst w) p ->
    Ui.uploads_outside_review events w = true -> Ui.flights_tracked events w p ->
    coherent (fst (Ui.run events w))
    /\ in_flight (fst (Ui.run events w)) (Ui.suspended events w p).
Proof.
  induction events as [|e events IH]; intros [s stored] p Hc Hf Hup Htr; [now split|].
  cbn [Ui.uploads_outside_review] in Hup. apply andb_true_iff in Hup as [He Hrest].
  cbn [Ui.flights_tracked] in Htr. destruct Htr as [Hans Htr].
  unfold Ui.run. cbn [fold_left Ui.suspended].
  destruct (step_in_flight e s stored p Hc Hf) as (Hc' & Hf' & _).
  - intros pages year now ->. cbn [fst] in He. now destruct (isReviewMode s).
  - intros f r now1 now2 ->. exact Hans.
  - now apply IH.
Qed.

End WorkflowInvariant.

(** C2 (as amended).  Take any run of the program from the first render in
    which no document is uploaded while review mode is on; the events of a
    run may come while a translation awaits the gateway, and every answer of
    the gateway goes to the call that awaits it.  In the state the run
    reaches: the Finalize button is offered exactly when review mode is
    active and the status is neither QC Finalized nor Downloaded, and then
    the status is QC Pending and finalizing sets it to QC Finalized; with
    the status Draft, or with review mode off, a click on Finalize changes
    nothing; and every further event of the program either uploads a
    document (the status of the new session is Draft) or leaves the status
    where it is or moves it one place forward along Draft, QC Pending,
    QC Finalized, Downloaded: never backward, never over a place. *)
Theorem status_moves_forward (events : list Ui.Event) (stored : Store) :
  Ui.uploads_outside_review events (Tool.initial, stored) = true ->
  Ui.flights_tracked events (Tool.initial, stored) None ->
  let w := Ui.run events (Tool.initial, stored) in
  let s := fst w in
  (finalize_offered s = true
   <-> isReviewMode s = true /\ qcStatus s <> QCFinalized /\ qcStatus s <> Downloaded)
  /\ (finalize_offered s = true -> qcStatus s = QCPending)
  /\ (finalize_offered s = true ->
      qcStatus (fst (fst (Ui.step Ui.Finalize w))) = QCFinalized)
  /\ (qcStatus s = Draft \/ isReviewMode s = false ->
      Ui.step Ui.Finalize w = (w, []))
  /\ (forall e,
      (forall f r now1 now2,
         e = Ui.TranslationAnswer f r now1 now2 ->
         Ui.suspended events (Tool.initial, stored) None = Some f) ->
      let s' := fst (fst (Ui.step e w)) in
      (exists pages year now, e = Ui.Upload (Parsed pages) year now /\ qcStatus s' = Draft)
      \/ Ui.rank (qcStatus s) <= Ui.rank (qcStatus s') <= Ui.rank (qcStatus s) + 1).
Proof.
  intros Hup Htr w s.
  destruct (run_in_flight events (Tool.initial, stored) None) as [Hc Hf];
    [apply coherent_initial|discriminate|exact Hup|exact Htr|].
  fold w in Hc, Hf. fold s in Hc, Hf.
  destruct w as [s0 st] eqn:Hw. cbn [fst] in s. subst s.
  split; [|split; [|split; [|split]]].
  - rewrite finalize_offered_iff. destruct (qcStatus s0); intuition congruence.
  - intros Hoff. now destruct (coherent_finalize s0 Hc Hoff).
  - intros Hoff. cbn [Ui.step]. rewrite Hoff. reflexivity.
  - intros Hno. cbn [Ui.step].
    destruct (finalize_offered s0) eqn:Hoff; [|reflexivity].
    destruct (coherent_finalize s0 Hc Hoff) as [Hq _].
    apply finalize_offered_iff in Hoff as [Hr _]. destruct Hno; congruence.
  - intros e Hans. cbn zeta.
    destruct (is_answer e) eqn:Hna; [|now apply step_rank].
    destruct (step_in_flight e s0 st _ Hc Hf) as (_ & _ & H); [|exact Hans|exact H].
    intros pages year now ->. discriminate Hna.
Qed.

Section DownloadFacts.

(** The status [status] was written to the session's log, when the
    collection holds one: that log, the first with the identifier, has the
    new status and is otherwise as before, and the other logs are as before. *)
Definition status_persisted (id : jsstring) (status : QcStatus) (stored stored' : Store)
    : Prop :=
  match stored with
  | None => stored' = None
  | Some metrics =>
      match findIndex (fun m => string_eqb (Log.id m) id) metrics with
      | None => stored' = stored
      | Some idx =>
          exists log metrics',
            metrics !! idx = Some log
            /\ stored' = Some metrics'
            /\ metrics' !! idx = Some (Log.set_status status log)
            /\ (forall j, j <> idx -> metrics' !! j = metrics !! j)
            /\ length metrics' = length metrics
      end
  end.

Lemma updatePersistentStatus_persisted (id : jsstring) (status : QcStatus) (stored : Store) :
  status_persisted id status stored (updatePersistentStatus id status stored).
Proof.
  unfold status_persisted, updatePersistentStatus.
  destruct stored as [metrics|]; [|reflexivity].
  destruct (findIndex _ metrics) as [idx|] eqn:Hidx; [|reflexivity].
  destruct (findIndex_Some _ _ _ Hidx) as (log & Hlog & _).
  exists log, (alter (Log.set_status status) idx metrics).
  split; [exact Hlog|]. split; [reflexivity|]. split.
  - now rewrite list_lookup_alter_eq, Hlog.
  - split; [|apply length_alter]. intros j Hj. now apply list_lookup_alter_ne.
Qed.

End DownloadFacts.

(** C9 (as amended).  The Word and PDF download buttons are offered exactly
    when the status is QC Finalized or Downloaded, and a click does nothing
    otherwise.  The Word action, and the PDF action when the browser opens
    the print window, set the status in memory to Downloaded and write
    Downloaded to the session's log in the persisted collection, when that
    log is there; when no print window opens the PDF action returns without
    any change.  From Downloaded, every download leaves the status
    Downloaded. *)
Theorem downloads_set_status (s : Session) (stored : Store) :
  (downloads_offered s = true <-> qcStatus s = QCFinalized \/ qcStatus s = Downloaded)
  /\ (downloads_offered s = false ->
      Ui.step Ui.DownloadWord (s, stored) = (s, stored, [])
      /\ forall opened, Ui.step (Ui.DownloadPDF opened) (s, stored) = (s, stored, []))
  /\ (exists stored' effects,
        handleDownloadWord s stored = (set_qcStatus Downloaded s, stored', effects)
        /\ status_persisted (currentLogId s) Downloaded stored stored')
  /\ (exists stored' effects,
        handleDownloadPDF true s stored = (set_qcStatus Downloaded s, stored', effects)
        /\ status_persisted (currentLogId s) Downloaded stored stored')
  /\ handleDownloadPDF false s stored = (s, stored, [])
  /\ (qcStatus s = Downloaded ->
      qcStatus (fst (fst (Ui.step Ui.DownloadWord (s, stored)))) = Downloaded
      /\ forall opened,
           qcStatus (fst (fst (Ui.step (Ui.DownloadPDF opened) (s, stored)))) = Downloaded).
Proof.
  split; [apply downloads_offered_iff|]. split.
  { intros Hoff. cbn [Ui.step]. now rewrite Hoff. }
  split.
  { eexists _, _. split; [reflexivity|]. apply updatePersistentStatus_persisted. }
  split.
  { eexists _, _. split; [reflexivity|]. apply updatePersistentStatus_persisted. }
  split; [reflexivity|].
  intros Hq. cbn [Ui.step]. unfold downloads_offered. rewrite Hq. cbn.
  split; [reflexivity|]. intros [|]; cbn; [reflexivity|exact Hq].
Qed.

(** * Further properties of the code *)

Section TranslateCases.

(** The three ways [handleTranslate] ends. *)
Inductive translate_outcome (s : Session) (stored : Store) (now1 now2 : nat)
    : Session * Store * list Effect -> Prop :=
| outcome_nothing :
    sourcePages s = [] -> translate_outcome s stored now1 now2 (s, stored, [])
| outcome_translated (out : list jsstring) (tr : list Effect) :
    sourcePages s <> [] -> length out = length (sourcePages s) ->
    translate_outcome s stored now1 now2
      (set_progress [] (set_isLoading false (set_qcStatus QCPending (set_editedPages out
         (set_progress (lit "Mapping Intelligence Pipeline...") (set_isLoading true s))))),
       Some (default [] stored ++ [translation_log s now1 now2 out]), tr)
| outcome_failed (tr : list Effect) :
    sourcePages s <> [] ->
    translate_outcome s stored now1 now2
      (set_progress [] (set_isLoading false (set_initiateTranslation false
         (set_progress (lit "Mapping Intelligence Pipeline...") (set_isLoading true s)))),
       stored, tr ++ [Alert (lit "Pipeline Failure")]).

Lemma handleTranslate_outcome (ai : Gateway.Service) (now1 now2 : nat) (s : Session)
    (stored : Store) :
  translate_outcome s stored now1 now2 (handleTranslate ai now1 now2 s stored).
Proof.
  destruct (handleTranslate ai now1 now2 s stored) as [[s' st'] eff] eqn:Hrun.
  unfold handleTranslate, Gateway.translateDocument in Hrun.
  destruct (sourcePages s) as [|p ps] eqn:Hpages.
  { injection Hrun as <- <- <-. now constructor. }
  unfold Gateway.bind at 1 in Hrun.
  destruct (Gateway.translate_from _ _ _ _ _ _ _ _ _) as [[out|] tr] eqn:Hloop.
  - apply translate_from_length in Hloop. cbn [Gateway.ret] in Hrun.
    injection Hrun as <- <- <-.
    replace (match stored with Some m => m | None => [] end) with (default [] stored)
      by now destruct stored.
    pose proof (outcome_translated s stored now1 now2 out tr) as H.
    unfold translation_log in H. rewrite Hpages in H. apply H; [discriminate|].
    cbn in Hloop. cbn. lia.
  - injection Hrun as <- <- <-.
    pose proof (outcome_failed s stored now1 now2 tr) as H. rewrite Hpages in H.
    now apply H.
Qed.

(** What the start of a translation writes. *)
Lemma takeoff_frame (s : Session) (f : Flight) (acc : Session) (effects : list Effect) :
  takeoff s = Some (f, acc, effects) ->
  acc = set_progress (Gateway.progress_message 0 (length (sourcePages s)))
          (set_progress (lit "Mapping Intelligence Pipeline...") (set_isLoading true s))
  /\ f = {| closure := s; index := 0; results := [] |}.
Proof.
  unfold takeoff, announce. destruct (sourcePages s); [discriminate|].
  intros H. injection H as <- <- _. now split.
Qed.

End TranslateCases.

Section Uninterrupted.

Variable ai : Gateway.Service.
Variables now1 now2 : nat.

(** The answers of [ai] to the requests of a translation that nothing
    interrupts, as events: [s0] is the closure of the call, [rest] its input
    from index [i] on, [sent] the prompts it has sent. *)
Fixpoint answers_of (s0 : Session) (rest : list jsstring) (i : nat)
    (results sent : list jsstring) : list Ui.Event :=
  match rest with
  | [] => []
  | page :: rest' =>
      let prompt := Gateway.translate_prompt (targetLanguage s0) (lit "General") page in
      let r := ai sent prompt in
      Ui.TranslationAnswer {| closure := s0; index := i; results := results |} r now1 now2
      :: match r with
         | Gateway.Rejected => []
         | Gateway.Answer text =>
             answers_of s0 rest' (S i) (results ++ [Gateway.or_empty text]) (sent ++ [prompt])
         end
  end.

(** The world a translation ends in, by the result of its loop. *)
Definition ending (s acc : Session) (stored : Store) (out : option (list jsstring))
    : Ui.World :=
  match out with
  | Some pages =>
      (set_progress [] (set_isLoading false (set_qcStatus QCPending (set_editedPages pages acc))),
       Some (default [] stored ++ [translation_log s now1 now2 pages]))
  | None =>
      (set_progress [] (set_isLoading false (set_initiateTranslation false acc)), stored)
  end.

Lemma answers_of_run (s : Session) (stored : Store) (rest : list jsstring) :
  forall (i : nat) (results : list jsstring) (tr : list Effect) (m : jsstring),
    rest <> [] -> drop i (sourcePages s) = rest ->
    let acc := set_progress m (set_isLoading true s) in
    Ui.run (answers_of s rest i results (Gateway.prompts tr)) (acc, stored)
    = ending s (set_isLoading true s) stored
        (fst (Gateway.translate_from ai (targetLanguage s) (lit "General") true
                (length (sourcePages s)) rest i results tr))
    /\ Ui.flights_tracked (answers_of s rest i results (Gateway.prompts tr)) (acc, stored)
         (Some {| closure := s; index := i; results := results |}).
Proof.
  induction rest as [|page rest IH]; intros i results tr m Hne Hdrop; [congruence|].
  cbn zeta. cbn [answers_of Gateway.translate_from].
  unfold Gateway.bind at 1. unfold Gateway.emit. unfold Gateway.bind at 1.
  unfold Gateway.generateContent. rewrite prompts_app. cbn [Gateway.prompts].
  rewrite app_nil_r.
  set (prompt := Gateway.translate_prompt (targetLanguage s) (lit "General") page).
  assert (Hnext : sourcePages s !! S i = head rest).
  { rewrite <- (take_drop i (sourcePages s)) at 1. rewrite Hdrop.
    assert (Hlen : length (take i (sourcePages s)) = i).
    { rewrite length_take. apply (f_equal length) in Hdrop. rewrite length_drop in Hdrop.
      cbn in Hdrop. lia. }
    rewrite lookup_app_r by lia. rewrite Hlen.
    replace (S i - i) with 1 by lia. now destruct rest. }
  destruct (ai (Gateway.prompts tr) prompt) as [|text] eqn:Hai.
  - cbn [fst]. unfold Ui.run. cbn [fold_left Ui.step Ui.flights_tracked].
    unfold landing. cbn [fst snd]. split; [reflexivity|]. now split.
  - unfold Ui.run. cbn [fold_left Ui.flights_tracked Ui.pending_after Ui.step].
    unfold landing. cbn [Tool.closure Tool.index Tool.results]. rewrite Hnext.
    destruct rest as [|page' rest'].
    + cbn [head answers_of fold_left fst snd Gateway.translate_from Gateway.ret
           Ui.flights_tracked].
      split; [|now split].
      unfold ending. now destruct stored.
    + cbn [head]. unfold announce. cbn [fst snd].
      assert (Hdrop' : drop (S i) (sourcePages s) = page' :: rest').
      { replace (S i) with (i + 1) by lia. rewrite <- drop_drop, Hdrop. reflexivity. }
      specialize (IH (S i) (results ++ [Gateway.or_empty text])
                     ((tr ++ [Progress (Gateway.progress_message i (length (sourcePages s)))])
                      ++ [GenerateContent prompt])
                     (Gateway.progress_message (S i) (length (sourcePages s)))
                     ltac:(discriminate) Hdrop').
      cbn zeta in IH. rewrite !prompts_app in IH. cbn [Gateway.prompts] in IH.
      rewrite app_nil_r in IH. destruct IH as [IH1 IH2].
      split; [exact IH1|]. split; [reflexivity|exact IH2].
Qed.

(** The translation that nothing interrupts is a run of the program: the
    start, then the answers of the service one after the other. *)
Lemma uninterrupted_translation (s : Session) (stored : Store) :
  auto_translate_due s = true ->
  Ui.run (Ui.TranslationStart :: answers_of s (sourcePages s) 0 [] []) (s, stored)
  = fst (Ui.step (Ui.TranslationEffect ai now1 now2) (s, stored))
  /\ Ui.flights_tracked (Ui.TranslationStart :: answers_of s (sourcePages s) 0 [] [])
       (s, stored) None.
Proof.
  intros Hdue.
  assert (Hne : sourcePages s <> []).
  { unfold auto_translate_due in Hdue. intros H. rewrite H in Hdue. cbn in Hdue.
    now rewrite andb_false_r in Hdue. }
  destruct (answers_of_run s stored (sourcePages s) 0 [] []
              (Gateway.progress_message 0 (length (sourcePages s))) Hne eq_refl)
    as [Hrun Htr].
  cbn zeta in Hrun, Htr. cbn [Gateway.prompts] in Hrun, Htr.
  unfold Ui.run at 1. cbn [fold_left Ui.flights_tracked Ui.pending_after Ui.step].
  rewrite Hdue. unfold takeoff, announce.
  destruct (sourcePages s) as [|page pages] eqn:Hpages; [congruence|].
  rewrite <- Hpages in *. cbn [fst snd].
  split; [|split; [exact I|exact Htr]].
  fold (Ui.run (answers_of s (sourcePages s) 0 [] [])
          (set_progress (Gateway.progress_message 0 (length (sourcePages s)))
             (set_progress (lit "Mapping Intelligence Pipeline...") (set_isLoading true s)),
           stored)).
  change (set_progress (Gateway.progress_message 0 (length (sourcePages s)))
            (set_progress (lit "Mapping Intelligence Pipeline...") (set_isLoading true s)))
    with (set_progress (Gateway.progress_message 0 (length (sourcePages s)))
            (set_isLoading true s)).
  rewrite Hrun. unfold handleTranslate, Gateway.translateDocument.
  rewrite Hpages. rewrite <- Hpages. unfold Gateway.bind at 1.
  destruct (Gateway.translate_from _ _ _ _ _ _ _ _ _) as [[out|] tr]; cbn [fst ending Gateway.ret].
  - now destruct stored.
  - reflexivity.
Qed.

End Uninterrupted.

Section TimerFacts.

(** The number of ticks among the events. *)
Definition ticks (events : list Ui.Event) : nat :=
  length (List.filter (fun e => match e with Ui.Tick => true | _ => false end) events).

Lemma step_timer (e : Ui.Event) (s : Session) (stored : Store) :
  let s' := fst (fst (Ui.step e (s, stored))) in
  qcSeconds s' = qcSeconds s
  \/ (e = Ui.Tick /\ isReviewMode s = true /\ qcStatus s = QCPending
      /\ isPaused s = false /\ isWordModalOpen s = false
      /\ qcSeconds s' = qcSeconds s + 1).
Proof.
  cbn zeta. destruct e; cbn [Ui.step]; open_handlers.
  all: try (split_tests; cbn; left; reflexivity).
  destruct (isReviewMode s) eqn:Hr; [|now left].
  destruct (qcStatus s) eqn:Hq; try now left.
  destruct (isPaused s) eqn:Hp; [now left|].
  destruct (isWordModalOpen s) eqn:Hm; [now left|].
  right. cbn. repeat split; reflexivity.
Qed.

Lemma run_cons (e : Ui.Event) (events : list Ui.Event) (w : Ui.World) :
  Ui.run (e :: events) w = Ui.run events (fst (Ui.step e w)).
Proof. reflexivity. Qed.

End TimerFacts.

(** X1.  The QC timer: an event leaves the seconds counted as they are, except a
    tick of the clock, which adds one second exactly when review mode is on,
    the status is QC Pending, the voice is not paused and the intervention
    dialog is closed: under these conditions a tick adds one second ([n]
    ticks in a row add [n]), and when one of them fails a tick changes
    nothing.  So along any run the counter never goes down (no event resets
    it, not even the upload of another document) and grows by at most the
    number of ticks. *)
Theorem qc_timer_counts (events : list Ui.Event) (w : Ui.World) :
  (forall e,
     let s := fst w in
     let s' := fst (fst (Ui.step e w)) in
     qcSeconds s' = qcSeconds s
     \/ (e = Ui.Tick /\ isReviewMode s = true /\ qcStatus s = QCPending
         /\ isPaused s = false /\ isWordModalOpen s = false
         /\ qcSeconds s' = qcSeconds s + 1))
  /\ qcSeconds (fst w) <= qcSeconds (fst (Ui.run events w))
     <= qcSeconds (fst w) + ticks events
  /\ (isReviewMode (fst w) = true -> qcStatus (fst w) = QCPending ->
      isPaused (fst w) = false -> isWordModalOpen (fst w) = false ->
      qcSeconds (fst (fst (Ui.step Ui.Tick w))) = qcSeconds (fst w) + 1
      /\ forall n, qcSeconds (fst (Ui.run (repeat Ui.Tick n) w)) = qcSeconds (fst w) + n)
  /\ (isReviewMode (fst w) = false \/ qcStatus (fst w) <> QCPending
      \/ isPaused (fst w) = true \/ isWordModalOpen (fst w) = true ->
      Ui.step Ui.Tick w = (w, [])).
Proof.
  split; [intros e; destruct w as [s stored]; apply step_timer|].
  split.
  { revert w. induction events as [|e events IH]; intros w; [cbn; lia|].
    rewrite run_cons. specialize (IH (fst (Ui.step e w))).
    destruct w as [s stored].
    destruct (step_timer e s stored) as [Hsame|(He & _ & _ & _ & _ & Hplus)];
      destruct (Ui.step e (s, stored)) as [[s' stored'] eff]; cbn [fst] in *.
    - rewrite Hsame in IH. unfold ticks in *. cbn [List.filter].
      destruct e; cbn [length]; lia.
    - subst e. rewrite Hplus in IH. unfold ticks in *. cbn [List.filter length]. lia. }
  split.
  - assert (Htick : forall s stored,
              isReviewMode s = true -> qcStatus s = QCPending ->
              isPaused s = false -> isWordModalOpen s = false ->
              fst (Ui.step Ui.Tick (s, stored)) = (set_qcSeconds (qcSeconds s + 1) s, stored)).
    { intros s stored Hr Hq Hp Hm. cbn [Ui.step]. now rewrite Hr, Hq, Hp, Hm. }
    destruct w as [s stored]. cbn [fst]. intros Hr Hq Hp Hm.
    split; [now rewrite Htick|].
    intros n. revert s Hr Hq Hp Hm. induction n as [|n IH]; intros s Hr Hq Hp Hm.
    + cbn. lia.
    + cbn [repeat]. rewrite run_cons, Htick by assumption.
      rewrite IH by assumption. cbn. lia.
  - destruct w as [s stored]. cbn [fst Ui.step]. intros H.
    destruct (isReviewMode s), (qcStatus s), (isPaused s), (isWordModalOpen s);
      try reflexivity; exfalso; destruct H as [H|[H|[H|H]]]; congruence.
Qed.

Section CursorFacts.

(** The page cursor points at a page of the document. *)
Definition cursor_in_range (s : Session) : Prop :=
  (0 <= currentPage s < Z.of_nat (length (sourcePages s)))%Z.

Lemma step_cursor (e : Ui.Event) (s : Session) (stored : Store) :
  let s' := fst (fst (Ui.step e (s, stored))) in
  (exists pages year now, e = Ui.Upload (Parsed pages) year now)
  \/ (sourcePages s' = sourcePages s
      /\ (currentPage s' = currentPage s
          \/ (e = Ui.PrevPage /\ currentPage s' = Z.max 0 (currentPage s - 1))
          \/ (e = Ui.NextPage
              /\ currentPage s'
                 = Z.min (Z.of_nat (length (sourcePages s)) - 1) (currentPage s + 1)))).
Proof.
  cbn zeta. destruct e; cbn [Ui.step].
  7: { right. destruct (auto_translate_due s); [|now split; [|left]].
       destruct (handleTranslate_outcome ai now1 now2 s stored); cbn;
         (split; [reflexivity|left; reflexivity]). }
  24: { right. destruct (auto_translate_due s); [|now split; [|left]].
        destruct (takeoff s) as [[[f acc] eff]|] eqn:E; [|now split; [|left]].
        apply takeoff_frame in E as [-> _]. now split; [|left]. }
  all: open_handlers.
  all: try (right; split_tests; cbn; (split; [reflexivity|left; reflexivity])).
  - destruct file; [right; cbn; (split; [reflexivity|left; reflexivity])..|left; eauto].
  - right. cbn. split; [reflexivity|]. right. left. now split.
  - right. cbn. split; [reflexivity|]. right. right. now split.
Qed.

End CursorFacts.

(** X2.  Page navigation stays on the document.  No event other than the upload
    of a readable file changes the source pages, and none of them moves a
    cursor that points at a page off the pages: the previous-page button
    stops at the first page and the next-page button at the last. *)
Theorem page_cursor_stays_in_range (e : Ui.Event) (s : Session) (stored : Store) :
  (forall pages year now, e <> Ui.Upload (Parsed pages) year now) ->
  cursor_in_range s ->
  let s' := fst (fst (Ui.step e (s, stored))) in
  cursor_in_range s' /\ sourcePages s' = sourcePages s.
Proof.
  intros Hnot Hin. cbn zeta. unfold cursor_in_range in *.
  destruct (step_cursor e s stored) as [(p & y & n & ->)|[Hpages Hcur]].
  - now specialize (Hnot p y n).
  - cbn zeta in *. rewrite Hpages. split; [|reflexivity].
    destruct Hcur as [->|[[_ ->]|[_ ->]]]; lia.
Qed.

(** X3.  Two ways the cursor leaves the document.  With no document loaded the
    next-page button moves the cursor from the first page to -1, where
    there is no page.  And an upload does not move the cursor: after the
    upload of a document with fewer pages than the cursor's position, the
    cursor points past its last page. *)
Theorem cursor_leaves_the_document (s : Session) (stored : Store) :
  (sourcePages s = [] -> (0 <= currentPage s)%Z ->
   let s' := fst (fst (Ui.step Ui.NextPage (s, stored))) in
   currentPage s' = (-1)%Z
   /\ at_index (sourcePages s') (currentPage s') = None
   /\ at_index (editedPages s') (currentPage s') = None)
  /\ (forall pages year now,
        (Z.of_nat (length pages) <= currentPage s)%Z ->
        let s' := fst (fst (Ui.step (Ui.Upload (Parsed pages) year now) (s, stored))) in
        currentPage s' = currentPage s
        /\ sourcePages s' = pages
        /\ at_index (sourcePages s') (currentPage s') = None).
Proof.
  split.
  - intros Hnil Hpos. cbn. rewrite Hnil. cbn [length].
    split; [lia|]. unfold at_index.
    replace (Z.min (Z.of_nat 0 - 1) (currentPage s + 1)) with (-1)%Z by lia.
    split; reflexivity.
  - intros pages year now Hlen. cbn. split; [reflexivity|]. split; [reflexivity|].
    unfold at_index. destruct (Z.ltb_spec (currentPage s) 0); [reflexivity|].
    apply lookup_ge_None. lia.
Qed.

(** X4.  The translation effect does not loop: whatever [handleTranslate] did
    (nothing, a translation, a failure), the condition that starts a
    translation is false afterwards, so a second run of the effect leaves the
    state and the persisted collection as they are and sends nothing. *)
Theorem translation_effect_runs_once (ai ai' : Gateway.Service) (now1 now2 now3 now4 : nat)
    (s : Session) (stored : Store) :
  auto_translate_due (fst (fst (handleTranslate ai now1 now2 s stored))) = false
  /\ Ui.step (Ui.TranslationEffect ai' now3 now4)
             (fst (Ui.step (Ui.TranslationEffect ai now1 now2) (s, stored)))
     = (fst (Ui.step (Ui.TranslationEffect ai now1 now2) (s, stored)), []).
Proof.
  assert (Hdue : auto_translate_due (fst (fst (handleTranslate ai now1 now2 s stored)))
                 = false).
  { destruct (handleTranslate_outcome ai now1 now2 s stored) as [Hp|out tr Hp Hlen|tr Hp];
      unfold auto_translate_due; cbn.
    - rewrite Hp. cbn. now rewrite andb_false_r.
    - destruct out; [cbn in Hlen; destruct (sourcePages s); [easy|discriminate]|].
      cbn. now rewrite andb_false_r.
    - reflexivity. }
  split; [exact Hdue|].
  assert (Hstay : forall s' st', auto_translate_due s' = false ->
            Ui.step (Ui.TranslationEffect ai' now3 now4) (s', st') = ((s', st'), [])).
  { intros s' st' H. cbn [Ui.step]. now rewrite H. }
  change (Ui.step (Ui.TranslationEffect ai now1 now2) (s, stored))
    with (if auto_translate_due s then handleTranslate ai now1 now2 s stored
          else ((s, stored), [])).
  destruct (auto_translate_due s) eqn:Hs.
  - destruct (handleTranslate ai now1 now2 s stored) as [[s' st'] eff].
    cbn [fst] in *. now apply Hstay.
  - cbn [fst]. now apply Hstay.
Qed.

Section StatusWrites.

Lemma findIndex_alter {A} (p : A -> bool) (f : A -> A) (l : list A) (i : nat) :
  (forall x, p (f x) = p x) -> findIndex p (alter f i l) = findIndex p l.
Proof.
  intros Hp. revert i. induction l as [|x l IH]; intros i; [reflexivity|].
  destruct i as [|i]; cbn [alter list_alter findIndex].
  - now rewrite Hp.
  - change (list_alter f i l) with (alter f i l). now rewrite IH.
Qed.

Lemma alter_alter_same {A} (f g : A -> A) (l : list A) (i : nat) :
  alter f i (alter g i l) = alter (fun x => f (g x)) i l.
Proof.
  revert i. induction l as [|x l IH]; intros i; [reflexivity|].
  destruct i as [|i]; cbn [alter list_alter]; [reflexivity|].
  f_equal. apply IH.
Qed.

Lemma alter_alter_other {A} (f g : A -> A) (l : list A) (i j : nat) :
  i <> j -> alter f i (alter g j l) = alter g j (alter f i l).
Proof.
  revert i j. induction l as [|x l IH]; intros i j Hij; [reflexivity|].
  destruct i as [|i], j as [|j]; cbn [alter list_alter]; try reflexivity; [lia|].
  f_equal. apply IH. lia.
Qed.

Lemma alter_ext_in {A} (f g : A -> A) (l : list A) (i : nat) :
  (forall x, f x = g x) -> alter f i l = alter g i l.
Proof.
  intros H. revert i. induction l as [|x l IH]; intros i; [reflexivity|].
  destruct i as [|i]; cbn [alter list_alter]; [now rewrite H|].
  f_equal. apply IH.
Qed.

Lemma string_eqb_eq (a b : jsstring) : string_eqb a b = true <-> a = b.
Proof.
  revert b. induction a as [|x a IH]; intros [|y b]; cbn [string_eqb]; try easy.
  unfold code_eqb. rewrite andb_true_iff, N.eqb_eq, IH. split.
  - now intros [-> ->].
  - intros H. now injection H.
Qed.

(** Two different identifiers are not found at the same index. *)
Lemma findIndex_ids (id1 id2 : jsstring) (logs : list TranslationLog) (i j : nat) :
  string_eqb id1 id2 = false ->
  findIndex (fun m => string_eqb (Log.id m) id1) logs = Some i ->
  findIndex (fun m => string_eqb (Log.id m) id2) logs = Some j ->
  i <> j.
Proof.
  intros Hne Hi Hj ->.
  destruct (findIndex_Some _ _ _ Hi) as (l1 & Hl1 & H1).
  destruct (findIndex_Some _ _ _ Hj) as (l2 & Hl2 & H2).
  rewrite Hl1 in Hl2. injection Hl2 as <-.
  apply string_eqb_eq in H1, H2. rewrite <- H1, <- H2 in Hne.
  assert (string_eqb (Log.id l1) (Log.id l1) = true) by now apply string_eqb_eq.
  congruence.
Qed.

End StatusWrites.

(** X5.  Writes of the status compose as writes to one field of one record: a
    second write for the same log replaces the first (writing twice is
    writing once), no write changes which log an identifier finds, and
    writes for two different identifiers can be made in either order. *)
Theorem status_writes_compose (id1 id2 : jsstring) (a b : QcStatus) (stored : Store) :
  updatePersistentStatus id1 a (updatePersistentStatus id1 b stored)
  = updatePersistentStatus id1 a stored
  /\ (string_eqb id1 id2 = false ->
      updatePersistentStatus id1 a (updatePersistentStatus id2 b stored)
      = updatePersistentStatus id2 b (updatePersistentStatus id1 a stored)).
Proof.
  assert (Hkeep : forall id q logs i,
            findIndex (fun m => string_eqb (Log.id m) id) (alter (Log.set_status q) i logs)
            = findIndex (fun m => string_eqb (Log.id m) id) logs).
  { intros. now apply findIndex_alter. }
  unfold updatePersistentStatus. destruct stored as [logs|]; [|now split].
  split.
  - destruct (findIndex _ logs) as [i|] eqn:Hi; [|now rewrite Hi].
    rewrite Hkeep, Hi, alter_alter_same. reflexivity.
  - intros Hne.
    destruct (findIndex (fun m => string_eqb (Log.id m) id2) logs) as [j|] eqn:Hj;
      destruct (findIndex (fun m => string_eqb (Log.id m) id1) logs) as [i|] eqn:Hi;
      rewrite ?Hkeep, ?Hi, ?Hj; try reflexivity.
    f_equal. apply alter_alter_other. now apply (findIndex_ids id1 id2 logs).
Qed.

Section StoreWrites.

(** The writes of the component to the persisted collection. *)
Inductive store_write (s : Session) (stored : Store) : Store -> Prop :=
| write_none : store_write s stored stored
| write_status (q : QcStatus) :
    q = QCFinalized \/ q = Downloaded ->
    store_write s stored (updatePersistentStatus (currentLogId s) q stored)
| write_intervention (r : CorrectionRationale) :
    store_write s stored (persist_intervention (currentLogId s) r stored)
| write_log (s0 : Session) (now1 now2 : nat) (out : list jsstring) :
    store_write s stored (Some (default [] stored ++ [translation_log s0 now1 now2 out])).

Lemma confirmIntervention_write (now : nat) (synth : Synth) (s : Session) (stored : Store)
    (s' : Session) (stored' : Store) (effects : list Effect) :
  confirmIntervention now synth s stored = Some (s', stored', effects) ->
  store_write s stored stored'.
Proof.
  unfold confirmIntervention. intros Hrun.
  destruct (selectedWordData s) as [[word index]|];
    [|injection Hrun as _ <- _; constructor].
  destruct (selectedAlt s); [injection Hrun as _ <- _; constructor|].
  destruct (rationaleText s); [injection Hrun as _ <- _; constructor|].
  destruct (at_index (editedPages s) (currentPage s)); [|discriminate].
  destruct (handleResumeReading _ _ _) in Hrun. injection Hrun as _ <- _.
  constructor.
Qed.

(** Every event writes the collection in one of these ways. *)
Lemma step_store_write (e : Ui.Event) (s : Session) (stored : Store) :
  store_write s stored (snd (fst (Ui.step e (s, stored)))).
Proof.
  destruct e; cbn [Ui.step Ui.pure fst snd]; try constructor.
  - destruct (auto_translate_due s); [|constructor].
    destruct (handleTranslate_outcome ai now1 now2 s stored); constructor.
  - destruct (review_toggle_enabled s); constructor.
  - destruct (length (editedPages s) =? 0); [constructor|].
    destruct (isReading s && negb (isPaused s)); constructor.
  - destruct (length (editedPages s) =? 0); constructor.
  - destruct (isReviewMode s && status_eqb (qcStatus s) QCPending
              && negb (isPaused s) && negb (isWordModalOpen s)); constructor.
  - destruct (displayed_words s !! i); [|constructor].
    destruct (isLoading s); [constructor|]. destruct (isReviewMode s); constructor.
  - destruct (isWordModalOpen s); constructor.
  - destruct (isWordModalOpen s); constructor.
  - destruct (isWordModalOpen s); constructor.
  - destruct (isWordModalOpen s); constructor.
  - destruct (isWordModalOpen s); constructor.
  - destruct (isWordModalOpen s); [|constructor].
    destruct (confirmIntervention now synth s stored) as [[[s' st'] eff]|] eqn:Hrun;
      [|constructor].
    now apply confirmIntervention_write in Hrun.
  - destruct (finalize_offered s); [|constructor].
    unfold finalizeVerification. cbn. apply write_status. now left.
  - destruct (downloads_offered s); [|constructor]. cbn. apply write_status. now right.
  - destruct (downloads_offered s); [|constructor].
    unfold handleDownloadPDF. destruct opened; cbn; [|constructor].
    apply write_status. now right.
  - pose proof (takeoff_store s stored) as E. cbn [Ui.step] in E. rewrite E. constructor.
  - unfold landing. destruct r as [|text]; [constructor|].
    destruct (sourcePages (closure f) !! S (index f)); [constructor|]. cbn [fst snd].
    replace (match stored with Some m => m | None => [] end) with (default [] stored)
      by now destruct stored.
    constructor.
Qed.

(** A property of the collection kept by each of the writes is kept along
    every run. *)
Lemma run_store_invariant (P : Store -> Prop) :
  (forall s stored stored', P stored -> store_write s stored stored' -> P stored') ->
  forall events w, P (snd w) -> P (snd (Ui.run events w)).
Proof.
  intros Hstep events. induction events as [|e events IH]; intros w H; [exact H|].
  rewrite run_cons. apply IH. destruct w as [s stored].
  apply (Hstep s stored); [exact H|apply step_store_write].
Qed.

(** What no write changes of a log: everything but the status, the
    rationales and the two scores. *)
Definition core (l : TranslationLog) : TranslationLog :=
  Log.set_status Draft
    (Log.set_rationales [] (Log.set_mqmErrorScore None (Log.set_qualityScore None l))).

(** The log [l'] is the log [l] after some writes. *)
Definition kept (l l' : TranslationLog) : Prop :=
  core l' = core l /\ Log.rationales l `prefix_of` Log.rationales l'.

(** The collection [stored'] holds the logs of [stored], each at its index. *)
Definition grows (stored stored' : Store) : Prop :=
  forall logs, stored = Some logs ->
  exists logs', stored' = Some logs'
    /\ length logs <= length logs'
    /\ forall i l, logs !! i = Some l -> exists l', logs' !! i = Some l' /\ kept l l'.

Lemma kept_refl (l : TranslationLog) : kept l l.
Proof. split; reflexivity. Qed.

Lemma kept_trans (a b c : TranslationLog) : kept a b -> kept b c -> kept a c.
Proof. intros [H1 H2] [H3 H4]. split; [congruence|]. now transitivity (Log.rationales b). Qed.

Lemma grows_refl (stored : Store) : grows stored stored.
Proof.
  intros logs ->. exists logs. split; [reflexivity|]. split; [lia|].
  intros i l H. exists l. split; [exact H|apply kept_refl].
Qed.

Lemma grows_trans (a b c : Store) : grows a b -> grows b c -> grows a c.
Proof.
  intros Hab Hbc logs Ha. destruct (Hab logs Ha) as (logs' & Hb & Hlen & Hl).
  destruct (Hbc logs' Hb) as (logs'' & Hc & Hlen' & Hl').
  exists logs''. split; [exact Hc|]. split; [lia|].
  intros i l Hi. destruct (Hl i l Hi) as (l' & Hi' & Hk).
  destruct (Hl' i l' Hi') as (l'' & Hi'' & Hk').
  exists l''. split; [exact Hi''|]. now apply (kept_trans l l' l'').
Qed.

Lemma store_write_grows (s : Session) (stored stored' : Store) :
  store_write s stored stored' -> grows stored stored'.
Proof.
  intros [|q _|r|s0 now1 now2 out]; [apply grows_refl| | |]; intros logs ->.
  - unfold updatePersistentStatus.
    destruct (findIndex _ logs) as [idx|]; [|now apply grows_refl].
    eexists. split; [reflexivity|]. rewrite length_alter. split; [lia|].
    intros i l Hi. destruct (decide (i = idx)) as [->|Hne].
    + rewrite list_lookup_alter_eq, Hi. eexists. split; [reflexivity|].
      split; reflexivity.
    + rewrite list_lookup_alter_ne by congruence. exists l. split; [exact Hi|apply kept_refl].
  - unfold persist_intervention.
    destruct (findIndex _ logs) as [idx|]; [|now apply grows_refl].
    destruct (logs !! idx) as [log|] eqn:Hlog; [|now apply grows_refl].
    eexists. split; [reflexivity|]. rewrite length_insert. split; [lia|].
    intros i l Hi. destruct (decide (i = idx)) as [->|Hne].
    + rewrite list_lookup_insert_eq by now apply lookup_lt_Some in Hi.
      eexists. split; [reflexivity|]. rewrite Hlog in Hi. injection Hi as <-.
      split; [reflexivity|]. cbn. now apply prefix_app_r.
    + rewrite list_lookup_insert_ne by congruence. exists l. split; [exact Hi|apply kept_refl].
  - eexists. split; [reflexivity|]. change (default [] (Some logs)) with logs.
    rewrite length_app. split; [lia|].
    intros i l Hi. exists l. split; [|apply kept_refl].
    now apply lookup_app_l_Some.
Qed.

End StoreWrites.

(** X6.  The persisted collection only grows.  Along any run the key, once
    there, is never removed; a log stays at its index; its identifier,
    tracking identifier, counts, languages, time stamps, cost, QC time and
    time codes are never rewritten; and its rationales are only appended to.
    Only the status and the two scores of a stored log are overwritten. *)
Theorem store_only_grows (events : list Ui.Event) (w : Ui.World) (logs : list TranslationLog) :
  snd w = Some logs ->
  exists logs',
    snd (Ui.run events w) = Some logs'
    /\ length logs <= length logs'
    /\ forall i l, logs !! i = Some l ->
       exists l', logs' !! i = Some l'
         /\ core l' = core l
         /\ Log.rationales l `prefix_of` Log.rationales l'.
Proof.
  intros Hw.
  apply (run_store_invariant (grows (snd w))); [|apply grows_refl|exact Hw].
  intros s stored stored' H Hwrite.
  apply (grows_trans _ stored); [exact H|]. now apply (store_write_grows s).
Qed.

Section TimeFacts.

(** A log as the tool leaves it: no QC time, one time code. *)
Definition untimed (l : TranslationLog) : Prop :=
  Log.qcTimeSpentSeconds l = 0 /\ length (Log.workflowTimeCodes l) = 1.

Definition store_untimed (stored : Store) : Prop := Forall untimed (default [] stored).

Lemma store_write_untimed (s : Session) (stored stored' : Store) :
  store_untimed stored -> store_write s stored stored' -> store_untimed stored'.
Proof.
  unfold store_untimed. intros H [|q _|r|s0 now1 now2 out]; [exact H| | |].
  - unfold updatePersistentStatus. destruct stored as [logs|]; [|exact H].
    destruct (findIndex _ logs) as [idx|]; [|exact H].
    apply Forall_alter; [exact H|]. intros l _ Hl. exact Hl.
  - unfold persist_intervention. destruct stored as [logs|]; [|exact H].
    destruct (findIndex _ logs) as [idx|]; [|exact H].
    destruct (logs !! idx) as [log|] eqn:Hlog; [|exact H].
    apply Forall_insert; [exact H|].
    apply (Forall_lookup_1 _ _ _ _ H Hlog).
  - change (default [] (Some ?x)) with x. apply Forall_app. split; [exact H|].
    constructor; [|constructor]. split; reflexivity.
Qed.

End TimeFacts.

(** X7.  The review time is never persisted.  The seconds the QC timer counts
    stay in the session: whatever the events, a collection whose logs have no
    QC time and one time code (the empty collection, or one written by the
    tool) is left with only such logs.  No handler writes
    [qcTimeSpentSeconds] or adds a time code after START. *)
Theorem qc_time_is_never_persisted (events : list Ui.Event) (w : Ui.World) :
  store_untimed (snd w) -> store_untimed (snd (Ui.run events w)).
Proof.
  apply (run_store_invariant store_untimed). intros s stored stored'.
  apply store_write_untimed.
Qed.

Section RationaleFacts.

Lemma step_rationales (e : Ui.Event) (s : Session) (stored : Store) :
  let s' := fst (fst (Ui.step e (s, stored))) in
  rationales s' = rationales s
  \/ exists now synth r,
       e = Ui.Confirm now synth /\ rationales s' = rationales s ++ [r]
       /\ Rationale.updatedText r = selectedAlt s
       /\ Rationale.pageIndex r = currentPage s.
Proof.
  cbn zeta. destruct e; cbn [Ui.step].
  7: { left. destruct (auto_translate_due s); [|reflexivity].
       now destruct (handleTranslate_outcome ai now1 now2 s stored). }
  all: open_handlers.
  all: try (left; split_tests; reflexivity).
  destruct (isWordModalOpen s); [|now left].
  destruct (selectedWordData s) as [[word index]|]; [|now left].
  destruct (selectedAlt s) as [|c alt] eqn:Halt; [now left|].
  destruct (rationaleText s); [now left|].
  destruct (at_index (editedPages s) (currentPage s)); [|now left].
  right. exists now, synth. eexists. split; [reflexivity|].
  split_tests; cbn; (split; [reflexivity|split; reflexivity]).
Qed.

End RationaleFacts.

(** X8.  The interventions counted in the session (the Points Captured figure)
    are never reset: an event leaves the session's rationales as they are,
    except a confirmed intervention, which appends one.  So along any run the
    list only grows, and the upload of another document keeps the
    interventions made on the document before. *)
Theorem session_rationales_only_grow (events : list Ui.Event) (w : Ui.World) :
  rationales (fst w) `prefix_of` rationales (fst (Ui.run events w))
  /\ forall file year now,
       rationales (fst (fst (Ui.step (Ui.Upload file year now) w))) = rationales (fst w).
Proof.
  split.
  - revert w. induction events as [|e events IH]; intros w; [reflexivity|].
    rewrite run_cons. etransitivity; [|apply IH]. destruct w as [s stored].
    destruct (step_rationales e s stored) as [H|(now & synth & r & _ & H & _)];
      cbn zeta in H; cbn [fst]; rewrite H; [reflexivity|now apply prefix_app_r].
  - intros file year now. destruct w as [s stored].
    destruct (step_rationales (Ui.Upload file year now) s stored)
      as [H|(n & sy & r & He & _)]; [exact H|discriminate].
Qed.

Section IsolationFacts.

Lemma found_id (id : jsstring) (logs : list TranslationLog) (idx : nat) (l : TranslationLog) :
  findIndex (fun m => string_eqb (Log.id m) id) logs = Some idx ->
  logs !! idx = Some l -> Log.id l = id.
Proof.
  intros Hidx Hl. destruct (findIndex_Some _ _ _ Hidx) as (l' & Hl' & Heq).
  rewrite Hl in Hl'. injection Hl' as <-. now apply string_eqb_eq.
Qed.

Lemma store_write_others (s : Session) (stored stored' : Store) (logs : list TranslationLog) :
  store_write s stored stored' -> stored = Some logs ->
  exists logs', stored' = Some logs'
    /\ forall i l, logs !! i = Some l -> Log.id l <> currentLogId s -> logs' !! i = Some l.
Proof.
  intros [|q _|r|s0 now1 now2 out] ->.
  - now exists logs.
  - unfold updatePersistentStatus.
    destruct (findIndex _ logs) as [idx|] eqn:Hidx; [|now exists logs].
    eexists. split; [reflexivity|]. intros i l Hl Hne.
    rewrite list_lookup_alter_ne; [exact Hl|].
    intros <-. apply Hne. now apply (found_id _ logs idx).
  - unfold persist_intervention.
    destruct (findIndex _ logs) as [idx|] eqn:Hidx; [|now exists logs].
    destruct (logs !! idx) as [log|] eqn:Hlog; [|now exists logs].
    eexists. split; [reflexivity|]. intros i l Hl Hne.
    rewrite list_lookup_insert_ne; [exact Hl|].
    intros <-. apply Hne. now apply (found_id _ logs idx).
  - eexists. split; [reflexivity|]. intros i l Hl _.
    change (default [] (Some logs)) with logs. now apply lookup_app_l_Some.
Qed.

End IsolationFacts.

(** X9.  An event writes only to the log of the session.  Whatever the event,
    every stored log whose identifier is not the session's log identifier is
    afterwards at the same index, unchanged.  So once another document is
    uploaded (the session takes a new log identifier), the log of the
    earlier document keeps the status it had. *)
Theorem events_write_only_the_session_log (e : Ui.Event) (s : Session)
    (logs : list TranslationLog) :
  exists logs',
    snd (fst (Ui.step e (s, Some logs))) = Some logs'
    /\ forall i l, logs !! i = Some l -> Log.id l <> currentLogId s -> logs' !! i = Some l.
Proof.
  apply (store_write_others s (Some logs)); [apply step_store_write|reflexivity].
Qed.

(** X10.  The persisted scores stay those of the rationales.  Along any run, when
    every stored log either has no rationale and no score, or has as error
    score the weighted count of its rationales and as quality score the
    value of the formula for that count and its words, the same holds of
    every log afterwards. *)
Theorem persisted_scores_stay_consistent (events : list Ui.Event) (w : Ui.World) :
  store_consistent (snd w) -> store_consistent (snd (Ui.run events w)).
Proof. apply run_store_consistent. Qed.

Section LeadingSpace.

Lemma split_go_skip (w t : jsstring) :
  blank w -> split_go true [] (w ++ t) = split_go true [] t.
Proof.
  induction 1 as [|c w Hc _ IH]; [reflexivity|].
  cbn [app split_go]. now rewrite Hc.
Qed.

Lemma split_go_fresh (t : jsstring) :
  starts_with_ws t = false -> split_go true [] t = split_go false [] t.
Proof.
  destruct t as [|c t]; [reflexivity|]. cbn [starts_with_ws split_go]. now intros ->.
Qed.

(** A page that starts with white space has an empty first piece, followed
    by the pieces of the page without that white space. *)
Lemma split_leading (page : jsstring) :
  starts_with_ws page = true -> split_ws page = [] :: split_ws (trimStart page).
Proof.
  intros Hstart. destruct (trimStart_split page) as (w & Hpage & Hw & Hclean).
  remember (trimStart page) as t eqn:Et. rewrite Hpage.
  destruct w as [|c w].
  { cbn [app] in Hpage. rewrite <- Hpage in Hclean. congruence. }
  inversion Hw as [|? ? Hc Hw']; subst. unfold split_ws. cbn [app split_go].
  rewrite Hc. rewrite split_go_skip by assumption. now rewrite split_go_fresh.
Qed.

Lemma trim_leading (w t : jsstring) : blank w -> trim (w ++ t) = trim t.
Proof. intros H. unfold trim. now rewrite trimStart_blank. Qed.

Lemma split_trimmed_words (ts tail : list jsstring) :
  ts <> [] -> Forall is_word ts -> tail = [] \/ tail = [[]] ->
  split_ws (trim (join (lit " ") (ts ++ tail))) = ts.
Proof.
  intros Hne Hwords [-> | ->].
  - rewrite app_nil_r. unfold trim.
    rewrite trimStart_id by now apply join_words_start.
    rewrite trimEnd_id by now apply join_words_end.
    now apply split_join_words.
  - rewrite join_snoc_empty by assumption. unfold trim. rewrite trimStart_id.
    + rewrite trimEnd_blank by (now repeat constructor).
      rewrite trimEnd_id by now apply join_words_end.
      now apply split_join_words.
    + pose proof (join_words_start _ Hne Hwords) as H.
      pose proof (join_words_nonempty _ Hne Hwords) as H'.
      destruct (join (lit " ") ts); [congruence|exact H].
Qed.

(** The displayed words after an intervention at [index] on a page that
    starts with white space. *)
Lemma replace_shifted (page alt : jsstring) (index : nat) :
  starts_with_ws page = true -> trim page <> [] -> is_word alt ->
  index < length (split_ws (trim page)) ->
  split_ws (trim (join (lit " ") (array_set (split_ws page) index alt)))
  = match index with
    | 0 => alt :: split_ws (trim page)
    | S j => <[j := alt]> (split_ws (trim page))
    end.
Proof.
  intros Hstart Hne Halt Hidx.
  destruct (trimStart_split page) as (w & Hpage & Hw & Hclean).
  rewrite (split_leading page) by assumption.
  remember (trimStart page) as page0 eqn:E0.
  assert (Htrim : trim page = trim page0).
  { rewrite Hpage. now apply trim_leading. }
  rewrite Htrim in *.
  assert (Hp0 : page0 <> []) by (intros H; rewrite H in Hne; now apply Hne).
  destruct (split_page page0 Hclean) as (tail & Hsplit & Htail & Hwords & _).
  specialize (Hwords Hp0).
  set (shown := split_ws (trim page0)) in *.
  assert (Hshown : shown <> []) by (intros H; rewrite H in Hidx; cbn in Hidx; lia).
  assert (Hset : array_set ([] :: split_ws page0) index alt
                 = <[index := alt]> ([] :: split_ws page0)).
  { unfold array_set. rewrite Hsplit. cbn [length]. rewrite length_app.
    destruct (Nat.ltb_spec index (S (length shown + length tail))); [reflexivity|lia]. }
  rewrite Hset. destruct index as [|j].
  - cbn [insert list_insert]. rewrite Hsplit.
    change (alt :: shown ++ tail) with ((alt :: shown) ++ tail).
    apply split_trimmed_words; [discriminate|now constructor|exact Htail].
  - change (<[S j := alt]> ([] :: split_ws page0)) with ([] :: <[j := alt]> (split_ws page0)).
    rewrite join_cons.
    2: { intros H. apply (f_equal length) in H. rewrite length_insert, Hsplit, length_app in H.
         destruct shown; [congruence|cbn in H; lia]. }
    cbn [app]. change (lit " " ++ ?x) with ([32%N] ++ x).
    rewrite trim_leading by (now repeat constructor).
    destruct (replace_word page0 alt j Hclean Halt) as (Hset0 & Hshown0 & _); [fold shown; lia|].
    rewrite Hset0 in Hshown0. exact Hshown0.
Qed.

End LeadingSpace.

(** X11.  An intervention on a page that starts with white space misses the word
    that was clicked.  The words shown are the pieces of the trimmed page,
    the intervention replaces a piece of the untrimmed one, whose first
    piece is empty.  So with the first word selected the replacement is put
    in front of the page and no word is removed, and with a later word
    selected it is the word before it that is replaced. *)
Theorem intervention_after_leading_space (now : nat) (synth : Synth)
    (s : Session) (stored : Store) (word : jsstring) (index : nat) (page : jsstring) :
  selectedWordData s = Some (word, index) ->
  rationaleText s <> [] ->
  at_index (editedPages s) (currentPage s) = Some page ->
  starts_with_ws page = true ->
  trim page <> [] ->
  is_word (selectedAlt s) ->
  index < length (split_ws (trim page)) ->
  exists s' stored' effects page',
    confirmIntervention now synth s stored = Some (s', stored', effects)
    /\ at_index (editedPages s') (currentPage s) = Some page'
    /\ split_ws (trim page')
       = match index with
         | 0 => selectedAlt s :: split_ws (trim page)
         | S j => <[j := selectedAlt s]> (split_ws (trim page))
         end.
Proof.
  intros Hsel Hrat Hpage Hstart Hne Halt Hidx.
  destruct (confirmIntervention_run now synth s stored word index page
              Hsel (proj1 Halt) Hrat Hpage)
    as (s' & effects & r & Hrun & Hpages & _).
  eexists s', _, effects, _. split; [exact Hrun|].
  rewrite Hpages. split; [now apply (at_index_insert_same _ _ page)|].
  now apply replace_shifted.
Qed.

(** X12.  A confirmation with no page under the cursor throws.  [confirmIntervention]
    fails (a [TypeError], before any state is written) exactly when a word is
    selected, the replacement and the rationale are given, and the edited
    pages have no page at the cursor.  An upload does not close the dialog,
    so a confirmation in a dialog left open across an upload fails in this
    way, and the event then leaves the session and the collection as they
    are. *)
Theorem confirm_without_page_throws (now : nat) (synth : Synth) (s : Session)
    (stored : Store) :
  (confirmIntervention now synth s stored = None
   <-> selectedWordData s <> None /\ selectedAlt s <> [] /\ rationaleText s <> []
       /\ at_index (editedPages s) (currentPage s) = None)
  /\ forall pages year n,
       selectedWordData s <> None -> selectedAlt s <> [] -> rationaleText s <> [] ->
       let s' := fst (handleFileUpload (Parsed pages) year n s stored) in
       isWordModalOpen s' = isWordModalOpen s
       /\ confirmIntervention now synth s' stored = None
       /\ Ui.step (Ui.Confirm now synth) (s', stored) = ((s', stored), []).
Proof.
  assert (Hiff : forall s0,
            confirmIntervention now synth s0 stored = None
            <-> selectedWordData s0 <> None /\ selectedAlt s0 <> [] /\ rationaleText s0 <> []
                /\ at_index (editedPages s0) (currentPage s0) = None).
  { intros s0. unfold confirmIntervention.
    destruct (selectedWordData s0) as [[word index]|]; [|split; [discriminate|tauto]].
    destruct (selectedAlt s0) as [|a alt]; [split; [discriminate|tauto]|].
    destruct (rationaleText s0) as [|b rat]; [split; [discriminate|tauto]|].
    destruct (at_index (editedPages s0) (currentPage s0)) as [page|].
    - destruct (handleResumeReading _ _ _). split; [discriminate|].
      intros (_ & _ & _ & H). discriminate.
    - split; [|reflexivity]. intros _. repeat split; discriminate. }
  split; [apply Hiff|]. intros pages year n Hsel Halt Hrat. cbn zeta.
  set (s' := fst (handleFileUpload (Parsed pages) year n s stored)).
  assert (Hnone : confirmIntervention now synth s' stored = None).
  { apply Hiff. repeat split; try assumption.
    unfold at_index. cbn. now destruct (currentPage s <? 0)%Z. }
  split; [reflexivity|]. split; [exact Hnone|].
  cbn [Ui.step]. rewrite Hnone. now destruct (isWordModalOpen s').
Qed.

(** X13.  Neither the click on a word nor the confirmation reads the status: with
    the status set to any value [q] they do to the session, the collection
    and the outside what they do otherwise, and leave [q].  So the text of
    a finalized or downloaded document can still be corrected whenever the
    review mode is on. *)
Theorem interventions_ignore_status (q : QcStatus) (s : Session) (stored : Store)
    (e : Ui.Event) :
  (exists i synth, e = Ui.ClickWord i synth)
  \/ (exists now synth, e = Ui.Confirm now synth) ->
  Ui.step e (set_qcStatus q s, stored)
  = (let '(s', stored', effects) := Ui.step e (s, stored) in
     (set_qcStatus q s', stored', effects)).
Proof.
  intros [(i & synth & ->)|(now & synth & ->)]; cbn [Ui.step].
  - change (displayed_words (set_qcStatus q s)) with (displayed_words s).
    change (isLoading (set_qcStatus q s)) with (isLoading s).
    change (isReviewMode (set_qcStatus q s)) with (isReviewMode s).
    destruct (displayed_words s !! i) as [word|]; [|reflexivity].
    destruct (isLoading s); [reflexivity|]. destruct (isReviewMode s); [|reflexivity].
    unfold Ui.pure, handleWordClick, handlePauseReading. cbn.
    destruct (speaking synth && negb (paused synth)); reflexivity.
  - change (isWordModalOpen (set_qcStatus q s)) with (isWordModalOpen s).
    destruct (isWordModalOpen s); [|reflexivity].
    unfold confirmIntervention, handleResumeReading, handleStartReading. cbn.
    destruct (selectedWordData s) as [[word index]|]; [|reflexivity].
    destruct (selectedAlt s); [reflexivity|].
    destruct (rationaleText s); [reflexivity|].
    destruct (at_index (editedPages s) (currentPage s)) as [page|]; [|reflexivity].
    destruct (paused synth); [reflexivity|].
    destruct (isReading s); cbn; [reflexivity|].
    destruct page; reflexivity.
Qed.

Section NumberFacts.

Lemma string_eqb_refl (a : jsstring) : string_eqb a a = true.
Proof. now apply string_eqb_eq. Qed.

Lemma startsWith_app (p rest : jsstring) : startsWith (p ++ rest) p = true.
Proof.
  induction p as [|c p IH]; [now destruct rest|]. cbn [app startsWith].
  unfold code_eqb. now rewrite N.eqb_refl, IH.
Qed.

(** A log carrying an identifier of the year counts for the year. *)
Lemma logs_of_year_snoc (stored : Store) (year : nat) (log : TranslationLog) (rest : jsstring) :
  Log.trackingId log = toString year ++ rest ->
  logs_of_year (Some (default [] stored ++ [log])) year = logs_of_year stored year ++ [log].
Proof.
  intros Hid. unfold logs_of_year. change (default [] (Some ?x)) with x.
  rewrite List.filter_app. cbn [List.filter]. now rewrite Hid, startsWith_app.
Qed.

Lemma generateTrackingId_count (stored : Store) (year : nat) :
  Tracking.generateTrackingId stored year
  = toString year ++ lit "-"
    ++ padStart (toString (length (logs_of_year stored year) + 1)) 3 (lit "0").
Proof. unfold Tracking.generateTrackingId, logs_of_year. now destruct stored. Qed.

End NumberFacts.

(** X14.  Tracking numbers follow the translations, not the uploads.  An upload
    takes the number after the count of stored logs of the year.  When the
    document is then translated, its log carries that number and the next
    upload of the year takes the following one; when it is not (no
    translation started, or the translation failed), the next upload takes
    the same number again. *)
Theorem tracking_numbers_follow_translations (ai : Gateway.Service)
    (pages pages' : list jsstring) (year now now' now1 now2 : nat)
    (s : Session) (stored : Store) :
  let number n := toString year ++ lit "-" ++ padStart (toString n) 3 (lit "0") in
  let count := length (logs_of_year stored year) in
  let w1 := fst (Ui.step (Ui.Upload (Parsed pages) year now) (s, stored)) in
  let w2 := fst (Ui.step (Ui.TranslationEffect ai now1 now2)
                         (fst (Ui.step Ui.ChooseInitiate w1))) in
  let w3 := fst (Ui.step (Ui.Upload (Parsed pages') year now') w2) in
  currentTrackingId (fst w1) = number (count + 1)
  /\ (editedPages (fst w2) = [] -> currentTrackingId (fst w3) = number (count + 1))
  /\ (editedPages (fst w2) <> [] ->
      currentTrackingId (fst w3) = number (count + 2)
      /\ exists log, snd w2 = Some (default [] stored ++ [log])
                     /\ Log.trackingId log = number (count + 1)).
Proof.
  cbn zeta.
  change (fst (Ui.step (Ui.Upload (Parsed pages) year now) (s, stored)))
    with (fst (handleFileUpload (Parsed pages) year now s stored), stored).
  set (s1 := fst (handleFileUpload (Parsed pages) year now s stored)).
  change (fst (Ui.step Ui.ChooseInitiate (s1, stored)))
    with (set_initiateTranslation true s1, stored).
  assert (H1 : currentTrackingId s1 = Tracking.generateTrackingId stored year)
    by reflexivity.
  set (s1' := set_initiateTranslation true s1).
  assert (Hsame : editedPages s1' = []) by reflexivity.
  split; [cbn [fst]; rewrite H1; apply generateTrackingId_count|].
  set (w2 := fst (Ui.step (Ui.TranslationEffect ai now1 now2) (s1', stored))).
  assert (Hnext : currentTrackingId
                    (fst (fst (Ui.step (Ui.Upload (Parsed pages') year now') w2)))
                  = Tracking.generateTrackingId (snd w2) year)
    by (destruct w2; reflexivity).
  rewrite Hnext. clear Hnext. subst w2. cbn [Ui.step].
  destruct (auto_translate_due s1') eqn:Hdue; cbn [fst snd].
  2: { rewrite generateTrackingId_count. split; [reflexivity|]. now rewrite Hsame. }
  destruct (handleTranslate_outcome ai now1 now2 s1' stored) as [Hp|out tr Hp Hlen|tr Hp];
    cbn [fst snd].
  - rewrite generateTrackingId_count. split; [reflexivity|]. now rewrite Hsame.
  - split.
    { intros Hout. change (out = []) in Hout. subst out. exfalso.
      destruct pages; [now apply Hp|discriminate Hlen]. }
    intros _. rewrite generateTrackingId_count.
    assert (Hid : Log.trackingId (translation_log s1' now1 now2 out)
                  = toString year ++ lit "-"
                    ++ padStart (toString (length (logs_of_year stored year) + 1)) 3 (lit "0")).
    { cbn [translation_log Log.trackingId]. change (currentTrackingId s1') with (currentTrackingId s1).
      rewrite H1. apply generateTrackingId_count. }
    rewrite (logs_of_year_snoc stored year _ _ Hid), length_app. cbn [length].
    replace (length (logs_of_year stored year) + 1 + 1)
      with (length (logs_of_year stored year) + 2) by lia.
    split; [reflexivity|]. eexists. split; [reflexivity|exact Hid].
  - rewrite generateTrackingId_count. split; [reflexivity|].
    cbn. intros H. now destruct H.
Qed.

Section DetectionFacts.

Lemma trim_blank (text : jsstring) : blank text -> trim text = [].
Proof.
  intros H. unfold trim.
  pose proof (trimStart_blank text [] H) as E. rewrite app_nil_r in E. now rewrite E.
Qed.

End DetectionFacts.

(** X15.  The detected language is never empty.  The answer of the detection is
    kept trimmed; when the request fails, or the answer has no text or only
    white space, the source language is English. *)
Theorem detected_language_is_never_empty (r : Gateway.Response) (s : Session) :
  sourceLanguage (languageDetected r s) <> []
  /\ (forall text, r = Gateway.Answer (Some text) -> trim text <> [] ->
      sourceLanguage (languageDetected r s) = trim text)
  /\ (r = Gateway.Rejected \/ r = Gateway.Answer None
      \/ (exists text, r = Gateway.Answer (Some text) /\ blank text) ->
      sourceLanguage (languageDetected r s) = lit "English").
Proof.
  unfold languageDetected. split; [|split].
  - destruct r as [|[text|]]; try discriminate.
    destruct (trim text) eqn:E; discriminate.
  - intros text -> Hne. destruct (trim text); [congruence|reflexivity].
  - intros [->|[->|(text & -> & Hb)]]; try reflexivity.
    now rewrite trim_blank.
Qed.

(** X16.  Finalizing hands the document over to the downloads.  A click on
    Finalize, where it is offered, sets the status to QC Finalized in the
    session and on the session's stored log, leaves the review mode and
    cancels the voice.  Afterwards the Finalize button is gone (a second
    click does nothing), the downloads are offered, and the QC timer has
    stopped. *)
Theorem finalize_hands_over_to_download (s : Session) (stored : Store) :
  finalize_offered s = true ->
  let w' := fst (Ui.step Ui.Finalize (s, stored)) in
  qcStatus (fst w') = QCFinalized
  /\ isReviewMode (fst w') = false
  /\ isReading (fst w') = false
  /\ editedPages (fst w') = editedPages s
  /\ status_persisted (currentLogId s) QCFinalized stored (snd w')
  /\ snd (Ui.step Ui.Finalize (s, stored)) = [SpeechCancel]
  /\ finalize_offered (fst w') = false
  /\ downloads_offered (fst w') = true
  /\ Ui.step Ui.Finalize w' = (w', [])
  /\ Ui.step Ui.Tick w' = (w', []).
Proof.
  intros Hoff. cbn zeta. cbn [Ui.step]. rewrite Hoff.
  unfold finalizeVerification, handleStopReading. cbn [fst snd].
  repeat split; try reflexivity.
  apply updatePersistentStatus_persisted.
Qed.

Section CycleFacts.

(** A service that answers every request. *)
Definition always_answers (ai : Gateway.Service) : Prop :=
  forall sent prompt, ai sent prompt <> Gateway.Rejected.

Lemma handleTranslate_accepted (ai : Gateway.Service) (now1 now2 : nat) (s : Session)
    (stored : Store) :
  always_answers ai -> sourcePages s <> [] ->
  exists out tr,
    length out = length (sourcePages s)
    /\ handleTranslate ai now1 now2 s stored
       = (set_progress [] (set_isLoading false (set_qcStatus QCPending (set_editedPages out
            (set_progress (lit "Mapping Intelligence Pipeline...") (set_isLoading true s))))),
          Some (default [] stored ++ [translation_log s now1 now2 out]), tr).
Proof.
  intros Hai Hne.
  destruct (answers_accepted ai (targetLanguage s) (lit "General") (sourcePages s) [])
    as (out & Hout & Hlen & _); [intros j page _; apply Hai|].
  exists out. unfold handleTranslate, Gateway.translateDocument.
  destruct (sourcePages s) as [|p ps] eqn:Hpages; [congruence|]. rewrite <- Hpages in *.
  unfold Gateway.bind at 1.
  rewrite (translate_from_answers ai _ _ _ _ 0 [] [] out) by exact Hout.
  cbn [app Gateway.ret]. eexists. split; [exact Hlen|].
  replace (match stored with Some m => m | None => [] end) with (default [] stored)
    by now destruct stored.
  unfold translation_log. rewrite Hpages. reflexivity.
Qed.

Lemma toggle_step (s : Session) (stored : Store) :
  review_toggle_enabled s = true ->
  fst (Ui.step Ui.ToggleReview (s, stored))
  = (set_isReviewMode (negb (isReviewMode s)) s, stored).
Proof. intros H. cbn [Ui.step]. now rewrite H. Qed.

Lemma finalize_step (s : Session) (stored : Store) :
  finalize_offered s = true ->
  fst (Ui.step Ui.Finalize (s, stored))
  = (set_highlightedWordIndex None (set_isPaused false (set_isReading false
       (set_isReviewMode false (set_qcStatus QCFinalized s)))),
     updatePersistentStatus (currentLogId s) QCFinalized stored).
Proof. intros H. cbn [Ui.step]. now rewrite H. Qed.

Lemma download_step (s : Session) (stored : Store) :
  downloads_offered s = true ->
  fst (Ui.step Ui.DownloadWord (s, stored))
  = (set_qcStatus Downloaded s, updatePersistentStatus (currentLogId s) Downloaded stored).
Proof. intros H. cbn [Ui.step]. now rewrite H. Qed.

Lemma update_single (id : jsstring) (q : QcStatus) (log : TranslationLog) :
  Log.id log = id ->
  updatePersistentStatus id q (Some [log]) = Some [Log.set_status q log].
Proof.
  intros <-. unfold updatePersistentStatus. cbn [findIndex].
  now rewrite string_eqb_refl.
Qed.

End CycleFacts.

(** X17.  A whole cycle.  From the first render and an empty store, with a
    service that answers every request: uploading a document with at least
    one page, choosing to translate, letting the translation run, entering
    the review, finalizing and downloading the Word file end in the status
    Downloaded, with as many edited pages as source pages, and with exactly
    one stored log: that of this upload, numbered 001 of the year, marked
    Downloaded, without rationales. *)
Theorem full_cycle_ends_downloaded (ai : Gateway.Service) (pages : list jsstring)
    (year now now1 now2 : nat) :
  always_answers ai -> pages <> [] ->
  let w := Ui.run [ Ui.Upload (Parsed pages) year now; Ui.ChooseInitiate;
                    Ui.TranslationEffect ai now1 now2; Ui.ToggleReview;
                    Ui.Finalize; Ui.DownloadWord ] (Tool.initial, None) in
  qcStatus (fst w) = Downloaded
  /\ isReviewMode (fst w) = false
  /\ length (editedPages (fst w)) = length pages
  /\ exists log,
       snd w = Some [log]
       /\ Log.status log = Downloaded
       /\ Log.id log = lit "trans-" ++ toString now
       /\ Log.trackingId log = toString year ++ lit "-001"
       /\ Log.pageCount log = length pages
       /\ Log.rationales log = [].
Proof.
  intros Hai Hne. cbn zeta. unfold Ui.run. cbn [fold_left].
  change (fst (Ui.step (Ui.Upload (Parsed pages) year now) (Tool.initial, None)))
    with (fst (handleFileUpload (Parsed pages) year now Tool.initial None), @None (list TranslationLog)).
  set (s1 := fst (handleFileUpload (Parsed pages) year now Tool.initial None)).
  change (fst (Ui.step Ui.ChooseInitiate (s1, None)))
    with (set_initiateTranslation true s1, @None (list TranslationLog)).
  set (s2 := set_initiateTranslation true s1).
  assert (Hdue : auto_translate_due s2 = true).
  { unfold auto_translate_due. cbn. now destruct pages. }
  cbn [Ui.step]. rewrite Hdue.
  destruct (handleTranslate_accepted ai now1 now2 s2 None Hai) as (out & tr & Hlen & ->);
    [exact Hne|].
  change (length (sourcePages s2)) with (length pages) in Hlen.
  cbn [fst].
  destruct out as [|o out]; [destruct pages; [congruence|discriminate]|].
  rewrite toggle_step by reflexivity.
  rewrite finalize_step by reflexivity.
  rewrite download_step by reflexivity.
  cbn [fst snd].
  split; [reflexivity|]. split; [reflexivity|]. split; [exact Hlen|].
  change (default [] None ++ [translation_log s2 now1 now2 (o :: out)])
    with [translation_log s2 now1 now2 (o :: out)].
  rewrite (update_single _ QCFinalized) by reflexivity.
  rewrite (update_single _ Downloaded) by reflexivity.
  eexists. split; [reflexivity|]. repeat split; try reflexivity.
  exact Hlen.
Qed.

Section RequestFacts.

Import Gateway Json GeminiService.

Variable JSON_parse : jsstring -> completion value.

(** What a request that falls back on [d] gives, by the answer of the
    service. *)
Lemma request_or_run (ai : Gateway.Service) (prompt : jsstring) (d : value)
    (tr : list Effect) :
  request_or JSON_parse ai prompt d tr
  = match ai (prompts tr) prompt with
    | Rejected => (None, tr ++ [GenerateContent prompt])
    | Answer text =>
        (Some (or_else (first_parsed JSON_parse
                          (match text with
                           | None | Some [] => []
                           | Some t => attempts (clean t)
                           end)) d),
         tr ++ [GenerateContent prompt])
    end.
Proof.
  unfold request_or, bind, generateContent, parsed, ret.
  destruct (ai (prompts tr) prompt) as [|[[|c t]|]]; try reflexivity.
  now rewrite extractJson_first_parsed.
Qed.

Lemma request_raw_run (ai : Gateway.Service) (prompt : jsstring) (tr : list Effect) :
  request_raw JSON_parse ai prompt tr
  = match ai (prompts tr) prompt with
    | Rejected => (None, tr ++ [GenerateContent prompt])
    | Answer text =>
        (Some (first_parsed JSON_parse
                 (match text with
                  | None | Some [] => []
                  | Some t => attempts (clean t)
                  end)),
         tr ++ [GenerateContent prompt])
    end.
Proof.
  unfold request_raw, bind, generateContent, parsed.
  destruct (ai (prompts tr) prompt) as [|[[|c t]|]]; try reflexivity.
  now rewrite extractJson_first_parsed.
Qed.

Lemma or_else_truthy (v d : value) : truthy d = true -> truthy (or_else v d) = true.
Proof. intros H. unfold or_else. now destruct (truthy v) eqn:E. Qed.

(** The result of a request is never falsy. *)
Definition never_falsy (m : Async value) : Prop :=
  forall tr v tr', m tr = (Some v, tr') -> truthy v = true.

(** The request resolves with [d] when the answer has no text. *)
Definition defaults_to (ai : Gateway.Service) (prompt : jsstring) (d : value)
    (m : Async value) : Prop :=
  forall tr,
    (ai (prompts tr) prompt = Answer None \/ ai (prompts tr) prompt = Answer (Some [])) ->
    m tr = (Some d, tr ++ [GenerateContent prompt]).

Lemma request_or_never_falsy (ai : Gateway.Service) (prompt : jsstring) (d : value) :
  truthy d = true -> never_falsy (request_or JSON_parse ai prompt d).
Proof.
  intros Hd tr v tr' H. rewrite request_or_run in H.
  destruct (ai (prompts tr) prompt); [discriminate|].
  injection H as <- _. now apply or_else_truthy.
Qed.

Lemma request_or_defaults (ai : Gateway.Service) (prompt : jsstring) (d : value) :
  defaults_to ai prompt d (request_or JSON_parse ai prompt d).
Proof. intros tr [H|H]; rewrite request_or_run, H; reflexivity. Qed.

Lemma request_raw_defaults (ai : Gateway.Service) (prompt : jsstring) :
  defaults_to ai prompt Null (request_raw JSON_parse ai prompt).
Proof. intros tr [H|H]; rewrite request_raw_run, H; reflexivity. Qed.

End RequestFacts.

(** X18.  The requests that fall back on an empty array or object never resolve
    with a falsy value: whatever the service answers and whatever
    [JSON.parse] does, the alternatives, the news, the archived news, the
    new regulations, the categorized entry and the TMF checklist are truthy
    when the request resolves.  They need not be arrays: any truthy value
    the answer parses to is returned as it is. *)
Theorem fallback_requests_never_falsy
    (JSON_parse : jsstring -> Json.completion Json.value) (ai : Gateway.Service)
    (word context targetLanguage text country : jsstring) (titles : list jsstring) :
  never_falsy (GeminiService.getAlternateSuggestions JSON_parse ai word context targetLanguage)
  /\ never_falsy (GeminiService.getRegulatoryNews JSON_parse ai)
  /\ never_falsy (GeminiService.getArchivedRegulatoryNews JSON_parse ai)
  /\ never_falsy (GeminiService.syncIntelligence JSON_parse ai titles)
  /\ never_falsy (GeminiService.categorizeNewEntry JSON_parse ai text)
  /\ never_falsy (GeminiService.getTMFChecklist JSON_parse ai country)
  /\ forall v tr,
       ai (Gateway.prompts tr) (alternatives_prompt word context targetLanguage)
       = Gateway.Answer (Some text) ->
       text <> [] -> Json.extractJson JSON_parse (Some text) = Json.Normal v ->
       GeminiService.truthy v = true ->
       GeminiService.getAlternateSuggestions JSON_parse ai word context targetLanguage tr
       = (Some v, tr ++ [GenerateContent (alternatives_prompt word context targetLanguage)]).
Proof.
  repeat (split; [now apply request_or_never_falsy|]).
  intros v tr Hai Hne Hv Ht.
  unfold GeminiService.getAlternateSuggestions. rewrite request_or_run, Hai.
  rewrite extractJson_first_parsed in Hv by assumption. injection Hv as Hv.
  destruct text as [|c t]; [congruence|]. rewrite Hv.
  unfold GeminiService.or_else. now rewrite Ht.
Qed.

(** X19.  An answer without text is not an error.  When the service answers with
    no text, or with the empty text, the requests that fall back resolve
    with their empty array or object, and the requests that return what
    [extractJson] gives (the analysis of a regulation, the monitoring
    report, the gap analysis) resolve with null: their callers get null
    where the declared type promises an object.  Each has sent its one
    request. *)
Theorem requests_without_text
    (JSON_parse : jsstring -> Json.completion Json.value) (ai : Gateway.Service)
    (word context targetLanguage title content visitType notes sop reg : jsstring) :
  defaults_to ai (alternatives_prompt word context targetLanguage) (Json.Array [])
    (GeminiService.getAlternateSuggestions JSON_parse ai word context targetLanguage)
  /\ defaults_to ai (lit "Analyze: " ++ title ++ [10%N] ++ content) Json.Null
       (GeminiService.analyzeRegulation JSON_parse ai title content)
  /\ defaults_to ai (lit "Synthesize " ++ visitType ++ lit " report from notes: " ++ notes)
       Json.Null (GeminiService.synthesizeMonitoringReport JSON_parse ai visitType notes)
  /\ defaults_to ai (lit "Gap analysis between SOP and Reg: " ++ sop ++ lit " vs " ++ reg)
       Json.Null (GeminiService.generateGapAnalysis JSON_parse ai sop reg).
Proof.
  split; [apply request_or_defaults|].
  repeat split; apply request_raw_defaults.
Qed.

Section CandidateFacts.

Import Json.

Lemma findIndex_first (c : N) (a rest : jsstring) :
  ~ In c a -> findIndex (N.eqb c) (a ++ c :: rest) = Some (length a).
Proof.
  induction a as [|d a IH]; intros Hnot; cbn [app findIndex length].
  - now rewrite N.eqb_refl.
  - destruct (N.eqb_spec c d) as [->|Hne]; [exfalso; apply Hnot; now left|].
    rewrite IH; [reflexivity|]. intros H. apply Hnot. now right.
Qed.

(** The converse of [candidate_between]: a text with an opening character,
    none before it, and a closing character after it, none behind that, has
    the part from the one to the other as its candidate. *)
Lemma candidate_found (a mid b : jsstring) (open close : N) :
  ~ In open a -> ~ In close b ->
  candidate (a ++ [open] ++ mid ++ [close] ++ b) open close
  = Some ([open] ++ mid ++ [close]).
Proof.
  intros Ha Hb. unfold candidate, indexOf, lastIndexOf.
  cbn [app]. rewrite findIndex_first by assumption.
  replace (rev (a ++ open :: mid ++ close :: b))
    with (rev b ++ close :: rev (a ++ open :: mid)).
  2: { replace (a ++ open :: mid ++ close :: b) with ((a ++ open :: mid) ++ close :: b)
         by (rewrite <- app_assoc; reflexivity).
       rewrite (rev_app_distr (a ++ open :: mid) (close :: b)). cbn [rev].
       now rewrite <- app_assoc. }
  rewrite findIndex_first by (intros H; apply Hb; now apply in_rev).
  rewrite length_rev, length_app. cbn [length]. rewrite length_app. cbn [length].
  replace (length a + S (length mid + S (length b)) - 1 - length b)
    with (length a + S (length mid)) by lia.
  destruct (Nat.ltb_spec (length a) (length a + S (length mid))); [|lia].
  unfold substring. rewrite drop_app_length.
  replace (length a + S (length mid) + 1 - length a) with (S (length mid + 1)) by lia.
  cbn [take]. f_equal. f_equal.
  replace (length mid + 1) with (length (mid ++ [close])) by (rewrite length_app; cbn; lia).
  replace (mid ++ close :: b) with ((mid ++ [close]) ++ b) by now rewrite <- app_assoc.
  now rewrite take_app_length.
Qed.

End CandidateFacts.

(** X20.  [extractJson] looks for an array first.  When the cleaned answer holds
    an opening bracket and, after it, a closing bracket, and the text from
    the first to the last of them parses, that value is returned, whatever
    stands around it.  So for an answer that is an object with one array
    inside, the array is returned and not the object. *)
Theorem extractJson_returns_inner_array
    (JSON_parse : jsstring -> Json.completion Json.value)
    (text a mid b : jsstring) (v : Json.value) :
  text <> [] ->
  Json.clean text = a ++ [91%N] ++ mid ++ [93%N] ++ b ->
  ~ In 91%N a -> ~ In 93%N b ->
  JSON_parse ([91%N] ++ mid ++ [93%N]) = Json.Normal v ->
  Json.extractJson JSON_parse (Some text) = Json.Normal v.
Proof.
  intros Hne Hclean Ha Hb Hparse.
  rewrite extractJson_first_parsed by assumption.
  unfold attempts. rewrite Hclean, candidate_found by assumption.
  cbn [app first_parsed]. cbn [app] in Hparse. now rewrite Hparse.
Qed.

Section FenceFacts.

Import Json.

Lemma trim_between (lead x trail : jsstring) :
  blank lead -> blank trail -> starts_with_ws x = false -> ends_with_ws x = false ->
  trim (lead ++ x ++ trail) = x.
Proof.
  intros Hl Ht Hs He. unfold trim.
  rewrite trimStart_blank by assumption.
  destruct x as [|c x]; [cbn [app]|].
  - pose proof (trimStart_blank trail [] Ht) as E. rewrite app_nil_r in E. now rewrite E.
  - rewrite trimStart_id by exact Hs.
    rewrite trimEnd_blank by assumption. now apply trimEnd_id.
Qed.

Lemma remove_prefix_app (p rest : jsstring) : remove_prefix p (p ++ rest) = rest.
Proof. unfold remove_prefix. now rewrite startsWith_app, drop_app_length. Qed.

Lemma remove_suffix_app (p body : jsstring) : remove_suffix p (body ++ p) = body.
Proof.
  unfold remove_suffix. rewrite rev_app_distr, remove_prefix_app. apply rev_involutive.
Qed.

Lemma fenced_clean (front body : jsstring) :
  starts_with_ws front = false -> front <> [] ->
  starts_with_ws (front ++ body ++ fence) = false
  /\ ends_with_ws (front ++ body ++ fence) = false.
Proof.
  intros Hf Hne. split.
  - destruct front; [congruence|exact Hf].
  - unfold ends_with_ws. rewrite !rev_app_distr. reflexivity.
Qed.

End FenceFacts.

(** X21.  Cleaning unwraps a fenced answer.  For an answer that is, between
    leading and trailing white space, a block opened by three backquotes and
    the word json and closed by three backquotes, the cleaned text is the
    inside of the block, provided the inside does not itself start with
    three backquotes; the same holds for a block opened by three backquotes
    alone, provided the text does not start with the json fence.  The inside
    is kept as it is: white space next to the fences is not removed. *)
Theorem clean_unwraps_fence (lead trail body : jsstring) :
  blank lead -> blank trail ->
  (startsWith (body ++ Json.fence) Json.fence = false ->
   Json.clean (lead ++ Json.fence_json ++ body ++ Json.fence ++ trail) = body)
  /\ (startsWith (Json.fence ++ body ++ Json.fence) Json.fence_json = false ->
      Json.clean (lead ++ Json.fence ++ body ++ Json.fence ++ trail) = body).
Proof.
  intros Hl Ht. unfold Json.clean. split; intros Hbody.
  - replace (lead ++ Json.fence_json ++ body ++ Json.fence ++ trail)
      with (lead ++ (Json.fence_json ++ body ++ Json.fence) ++ trail)
      by now rewrite <- !app_assoc.
    destruct (fenced_clean Json.fence_json body) as [Hs He]; [reflexivity|discriminate|].
    rewrite trim_between by assumption.
    rewrite remove_prefix_app. unfold Json.remove_prefix at 1. rewrite Hbody.
    apply remove_suffix_app.
  - replace (lead ++ Json.fence ++ body ++ Json.fence ++ trail)
      with (lead ++ (Json.fence ++ body ++ Json.fence) ++ trail)
      by now rewrite <- !app_assoc.
    destruct (fenced_clean Json.fence body) as [Hs He]; [reflexivity|discriminate|].
    rewrite trim_between by assumption.
    unfold Json.remove_prefix at 2. rewrite Hbody.
    rewrite remove_prefix_app. apply remove_suffix_app.
Qed.

Section DashboardFacts.

Import Dashboard.

Lemma fold_left_sum {A} (f : A -> nat) (l : list A) (n : nat) :
  fold_left (fun acc x => acc + f x) l n = n + sum_list_with f l.
Proof.
  revert n. induction l as [|x l IH]; intros n; cbn [fold_left sum_list_with]; [lia|].
  rewrite IH. lia.
Qed.

Lemma filter_count {A} (p : A -> bool) (l : list A) :
  length (List.filter p l) = sum_list_with (fun x => if p x then 1 else 0) l.
Proof.
  induction l as [|x l IH]; [reflexivity|]. cbn [List.filter].
  change (sum_list_with ?f (x :: l)) with (f x + sum_list_with f l). cbv beta.
  destruct (p x); cbn [length]; rewrite IH; reflexivity.
Qed.

Lemma sum_insert {A} (f : A -> nat) (l : list A) (i : nat) (x y : A) :
  l !! i = Some x ->
  sum_list_with f (<[i := y]> l) + f x = sum_list_with f l + f y.
Proof.
  revert i. induction l as [|z l IH]; intros i H; [discriminate|].
  destruct i as [|i]; cbn [insert list_insert].
  - injection H as ->.
    change (sum_list_with f (y :: l)) with (f y + sum_list_with f l).
    change (sum_list_with f (x :: l)) with (f x + sum_list_with f l). lia.
  - change (list_insert i y l) with (<[i := y]> l). specialize (IH i H).
    change (sum_list_with f (z :: <[i := y]> l)) with (f z + sum_list_with f (<[i := y]> l)).
    change (sum_list_with f (z :: l)) with (f z + sum_list_with f l). lia.
Qed.

Lemma alter_insert {A} (f : A -> A) (l : list A) (i : nat) (x : A) :
  l !! i = Some x -> alter f i l = <[i := f x]> l.
Proof.
  revert i. induction l as [|z l IH]; intros i H; [discriminate|].
  destruct i as [|i]; cbn [alter list_alter insert list_insert].
  - now injection H as ->.
  - f_equal. now apply IH.
Qed.

(** The three counts of the dashboard, as sums over the logs. *)
Definition total_words (stored : Store) : nat := totalWords (stats (loaded stored)).
Definition finalized_count (stored : Store) : nat := finalized (stats (loaded stored)).
Definition total_errors (stored : Store) : nat := totalErrors (stats (loaded stored)).

Lemma total_words_sum (stored : Store) :
  total_words stored = sum_list_with Log.wordCount (loaded stored).
Proof. unfold total_words, stats. cbn [totalWords]. now rewrite fold_left_sum. Qed.

Lemma total_errors_sum (stored : Store) :
  total_errors stored = sum_list_with (fun l => length (Log.rationales l)) (loaded stored).
Proof. unfold total_errors, stats. cbn [totalErrors]. now rewrite fold_left_sum. Qed.

Lemma finalized_count_sum (stored : Store) :
  finalized_count stored = sum_list_with (fun l => if is_finalized l then 1 else 0) (loaded stored).
Proof. unfold finalized_count, stats. cbn [finalized]. apply filter_count. Qed.

Lemma status_write_counts (id : jsstring) (q : QcStatus) (stored : Store) :
  q = QCFinalized \/ q = Downloaded ->
  total_words (updatePersistentStatus id q stored) = total_words stored
  /\ total_errors (updatePersistentStatus id q stored) = total_errors stored
  /\ finalized_count stored <= finalized_count (updatePersistentStatus id q stored) <= finalized_count stored + 1.
Proof.
  intros Hq. rewrite !total_words_sum, !total_errors_sum, !finalized_count_sum. unfold updatePersistentStatus.
  destruct stored as [logs|]; [|cbn; lia].
  destruct (findIndex _ logs) as [idx|] eqn:Hidx; [|lia].
  destruct (findIndex_Some _ _ _ Hidx) as (log & Hlog & _).
  cbn [loaded]. rewrite (alter_insert _ _ _ _ Hlog).
  pose proof (sum_insert Log.wordCount logs idx log (Log.set_status q log) Hlog) as H1.
  pose proof (sum_insert (fun l => length (Log.rationales l)) logs idx log
                (Log.set_status q log) Hlog) as H2.
  pose proof (sum_insert (fun l => if is_finalized l then 1 else 0) logs idx log
                (Log.set_status q log) Hlog) as H3.
  cbn [Log.wordCount Log.rationales Log.set_status] in H1, H2.
  cbv beta in H3.
  assert (Hfin : is_finalized (Log.set_status q log) = true)
    by (destruct Hq as [-> | ->]; reflexivity).
  rewrite Hfin in H3. destruct (is_finalized log); lia.
Qed.

Lemma intervention_counts (id : jsstring) (r : CorrectionRationale) (stored : Store) :
  total_words (persist_intervention id r stored) = total_words stored
  /\ finalized_count (persist_intervention id r stored) = finalized_count stored
  /\ total_errors stored <= total_errors (persist_intervention id r stored) <= total_errors stored + 1
  /\ (forall logs idx, stored = Some logs ->
        findIndex (fun m => string_eqb (Log.id m) id) logs = Some idx ->
        total_errors (persist_intervention id r stored) = total_errors stored + 1).
Proof.
  rewrite !total_words_sum, !total_errors_sum, !finalized_count_sum. unfold persist_intervention.
  destruct stored as [logs|];
    [|cbn; split; [lia|split; [lia|split; [lia|discriminate]]]].
  destruct (findIndex _ logs) as [idx|] eqn:Hidx;
    [|split; [lia|split; [lia|split; [lia|intros ? ? [= <-]; congruence]]]].
  destruct (findIndex_Some _ _ _ Hidx) as (log & Hlog & _). rewrite Hlog.
  cbn [loaded].
  match goal with
  | |- context [<[idx := ?new]> logs] => remember new as log' eqn:Hnew
  end.
  assert (Hw : Log.wordCount log' = Log.wordCount log) by (subst log'; reflexivity).
  assert (Hr : length (Log.rationales log') = length (Log.rationales log) + 1).
  { subst log'. cbn. now rewrite length_app. }
  assert (Hf : is_finalized log' = is_finalized log) by (subst log'; reflexivity).
  clear Hnew.
  pose proof (sum_insert Log.wordCount logs idx log log' Hlog) as H1.
  pose proof (sum_insert (fun l => length (Log.rationales l)) logs idx log log' Hlog) as H2.
  pose proof (sum_insert (fun l => if is_finalized l then 1 else 0) logs idx log log' Hlog)
    as H3.
  cbv beta in H2, H3. rewrite Hf in H3.
  split; [lia|]. split; [lia|]. split; [lia|]. intros logs' idx' _ _. lia.
Qed.

Lemma translation_counts (s : Session) (now1 now2 : nat) (out : list jsstring)
    (stored : Store) :
  let stored' := Some (default [] stored ++ [translation_log s now1 now2 out]) in
  total_words stored' = total_words stored + wordCount s
  /\ finalized_count stored' = finalized_count stored
  /\ total_errors stored' = total_errors stored.
Proof.
  cbn zeta. rewrite !total_words_sum, !total_errors_sum, !finalized_count_sum. cbn [loaded].
  replace (default [] stored) with (loaded stored) by now destruct stored.
  rewrite !sum_list_with_app. cbn. lia.
Qed.

End DashboardFacts.

(** X22.  The figures of the dashboard follow the writes of the tool.  A
    translation adds the word count of the session to the total of words and
    changes neither the number of finalized documents nor the number of
    errors; an intervention on a stored log adds one error and changes
    nothing else; a write of QC Finalized or Downloaded changes only the
    number of finalized documents, by at most one. *)
Theorem dashboard_follows_each_write (s : Session) (stored : Store) :
  (forall now1 now2 out,
     let stored' := Some (default [] stored ++ [translation_log s now1 now2 out]) in
     total_words stored' = total_words stored + wordCount s
     /\ finalized_count stored' = finalized_count stored /\ total_errors stored' = total_errors stored)
  /\ (forall r,
        let stored' := persist_intervention (currentLogId s) r stored in
        total_words stored' = total_words stored /\ finalized_count stored' = finalized_count stored
        /\ (forall logs idx, stored = Some logs ->
              findIndex (fun m => string_eqb (Log.id m) (currentLogId s)) logs = Some idx ->
              total_errors stored' = total_errors stored + 1))
  /\ (forall q, q = QCFinalized \/ q = Downloaded ->
        let stored' := updatePersistentStatus (currentLogId s) q stored in
        total_words stored' = total_words stored /\ total_errors stored' = total_errors stored
        /\ finalized_count stored <= finalized_count stored' <= finalized_count stored + 1).
Proof.
  split; [intros; apply translation_counts|]. split.
  - intros r. cbn zeta.
    destruct (intervention_counts (currentLogId s) r stored) as (H1 & H2 & _ & H4).
    auto.
  - intros q Hq. now apply status_write_counts.
Qed.

(** X23.  No figure of the dashboard ever goes down.  Along any run of the tool
    the total of words, the number of finalized documents and the number of
    errors read from the persisted collection only grow, and with no log
    the average yield is zero. *)
Theorem dashboard_totals_never_decrease (events : list Ui.Event) (w : Ui.World) :
  total_words (snd w) <= total_words (snd (Ui.run events w))
  /\ finalized_count (snd w) <= finalized_count (snd (Ui.run events w))
  /\ total_errors (snd w) <= total_errors (snd (Ui.run events w))
  /\ Dashboard.avgYield (Dashboard.stats (Dashboard.loaded None)) = 0%float.
Proof.
  split; [|split; [|split; [|reflexivity]]].
  - apply (run_store_invariant (fun st => total_words (snd w) <= total_words st)); [|lia].
    intros s stored stored' H [|q Hq|r|s0 now1 now2 out]; [exact H| | |].
    + destruct (status_write_counts (currentLogId s) q stored Hq) as (-> & _). exact H.
    + destruct (intervention_counts (currentLogId s) r stored) as (-> & _). exact H.
    + destruct (translation_counts s0 now1 now2 out stored) as (-> & _). lia.
  - apply (run_store_invariant (fun st => finalized_count (snd w) <= finalized_count st)); [|lia].
    intros s stored stored' H [|q Hq|r|s0 now1 now2 out]; [exact H| | |].
    + destruct (status_write_counts (currentLogId s) q stored Hq) as (_ & _ & H'). lia.
    + destruct (intervention_counts (currentLogId s) r stored) as (_ & -> & _). exact H.
    + destruct (translation_counts s0 now1 now2 out stored) as (_ & -> & _). exact H.
  - apply (run_store_invariant (fun st => total_errors (snd w) <= total_errors st)); [|lia].
    intros s stored stored' H [|q Hq|r|s0 now1 now2 out]; [exact H| | |].
    + destruct (status_write_counts (currentLogId s) q stored Hq) as (_ & -> & _). exact H.
    + destruct (intervention_counts (currentLogId s) r stored) as (_ & _ & H' & _). lia.
    + destruct (translation_counts s0 now1 now2 out stored) as (_ & _ & ->). exact H.
Qed.

Section RegFacts.

Variable Entry : Type.
Variable trackingId : Entry -> option jsstring.

(** The entries counted for a year. *)
Definition entries_of_year (data : list Entry) (year : nat) : list Entry :=
  List.filter (fun d => match trackingId d with
                        | Some t => startsWith t (lit "REG-" ++ toString year)
                        | None => false
                        end) data.

Definition reg_number (year n : nat) : jsstring :=
  lit "REG-" ++ toString year ++ lit "-" ++ padStart (toString n) 3 (lit "0").

Lemma generateRegTrackingId_count (data : list Entry) (year : nat) :
  RegDb.generateRegTrackingId Entry trackingId data year
  = reg_number year (length (entries_of_year data year) + 1).
Proof. reflexivity. Qed.

Lemma reg_number_counts (year n : nat) :
  startsWith (reg_number year n) (lit "REG-" ++ toString year) = true.
Proof.
  unfold reg_number.
  replace (lit "REG-" ++ toString year ++ lit "-" ++ padStart (toString n) 3 (lit "0"))
    with ((lit "REG-" ++ toString year) ++ lit "-" ++ padStart (toString n) 3 (lit "0"))
    by now rewrite <- app_assoc.
  apply startsWith_app.
Qed.

End RegFacts.

(** X24.  Regulatory tracking numbers.  The identifier is REG, the year and the
    number after the count of entries whose identifier starts with REG and
    the year, with zeros in front up to three digits and never cut.  Entries
    without an identifier are not counted, and once an entry carrying the
    identifier is in the collection the next identifier has the following
    number. *)
Theorem reg_tracking_numbers (Entry : Type) (trackingId : Entry -> option jsstring)
    (data : list Entry) (year : nat) :
  let count := length (entries_of_year Entry trackingId data year) in
  let seq := toString (count + 1) in
  RegDb.generateRegTrackingId Entry trackingId data year
  = lit "REG-" ++ toString year ++ lit "-" ++ repeat 48%N (3 - length seq) ++ seq
  /\ (forall e, trackingId e = None ->
      RegDb.generateRegTrackingId Entry trackingId (data ++ [e]) year
      = RegDb.generateRegTrackingId Entry trackingId data year)
  /\ (forall e,
      trackingId e = Some (RegDb.generateRegTrackingId Entry trackingId data year) ->
      RegDb.generateRegTrackingId Entry trackingId (data ++ [e]) year
      = reg_number year (count + 2)).
Proof.
  cbn zeta. split; [|split].
  - rewrite generateRegTrackingId_count. unfold reg_number.
    change (lit "0") with [48%N]. now rewrite padStart_single.
  - intros e He. rewrite !generateRegTrackingId_count. unfold entries_of_year.
    rewrite List.filter_app. cbn [List.filter]. rewrite He. now rewrite app_nil_r.
  - intros e He. rewrite !generateRegTrackingId_count. unfold entries_of_year.
    rewrite List.filter_app. cbn [List.filter]. rewrite He.
    rewrite generateRegTrackingId_count, reg_number_counts, length_app. cbn [length].
    f_equal. unfold entries_of_year. lia.
Qed.

Section ToggleFacts.

Lemma includes_In (selected : list jsstring) (option : jsstring) :
  existsb (fun item => string_eqb item option) selected = true <-> In option selected.
Proof.
  rewrite existsb_exists. split.
  - intros (x & Hx & Heq). apply string_eqb_eq in Heq. now subst.
  - intros H. exists option. split; [exact H|apply string_eqb_refl].
Qed.

Lemma removed_In (selected : list jsstring) (option x : jsstring) :
  In x (List.filter (fun item => negb (string_eqb item option)) selected)
  <-> In x selected /\ x <> option.
Proof.
  rewrite filter_In, negb_true_iff. split; intros [H1 H2]; (split; [exact H1|]).
  - intros ->. now rewrite string_eqb_refl in H2.
  - destruct (string_eqb x option) eqn:E; [|reflexivity].
    apply string_eqb_eq in E. contradiction.
Qed.

Lemma remove_absent (selected : list jsstring) (option : jsstring) :
  ~ In option selected ->
  List.filter (fun item => negb (string_eqb item option)) selected = selected.
Proof.
  induction selected as [|x l IH]; intros H; [reflexivity|]. cbn [List.filter].
  destruct (string_eqb x option) eqn:E.
  - apply string_eqb_eq in E. exfalso. apply H. now left.
  - cbn [negb]. f_equal. apply IH. intros Hin. apply H. now right.
Qed.

End ToggleFacts.

(** X25.  A toggle flips the membership of its option and of nothing else.
    The option is in the new selection exactly when it was not in the old
    one, and every other option is in the one exactly when it is in the
    other.  A selection without repetition stays so, and toggling twice an
    option that was not selected gives the selection back. *)
Theorem toggle_flips_membership (selected : list jsstring) (option : jsstring) :
  (In option (RegDb.handleToggle selected option) <-> ~ In option selected)
  /\ (forall x, x <> option ->
      (In x (RegDb.handleToggle selected option) <-> In x selected))
  /\ (List.NoDup selected -> List.NoDup (RegDb.handleToggle selected option))
  /\ (~ In option selected ->
      RegDb.handleToggle (RegDb.handleToggle selected option) option = selected).
Proof.
  unfold RegDb.handleToggle at 1 2 3.
  destruct (existsb _ selected) eqn:E.
  - apply includes_In in E. split; [|split; [|split]].
    + rewrite removed_In. tauto.
    + intros x Hx. rewrite removed_In. tauto.
    + intros H. now apply List.NoDup_filter.
    + tauto.
  - assert (Hnot : ~ In option selected).
    { intros H. apply includes_In in H. congruence. }
    split; [|split; [|split]].
    + rewrite in_app_iff. cbn. tauto.
    + intros x Hx. rewrite in_app_iff. cbn. split; [|tauto].
      intros [H|[H|[]]]; [exact H|congruence].
    + intros H. apply List.NoDup_app; [exact H| |].
      * constructor; [intros []|constructor].
      * intros x Hx [<-|[]]. contradiction.
    + intros _. unfold RegDb.handleToggle. rewrite E. cbv iota.
      assert (Hin : existsb (fun item => string_eqb item option) (selected ++ [option]) = true).
      { apply includes_In, in_app_iff. right. now left. }
      rewrite Hin, List.filter_app, remove_absent by assumption.
      cbn [List.filter]. rewrite string_eqb_refl. cbn [negb]. apply app_nil_r.
Qed.

Section FeedFacts.

Lemma push_take (newLog : jsstring) (prev : list jsstring) :
  Agent.push newLog (take 50 prev) = Agent.push newLog prev.
Proof.
  unfold Agent.push. change (take 50 (newLog :: ?l)) with (newLog :: take 49 l).
  f_equal. rewrite take_take. f_equal.
Qed.

Lemma feed_take (entries : list jsstring) :
  forall start, length start <= 50 ->
  Agent.feed entries start = take 50 (rev entries ++ start).
Proof.
  induction entries as [|e entries IH]; intros start Hlen.
  - cbn. now rewrite take_ge.
  - unfold Agent.feed. cbn [fold_left]. fold (Agent.feed entries (Agent.push e start)).
    rewrite IH.
    + cbn [rev]. rewrite <- app_assoc. cbn [app].
      unfold Agent.push.
      destruct (Nat.le_gt_cases 50 (length (rev entries))) as [H|H].
      * rewrite !take_app_le by lia. reflexivity.
      * rewrite !take_app_ge by lia. f_equal.
        rewrite take_take. f_equal. lia.
    + unfold Agent.push. rewrite length_take. lia.
Qed.

End FeedFacts.

(** X26.  The activity feed keeps the newest fifty lines, newest first.  After
    any number of lines arrived on a feed of at most fifty lines (the feed
    starts empty), the feed is the first fifty of: the lines that arrived,
    latest first, followed by what the feed held before.  So it never grows
    past fifty lines and the oldest lines are the ones dropped. *)
Theorem feed_keeps_newest_fifty (entries start : list jsstring) :
  length start <= 50 ->
  Agent.feed entries start = take 50 (rev entries ++ start)
  /\ length (Agent.feed entries start) = Nat.min 50 (length entries + length start)
  /\ (forall e, head (Agent.push e (Agent.feed entries start)) = Some e).
Proof.
  intros Hlen. rewrite feed_take by assumption. split; [reflexivity|]. split.
  - rewrite length_take, length_app, length_rev. lia.
  - reflexivity.
Qed.

Section WordFacts.

(** The words of a text: the pieces of its split that are not empty. *)
Definition words_of (text : jsstring) : list jsstring :=
  List.filter nonempty (split_ws text).

Lemma words_go_sep (s : jsstring) :
  List.filter nonempty (split_go true [] s) = words_of s.
Proof.
  unfold words_of, split_ws. destruct s as [|c s]; [reflexivity|].
  cbn [split_go]. destruct (is_ws c); reflexivity.
Qed.

(** White space cuts the words of a text in two. *)
Lemma words_go_app (a : jsstring) (c : N) (s : jsstring) :
  is_ws c = true ->
  forall (b : bool) (cur : jsstring),
    (b = true -> cur = []) ->
    List.filter nonempty (split_go b cur (a ++ c :: s))
    = List.filter nonempty (split_go b cur a) ++ words_of s.
Proof.
  intros Hc. induction a as [|d a IH]; intros b cur Hb; cbn [app split_go].
  - rewrite Hc. destruct b.
    + rewrite (Hb eq_refl). cbn [List.filter]. apply words_go_sep.
    + cbn [List.filter]. rewrite words_go_sep.
      destruct (nonempty cur); reflexivity.
  - destruct (is_ws d).
    + destruct b; [now apply IH|].
      cbn [List.filter]. rewrite IH by reflexivity.
      destruct (nonempty cur); reflexivity.
    + apply IH. discriminate.
Qed.

Lemma words_app (a : jsstring) (c : N) (s : jsstring) :
  is_ws c = true -> words_of (a ++ c :: s) = words_of a ++ words_of s.
Proof. intros Hc. unfold words_of at 1 2, split_ws. now apply words_go_app. Qed.

Lemma words_blank (x : jsstring) : blank x -> words_of x = [].
Proof.
  induction 1 as [|c y Hc _ IH]; [reflexivity|].
  change (c :: y) with ([] ++ c :: y). now rewrite words_app.
Qed.

Lemma words_lead (lead s : jsstring) : blank lead -> words_of (lead ++ s) = words_of s.
Proof.
  induction 1 as [|c y Hc _ IH]; [reflexivity|].
  change ((c :: y) ++ s) with ([] ++ c :: (y ++ s)). now rewrite words_app.
Qed.

Lemma words_trail (t trail : jsstring) : blank trail -> words_of (t ++ trail) = words_of t.
Proof.
  intros H. destruct H as [|c y Hc Hy]; [now rewrite app_nil_r|].
  rewrite words_app by assumption. rewrite (words_blank y) by assumption.
  apply app_nil_r.
Qed.

Lemma blank_starts (x : jsstring) : blank x -> starts_with_ws x = false -> x = [].
Proof. intros [|c y Hc _] H; [reflexivity|]. cbn in H. congruence. Qed.

(** A text whose trimmed form is empty is blank. *)
Lemma trim_empty_blank (x : jsstring) : trim x = [] -> blank x.
Proof.
  unfold trim. intros H.
  destruct (trimStart_split x) as (lead & Hx & Hlead & Hclean).
  destruct (trimEnd_split (trimStart x)) as (trail & Ht & Htrail & _).
  rewrite H in Ht. cbn [app] in Ht. rewrite Ht in Hclean.
  rewrite (blank_starts trail Htrail Hclean) in Ht. rewrite Ht, app_nil_r in Hx.
  now rewrite Hx.
Qed.

Lemma words_all (l : list jsstring) : Forall is_word l -> List.filter nonempty l = l.
Proof.
  induction 1 as [|w l [Hw _] _ IH]; [reflexivity|]. cbn [List.filter].
  destruct w; [congruence|]. cbn. now rewrite IH.
Qed.

(** The displayed pieces of a text that has a word are its words. *)
Lemma split_trim_words (x : jsstring) : trim x <> [] -> split_ws (trim x) = words_of x.
Proof.
  intros Hne. unfold trim in *.
  destruct (trimStart_split x) as (lead & Hx & Hlead & Hclean).
  destruct (trimEnd_split (trimStart x)) as (trail & Ht & Htrail & Hend).
  remember (trimStart x) as t0 eqn:E0. remember (trimEnd t0) as t eqn:Et.
  assert (Hstart : starts_with_ws t = false).
  { destruct t as [|c t]; [reflexivity|]. rewrite Ht in Hclean. exact Hclean. }
  rewrite Hx, words_lead by assumption. rewrite Ht, words_trail by assumption.
  unfold words_of. symmetry. apply words_all.
  apply split_go_words; auto; try constructor; discriminate.
Qed.

Lemma words_word (w : jsstring) : is_word w -> words_of w = [w].
Proof.
  intros [Hne Hw]. unfold words_of, split_ws.
  rewrite <- (app_nil_r w) at 1. rewrite split_go_wsfree by assumption.
  cbn. destruct w; [congruence|reflexivity].
Qed.

(** The words of a text around one of its words. *)
Lemma words_around (pre w post : jsstring) :
  is_word w ->
  pre = [] \/ ends_with_ws pre = true ->
  post = [] \/ starts_with_ws post = true ->
  words_of (pre ++ w ++ post) = words_of pre ++ w :: words_of post.
Proof.
  intros Hw Hpre Hpost.
  assert (Hmid : words_of (w ++ post) = w :: words_of post).
  { destruct Hpost as [->|Hpost].
    - rewrite app_nil_r. now apply words_word.
    - destruct post as [|c post]; [discriminate|]. cbn in Hpost.
      assert (Hrest : words_of (c :: post) = words_of post).
      { change (c :: post) with ([] ++ c :: post). now rewrite words_app. }
      rewrite words_app, Hrest by assumption. now rewrite (words_word w) by assumption. }
  destruct Hpre as [->|Hpre]; [exact Hmid|].
  unfold ends_with_ws in Hpre. destruct (rev pre) as [|c r] eqn:Hr; [discriminate|].
  cbn in Hpre. apply (f_equal (@rev _)) in Hr. rewrite rev_involutive in Hr.
  cbn [rev] in Hr. subst pre. rewrite <- app_assoc. cbn [app].
  rewrite !words_app by assumption. rewrite Hmid.
  change (words_of []) with (@nil jsstring). now rewrite app_nil_r.
Qed.

End WordFacts.

(** X27.  The voice highlights the word being spoken.  When the synthesizer reports
    a word boundary at the first character of a word of the page (the page
    is: some text that is empty or ends in white space, the word, and a rest
    that is empty or starts with white space), the index the callback
    computes is the index of that word among the displayed words.  This
    holds also for a page that starts with white space. *)
Theorem highlight_follows_the_spoken_word (pre w post : jsstring) (acc : Session) :
  is_word w ->
  pre = [] \/ ends_with_ws pre = true ->
  post = [] \/ starts_with_ws post = true ->
  let text := pre ++ w ++ post in
  let index := Voice.boundary_word_index text (length pre) in
  highlightedWordIndex (Voice.onboundary text true (length pre) acc) = Some index
  /\ index = length (words_of pre)
  /\ split_ws (trim text) !! index = Some w.
Proof.
  intros Hw Hpre Hpost. cbn zeta.
  assert (Hidx : Voice.boundary_word_index (pre ++ w ++ post) (length pre)
                 = length (words_of pre)).
  { unfold Voice.boundary_word_index. cbn zeta. rewrite take_app_length.
    destruct (trim pre) as [|c t] eqn:E.
    - apply trim_empty_blank in E. now rewrite words_blank.
    - rewrite <- E. rewrite split_trim_words; [reflexivity|]. rewrite E. discriminate. }
  split; [reflexivity|]. split; [exact Hidx|]. rewrite Hidx.
  assert (Hwords : words_of (pre ++ w ++ post) = words_of pre ++ w :: words_of post)
    by now apply words_around.
  rewrite split_trim_words.
  - rewrite Hwords. apply list_lookup_middle. reflexivity.
  - intros H. apply trim_empty_blank, words_blank in H. rewrite Hwords in H.
    now destruct (words_of pre).
Qed.

Section CountFacts.

Lemma words_join (pages : list jsstring) :
  words_of (join (lit " ") pages) = concat (map words_of pages).
Proof.
  induction pages as [|p pages IH]; [reflexivity|].
  destruct pages as [|q pages].
  - cbn [join map concat]. now rewrite app_nil_r.
  - rewrite join_cons by discriminate. change (lit " " ++ ?x) with (32%N :: x).
    rewrite words_app by reflexivity. now rewrite IH.
Qed.

End CountFacts.

(** X28.  The word count of a document is the sum of the word counts of its
    pages: joining the pages with a blank neither merges the last word of a
    page with the first of the next nor adds a word, also for empty pages
    and for pages that start or end with white space. *)
Theorem word_count_adds_over_pages (pages : list jsstring) (acc : Session) :
  wordCount (Metrics.calculateMetrics pages acc)
  = sum_list_with (fun page => wordCount (Metrics.calculateMetrics [page] acc)) pages
  /\ wordCount (Metrics.calculateMetrics pages acc) = length (concat (map words_of pages)).
Proof.
  assert (Hcount : forall ps, wordCount (Metrics.calculateMetrics ps acc)
                              = length (words_of (join (lit " ") ps))) by reflexivity.
  split; [|now rewrite Hcount, words_join].
  rewrite Hcount, words_join.
  induction pages as [|p pages IH]; [reflexivity|].
  cbn [map concat]. rewrite length_app, IH.
  change (sum_list_with ?f (p :: pages)) with (f p + sum_list_with f pages).
  cbv beta. now rewrite Hcount.
Qed.

(** * Worked cases *)

Lemma generateTrackingId_format_witness :
  Tracking.generateTrackingId Sample.three_logs 2025 = lit "2025-003".
Proof.
  destruct (generateTrackingId_format Sample.three_logs 2025) as (_ & _ & _ & H).
  apply H; reflexivity.
Defined.

Lemma calculateMetrics_spec_witness :
  let s' := Metrics.calculateMetrics
              [lit "ten words are  here"; lit " in two pages, really"] Tool.initial in
  wordCount s' = 8
  /\ tokenCount s' = 11%float
  /\ estimatedCost s' = PrimFloat.mul (PrimFloat.div 11%float 1000000%float) 0.75%float
  /\ PrimFloat.ltb 0.00000824%float (estimatedCost s') = true
  /\ PrimFloat.ltb (estimatedCost s') 0.00000826%float = true.
Proof.
  cbn zeta.
  destruct (calculateMetrics_spec [lit "ten words are  here"; lit " in two pages, really"]
              Tool.initial) as (Hw & _ & Hc & H & _).
  assert (Ht : tokenCount (Metrics.calculateMetrics
                 [lit "ten words are  here"; lit " in two pages, really"] Tool.initial)
               = 11%float).
  { rewrite H; [reflexivity|]. vm_compute. discriminate. }
  split; [rewrite Hw; reflexivity|]. split; [exact Ht|].
  rewrite Hc, Ht. repeat split; reflexivity.
Defined.



Lemma confirmIntervention_needs_texts_witness :
  confirmIntervention 5000 Sample.silent
    (set_rationaleText [] Sample.review_session) (Some Sample.reviewed_logs)
  = Some (set_rationaleText [] Sample.review_session, Some Sample.reviewed_logs, []).
Proof.
  apply (confirmIntervention_needs_texts 5000 Sample.silent
           (set_rationaleText [] Sample.review_session) (Some Sample.reviewed_logs)).
  right. reflexivity.
Defined.

Lemma confirmIntervention_replaces_one_word_witness :
  exists s' stored' effects,
    confirmIntervention 5000 Sample.silent Sample.review_session (Some Sample.reviewed_logs)
    = Some (s', stored', effects)
    /\ at_index (editedPages s') 0 = Some (lit "el protocolo clinico ")
    /\ Tool.displayed_words s' = [lit "el"; lit "protocolo"; lit "clinico"].
Proof.
  destruct (confirmIntervention_replaces_one_word 5000 Sample.silent
              Sample.review_session (Some Sample.reviewed_logs) (lit "plan") 1
              (lit "el plan  clinico "))
    as (s' & stored' & effects & page' & Hrun & Hat & Hpage & _ & Htok & _);
    [reflexivity | discriminate | reflexivity | reflexivity
    | split; [discriminate | repeat constructor] | vm_compute; lia |].
  exists s', stored', effects. split; [exact Hrun|].
  assert (Hcur : currentPage s' = 0%Z).
  { vm_compute in Hrun. now injection Hrun as <- _ _. }
  unfold Tool.displayed_words. rewrite Hcur.
  change (currentPage Sample.review_session) with 0%Z in Hat.
  rewrite Hat, Htok, Hpage. split; reflexivity.
Defined.


(** C2 as the specification states it fails: after a document is uploaded during a
    review, the session is in Draft with no translation, the Finalize button
    is offered, and a click moves the status from Draft to QC Finalized. *)
Lemma finalize_in_draft_counterexample :
  qcStatus (fst (Ui.run (SampleRun.first_session ++ [SampleRun.second_upload])
                        (Tool.initial, None))) = Draft
  /\ editedPages (fst (Ui.run (SampleRun.first_session ++ [SampleRun.second_upload])
                             (Tool.initial, None))) = []
  /\ finalize_offered (fst (Ui.run (SampleRun.first_session ++ [SampleRun.second_upload])
                                   (Tool.initial, None))) = true
  /\ qcStatus (fst (fst (Ui.step Ui.Finalize
                           (Ui.run (SampleRun.first_session ++ [SampleRun.second_upload])
                                   (Tool.initial, None))))) = QCFinalized.
Proof. vm_compute. repeat split. Qed.

Lemma status_moves_forward_witness :
  qcStatus (fst (Ui.run SampleRun.interrupted (Tool.initial, None))) = QCPending
  /\ sourcePages (fst (Ui.run SampleRun.interrupted (Tool.initial, None)))
     = [lit "second document"]
  /\ editedPages (fst (Ui.run SampleRun.interrupted (Tool.initial, None)))
     = [lit "hola mundo"]
  /\ option_map (map Log.id) (snd (Ui.run SampleRun.interrupted (Tool.initial, None)))
     = Some [lit "trans-1000"].
Proof.
  split; [|vm_compute; repeat split].
  apply (status_moves_forward SampleRun.interrupted None);
    [vm_compute; reflexivity | vm_compute; repeat split | vm_compute; reflexivity].
Defined.

Lemma handleTranslate_success_witness :
  exists s' log effects,
    handleTranslate Sample.glossary 2000 2001 Sample.two_pages None
    = (s', Some [log], effects)
    /\ Gateway.prompts effects
       = [ Gateway.translate_prompt (targetLanguage Sample.two_pages) (lit "General")
             (lit "first page");
           Gateway.translate_prompt (targetLanguage Sample.two_pages) (lit "General")
             (lit "second page") ]
    /\ editedPages s' !! 0 = Some (lit "primera pagina")
    /\ editedPages s' !! 1 = Some (lit "segunda pagina")
    /\ length (editedPages s') = 2
    /\ qcStatus s' = QCPending
    /\ Log.workflowTimeCodes log = [(lit "START", 2001)].
Proof.
  destruct (handleTranslate_success Sample.glossary 2000 2001 Sample.two_pages None)
    as (s' & log & effects & Hrun & _ & Hprompts & Hlen & Hat & Hq & Hcodes & _);
    [discriminate
    |intros i page Hi; destruct i as [|[|i]]; [| |discriminate]; injection Hi as <-;
     vm_compute; discriminate|].
  exists s', log, effects. split; [exact Hrun|]. split; [exact Hprompts|].
  split; [exact (Hat 0 (lit "first page") (Some (lit "primera pagina")) eq_refl eq_refl)|].
  split; [exact (Hat 1 (lit "second page") (Some (lit "segunda pagina")) eq_refl eq_refl)|].
  repeat split; assumption.
Defined.

Lemma handleTranslate_failure_witness :
  exists s' requests,
    handleTranslate Sample.fails_second 2000 2001 Sample.two_pages None
    = (s', None, requests ++ [Alert (lit "Pipeline Failure")])
    /\ qcStatus s' = Draft
    /\ editedPages s' = []
    /\ auto_translate_due s' = false.
Proof.
  destruct (handleTranslate_failure Sample.fails_second 2000 2001 Sample.two_pages None
              1 (lit "second page"))
    as (s' & requests & n & Hrun & Hq & Hp & _ & _ & _ & Hdue & _);
    [reflexivity | reflexivity |].
  exists s', requests. repeat split; assumption.
Defined.

(** C9 as the specification states it fails: when the browser opens no print window,
    the PDF action leaves a finalized session in QC Finalized. *)
Lemma download_pdf_blocked_counterexample :
  downloads_offered (set_qcStatus QCFinalized Sample.review_session) = true
  /\ qcStatus (fst (fst (Ui.step (Ui.DownloadPDF false)
                           (set_qcStatus QCFinalized Sample.review_session,
                            Some Sample.reviewed_logs)))) = QCFinalized
  /\ qcStatus (fst (fst (Ui.step (Ui.DownloadPDF false)
                           (set_qcStatus QCFinalized Sample.review_session,
                            Some Sample.reviewed_logs)))) <> Downloaded.
Proof. vm_compute. repeat split. discriminate. Qed.

Lemma downloads_set_status_witness :
  qcStatus (fst (fst (Ui.step Ui.DownloadWord
                        (set_qcStatus Downloaded Sample.review_session,
                         Some Sample.reviewed_logs)))) = Downloaded.
Proof.
  apply (downloads_set_status (set_qcStatus Downloaded Sample.review_session)
           (Some Sample.reviewed_logs)).
  reflexivity.
Defined.

Lemma page_cursor_stays_in_range_witness :
  cursor_in_range (fst (fst (Ui.step Ui.NextPage (Sample.two_pages, None))))
  /\ sourcePages (fst (fst (Ui.step Ui.NextPage (Sample.two_pages, None))))
     = sourcePages Sample.two_pages.
Proof.
  apply (page_cursor_stays_in_range Ui.NextPage Sample.two_pages None);
    [discriminate | unfold cursor_in_range; cbn; lia].
Defined.

Lemma cursor_leaves_the_document_witness :
  currentPage (fst (fst (Ui.step Ui.NextPage (Tool.initial, None)))) = (-1)%Z
  /\ at_index
       (sourcePages (fst (fst (Ui.step (Ui.Upload (Parsed [lit "one page"]) 2025 1000)
                                       (set_currentPage 1 Sample.two_pages, None)))))
       1 = None.
Proof.
  destruct (cursor_leaves_the_document Tool.initial None) as [H _].
  destruct (cursor_leaves_the_document (set_currentPage 1 Sample.two_pages) None) as [_ H'].
  split.
  - apply H; [reflexivity | cbn; lia].
  - apply (H' [lit "one page"] 2025 1000). cbn. lia.
Defined.

Lemma status_writes_compose_witness :
  updatePersistentStatus (lit "trans-1") QCFinalized
    (updatePersistentStatus (lit "trans-3") Downloaded Sample.three_logs)
  = updatePersistentStatus (lit "trans-3") Downloaded
      (updatePersistentStatus (lit "trans-1") QCFinalized Sample.three_logs).
Proof.
  apply (status_writes_compose (lit "trans-1") (lit "trans-3") QCFinalized Downloaded
           Sample.three_logs).
  reflexivity.
Defined.

Lemma store_only_grows_witness :
  exists logs',
    snd (Ui.run SampleRun.first_session (Tool.initial, Sample.three_logs)) = Some logs'
    /\ 3 <= length logs'.
Proof.
  destruct (store_only_grows SampleRun.first_session (Tool.initial, Sample.three_logs)
              (default [] Sample.three_logs)) as (logs' & H & Hlen & _); [reflexivity|].
  exists logs'. split; [exact H|exact Hlen].
Defined.

Lemma qc_time_is_never_persisted_witness :
  store_untimed
    (snd (Ui.run (SampleRun.first_session ++ [Ui.Tick; Ui.Tick; Ui.Finalize])
                 (Tool.initial, None))).
Proof.
  apply (qc_time_is_never_persisted
           (SampleRun.first_session ++ [Ui.Tick; Ui.Tick; Ui.Finalize]) (Tool.initial, None)).
  constructor.
Defined.

Lemma intervention_after_leading_space_witness :
  exists s' stored' effects,
    confirmIntervention 5000 Sample.silent
      (set_editedPages [lit " el plan clinico"] Sample.review_session)
      (Some Sample.reviewed_logs)
    = Some (s', stored', effects)
    /\ Tool.displayed_words s' = [lit "protocolo"; lit "plan"; lit "clinico"].
Proof.
  destruct (intervention_after_leading_space 5000 Sample.silent
              (set_editedPages [lit " el plan clinico"] Sample.review_session)
              (Some Sample.reviewed_logs) (lit "plan") 1 (lit " el plan clinico"))
    as (s' & stored' & effects & page' & Hrun & Hat & Hshown);
    [reflexivity | discriminate | reflexivity | reflexivity | vm_compute; discriminate
    | split; [discriminate | repeat constructor] | vm_compute; lia |].
  exists s', stored', effects. split; [exact Hrun|].
  assert (Hcur : currentPage s' = 0%Z).
  { vm_compute in Hrun. now injection Hrun as <- _ _. }
  unfold Tool.displayed_words. rewrite Hcur.
  change (currentPage (set_editedPages [lit " el plan clinico"] Sample.review_session))
    with 0%Z in Hat.
  rewrite Hat, Hshown. reflexivity.
Defined.

Lemma confirm_without_page_throws_witness :
  confirmIntervention 5000 Sample.silent
    (fst (handleFileUpload (Parsed [lit "second document"]) 2025 3000
            Sample.review_session (Some Sample.reviewed_logs)))
    (Some Sample.reviewed_logs)
  = None.
Proof.
  destruct (confirm_without_page_throws 5000 Sample.silent Sample.review_session
              (Some Sample.reviewed_logs)) as [_ H].
  apply (H [lit "second document"] 2025 3000); discriminate.
Defined.

Lemma interventions_ignore_status_witness :
  Ui.step (Ui.Confirm 5000 Sample.silent)
          (set_qcStatus Downloaded Sample.review_session, Some Sample.reviewed_logs)
  = (let '(s', stored', effects) :=
       Ui.step (Ui.Confirm 5000 Sample.silent)
               (Sample.review_session, Some Sample.reviewed_logs) in
     (set_qcStatus Downloaded s', stored', effects)).
Proof.
  apply (interventions_ignore_status Downloaded Sample.review_session
           (Some Sample.reviewed_logs) (Ui.Confirm 5000 Sample.silent)).
  right. exists 5000, Sample.silent. reflexivity.
Defined.

Lemma tracking_numbers_follow_translations_witness :
  currentTrackingId
    (fst (fst (Ui.step (Ui.Upload (Parsed [lit "second document"]) 2025 3000)
       (fst (Ui.step (Ui.TranslationEffect Sample.echo 2000 2001)
          (fst (Ui.step Ui.ChooseInitiate
             (fst (Ui.step (Ui.Upload (Parsed [lit "hello world"]) 2025 1000)
                           (Tool.initial, Sample.three_logs))))))))))
  = lit "2025-004".
Proof.
  destruct (tracking_numbers_follow_translations Sample.echo [lit "hello world"]
              [lit "second document"] 2025 1000 3000 2000 2001 Tool.initial
              Sample.three_logs) as (_ & _ & H).
  destruct H as [H _]; [vm_compute; discriminate|]. exact H.
Defined.

Lemma detected_language_is_never_empty_witness :
  sourceLanguage (languageDetected (Gateway.Answer (Some (lit " French "))) Tool.initial)
  = lit "French".
Proof.
  destruct (detected_language_is_never_empty (Gateway.Answer (Some (lit " French ")))
              Tool.initial) as (_ & H & _).
  rewrite (H (lit " French ")); [reflexivity | reflexivity | vm_compute; discriminate].
Defined.

Lemma finalize_hands_over_to_download_witness :
  qcStatus (fst (fst (Ui.step Ui.Finalize (Sample.review_session, Some Sample.reviewed_logs))))
  = QCFinalized.
Proof.
  apply (finalize_hands_over_to_download Sample.review_session (Some Sample.reviewed_logs)).
  reflexivity.
Defined.

Lemma full_cycle_ends_downloaded_witness :
  qcStatus
    (fst (Ui.run [ Ui.Upload (Parsed [lit "hello world"]) 2025 1000; Ui.ChooseInitiate;
                   Ui.TranslationEffect Sample.echo 2000 2001; Ui.ToggleReview;
                   Ui.Finalize; Ui.DownloadWord ] (Tool.initial, None)))
  = Downloaded.
Proof.
  apply (full_cycle_ends_downloaded Sample.echo [lit "hello world"] 2025 1000 2000 2001);
    [intros sent prompt; discriminate | discriminate].
Defined.

Lemma fallback_requests_never_falsy_witness :
  GeminiService.getAlternateSuggestions Json.reference_parse
    (fun _ _ => Gateway.Answer (Some fenced_array))
    (lit "dosis") (lit "la dosis diaria") (lit "Spanish") []
  = (Some one_two_three,
     [GenerateContent (alternatives_prompt (lit "dosis") (lit "la dosis diaria") (lit "Spanish"))]).
Proof.
  destruct (fallback_requests_never_falsy Json.reference_parse
              (fun _ _ => Gateway.Answer (Some fenced_array))
              (lit "dosis") (lit "la dosis diaria") (lit "Spanish") fenced_array
              (lit "France") []) as (_ & _ & _ & _ & _ & _ & H).
  apply (H one_two_three []);
    [reflexivity | discriminate | vm_compute; reflexivity | reflexivity].
Defined.

Lemma requests_without_text_witness :
  GeminiService.analyzeRegulation Json.reference_parse (fun _ _ => Gateway.Answer None)
    (lit "Annex 11") (lit "Computerised systems") []
  = (Some Json.Null,
     [GenerateContent (lit "Analyze: " ++ lit "Annex 11" ++ [10%N] ++ lit "Computerised systems")]).
Proof.
  destruct (requests_without_text Json.reference_parse (fun _ _ => Gateway.Answer None)
              [] [] [] (lit "Annex 11") (lit "Computerised systems") [] [] [] [])
    as (_ & H & _).
  apply (H []). left. reflexivity.
Defined.

Lemma extractJson_returns_inner_array_witness :
  Json.extractJson Json.reference_parse
    (Some [123; 34; 97; 34; 58; 91; 49; 44; 50; 93; 125]%N)
  = Json.Normal (Json.Array [Json.Number 1%float; Json.Number 2%float]).
Proof.
  apply (extractJson_returns_inner_array Json.reference_parse
           [123; 34; 97; 34; 58; 91; 49; 44; 50; 93; 125]%N
           [123; 34; 97; 34; 58]%N [49; 44; 50]%N [125]%N).
  - discriminate.
  - vm_compute. reflexivity.
  - intros H. repeat (destruct H as [H|H]; [discriminate H|]). exact H.
  - intros H. repeat (destruct H as [H|H]; [discriminate H|]). exact H.
  - vm_compute. reflexivity.
Defined.

Lemma clean_unwraps_fence_witness :
  Json.clean (Json.fence_json ++ ([10%N] ++ lit "[1,2,3]" ++ [10%N]) ++ Json.fence ++ [10%N])
  = [10%N] ++ lit "[1,2,3]" ++ [10%N].
Proof.
  destruct (clean_unwraps_fence [] [10%N] ([10%N] ++ lit "[1,2,3]" ++ [10%N])) as [H _];
    [constructor | repeat constructor |].
  apply H. reflexivity.
Defined.

Lemma dashboard_follows_each_write_witness :
  total_errors (persist_intervention (lit "trans-1") Sample.minor_rationale
            (Some Sample.reviewed_logs))
  = total_errors (Some Sample.reviewed_logs) + 1.
Proof.
  destruct (dashboard_follows_each_write Sample.review_session (Some Sample.reviewed_logs))
    as (_ & H & _).
  destruct (H Sample.minor_rationale) as (_ & _ & H').
  apply (H' Sample.reviewed_logs 0); reflexivity.
Defined.

Lemma reg_tracking_numbers_witness :
  RegDb.generateRegTrackingId (option jsstring) (fun e => e)
    ([Some (lit "REG-2025-001"); None] ++ [Some (lit "REG-2025-002")]) 2025
  = lit "REG-2025-003".
Proof.
  destruct (reg_tracking_numbers (option jsstring) (fun e => e)
              [Some (lit "REG-2025-001"); None] 2025) as (_ & _ & H).
  apply (H (Some (lit "REG-2025-002"))). reflexivity.
Defined.

Lemma toggle_flips_membership_witness :
  RegDb.handleToggle (RegDb.handleToggle [lit "FDA"; lit "EMA"] (lit "PMDA")) (lit "PMDA")
  = [lit "FDA"; lit "EMA"].
Proof.
  destruct (toggle_flips_membership [lit "FDA"; lit "EMA"] (lit "PMDA")) as (_ & _ & _ & H).
  apply H. intros [H'|[H'|[]]]; discriminate.
Defined.

Lemma feed_keeps_newest_fifty_witness :
  Agent.feed [lit "first"; lit "second"] [] = [lit "second"; lit "first"].
Proof.
  destruct (feed_keeps_newest_fifty [lit "first"; lit "second"] []) as (H & _);
    [cbn; lia|].
  rewrite H. reflexivity.
Defined.

Lemma events_write_only_the_session_log_witness :
  exists logs',
    snd (fst (Ui.step Ui.Finalize (Sample.review_session, Some Sample.reviewed_logs)))
    = Some logs'
    /\ logs' !! 1 = Some (Sample.log (lit "trans-2") (lit "2024-007") 200).
Proof.
  destruct (events_write_only_the_session_log Ui.Finalize Sample.review_session
              Sample.reviewed_logs) as (logs' & H & Hl).
  exists logs'. split; [exact H|].
  apply Hl; [reflexivity | vm_compute; discriminate].
Defined.

Lemma persisted_scores_stay_consistent_witness :
  store_consistent (snd (Ui.run SampleRun.corrected (Tool.initial, Sample.three_logs)))
  /\ option_map
       (map (fun l => (map Rationale.mqmSeverity (Log.rationales l), Log.wordCount l,
                       Log.mqmErrorScore l, Log.qualityScore l, Log.status l)))
       (snd (Ui.run SampleRun.corrected (Tool.initial, Sample.three_logs)))
     = Some [ ([], 1000, None, None, QCPending); ([], 200, None, None, QCPending);
              ([], 40, None, None, QCPending);
              ([Minor; Major], 2, Some 6, Some 0%float, QCFinalized) ].
Proof.
  split; [|vm_compute; reflexivity].
  apply (persisted_scores_stay_consistent SampleRun.corrected
           (Tool.initial, Sample.three_logs)).
  repeat constructor.
Defined.

Lemma highlight_follows_the_spoken_word_witness :
  Voice.boundary_word_index (lit " el plan clinico") 4 = 1
  /\ split_ws (trim (lit " el plan clinico")) !! 1 = Some (lit "plan").
Proof.
  destruct (highlight_follows_the_spoken_word (lit " el ") (lit "plan") (lit " clinico")
              Tool.initial) as (_ & H1 & H2);
    [split; [discriminate | repeat constructor] | right; reflexivity | right; reflexivity |].
  split; [exact H1 | exact H2].
Defined.

Lemma qc_timer_counts_witness :
  qcSeconds (fst (Ui.run (repeat Ui.Tick 3)
                         (set_isWordModalOpen false Sample.review_session,
                          Some Sample.reviewed_logs))) = 3
  /\ Ui.step Ui.Tick (Sample.review_session, Some Sample.reviewed_logs)
     = ((Sample.review_session, Some Sample.reviewed_logs), []).
Proof.
  destruct (qc_timer_counts [] (set_isWordModalOpen false Sample.review_session,
                                Some Sample.reviewed_logs)) as (_ & _ & H & _).
  destruct (qc_timer_counts [] (Sample.review_session, Some Sample.reviewed_logs))
    as (_ & _ & _ & H').
  split.
  - destruct H as [_ H]; [reflexivity | reflexivity | reflexivity | reflexivity |].
    exact (H 3).
  - apply H'. right. right. right. reflexivity.
Defined.
